(** * FraudGuard: the CSV / scoring / results pipeline of [frontend/script.js]

    A shallow embedding of the client-side pipeline
    (parse -> score -> classify -> store -> display -> filter/search -> export)
    together with the properties stated about it.

    Conventions of the embedding.
    - A JavaScript string is the list of its UTF-16 code units ([list N]).
    - A plain object used as a dictionary is a [gmap] from property names to
      values.  Assignment [o[k] = v] goes through [assign], which accounts for
      the one inherited setter of a plain object ([__proto__]).
    - Numbers that are always integral in the program (scores, counts) are
      [Z]; the others are rationals ([Q]), every binary64 value being one,
      with [NaN] and the infinities added where they can arise.  The rounding
      of inexact [+], [*] and [/] results is the host's [fl].
    - What the browser provides and the repository merely calls
      ([parseFloat], [Date], [toLowerCase], [JSON.parse], the rendering of a
      table row with its [Intl] formats) is a field of the class [Host];
      [Math.random] is an explicit stream of draws. *)

From Stdlib Require Import ZArith QArith Qround Qabs Lqa String Ascii.
From stdpp Require Import base option list gmap.

Local Open Scope Z_scope.
#[local] Set Warnings "-clear-no-such-hyp".

(** ** JavaScript strings *)

Abbreviation char := N (only parsing).
Abbreviation jsstring := (list N) (only parsing).

(** A string literal of the source, as code units. *)
Definition lit (s : string) : jsstring :=
  map N_of_ascii (list_ascii_of_string s).

Definition newline : char := 10%N.
Definition comma : char := 44%N.

(** ECMAScript [WhiteSpace] and [LineTerminator] code points, the ones
    [String.prototype.trim] strips. *)
Definition is_whitespace (c : char) : bool :=
  bool_decide (c ∈ [9; 10; 11; 12; 13; 32; 160; 5760; 8232; 8233; 8239;
                     8287; 12288; 65279]%N)
  || ((8192 <=? c)%N && (c <=? 8202)%N).

Fixpoint trimStart (s : jsstring) : jsstring :=
  match s with
  | c :: s' => if is_whitespace c then trimStart s' else s
  | [] => []
  end.

Definition trimEnd (s : jsstring) : jsstring :=
  reverse (trimStart (reverse s)).

(** [s.trim()] *)
Definition trim (s : jsstring) : jsstring := trimEnd (trimStart s).

(** [s.split(sep)] for a one-character separator: never the empty array. *)
Fixpoint split (sep : char) (s : jsstring) : list jsstring :=
  match s with
  | [] => [[]]
  | c :: s' =>
      if (c =? sep)%N then [] :: split sep s'
      else match split sep s' with
           | w :: ws => (c :: w) :: ws
           | [] => [[c]]
           end
  end.

(** [parts.join(sep)] for a one-character separator. *)
Fixpoint join (sep : char) (parts : list jsstring) : jsstring :=
  match parts with
  | [] => []
  | [p] => p
  | p :: rest => p ++ sep :: join sep rest
  end.

Fixpoint startsWith (s p : jsstring) {struct p} : bool :=
  match p, s with
  | [], _ => true
  | a :: p', b :: s' => (a =? b)%N && startsWith s' p'
  | _ :: _, [] => false
  end.

(** [s.includes(p)]: [p] occurs in [s] as a contiguous run of code units. *)
Fixpoint includes (s p : jsstring) : bool :=
  startsWith s p ||
  match s with
  | [] => false
  | _ :: s' => includes s' p
  end.

(** ** Plain objects as dictionaries *)

(** [o[k] = v] on an object created by [{}], for a primitive [v]: a data
    property is created or overwritten, except for the key [__proto__], which
    reaches the inherited accessor of [Object.prototype]; its setter ignores
    every value that is neither an object nor [null]. *)
Definition assign {V} (o : gmap jsstring V) (k : jsstring) (v : V)
  : gmap jsstring V :=
  if bool_decide (k = lit "__proto__") then o else <[k := v]> o.

(** [x || ''] for [x] a string or [undefined]. *)
Definition or_empty (x : option jsstring) : jsstring :=
  match x with
  | Some (c :: s) => c :: s
  | Some [] | None => []
  end.

(** ** The CSV parser *)

(** [headers.forEach((header, index) => { row[header] = values[index] || '' })] *)
Fixpoint forEach_header (headers : list jsstring) (index : nat)
    (values : list jsstring) (row : gmap jsstring jsstring)
  : gmap jsstring jsstring :=
  match headers with
  | [] => row
  | header :: rest =>
      forEach_header rest (S index) values
        (assign row header (or_empty (values !! index)))
  end.

(** The body of the [for] loop of [parseCSV], from the line at [i] on;
    [data] is the array built so far. *)
Fixpoint parseCSV_loop (headers : list jsstring) (lines : list jsstring)
    (data : list (gmap jsstring jsstring)) : list (gmap jsstring jsstring) :=
  match lines with
  | [] => data
  | line :: rest =>
      if bool_decide (trim line = []) then parseCSV_loop headers rest data
      else
        let values := trim <$> split comma line in
        let row := forEach_header headers 0 values ∅ in
        parseCSV_loop headers rest (data ++ [row])
  end.

Definition parseCSV (content : jsstring) : list (gmap jsstring jsstring) :=
  match split newline (trim content) with
  | line0 :: rest =>
      let headers := trim <$> split comma line0 in
      parseCSV_loop headers rest []
  | [] => []
  end.

(** ** Numbers *)

(** A JavaScript number that need not be finite. *)
Inductive number :=
  | NaN
  | Infinity (negative : bool)
  | Finite (q : Q).

Definition Qltb (x y : Q) : bool := negb (Qle_bool y x).

(** [x < y]; every comparison with [NaN] is false. *)
Definition lt (x y : number) : bool :=
  match x, y with
  | NaN, _ | _, NaN => false
  | Infinity a, Infinity b => a && negb b
  | Infinity a, Finite _ => a
  | Finite _, Infinity b => negb b
  | Finite p, Finite q => Qltb p q
  end.

(** [x <= y] *)
Definition le (x y : number) : bool :=
  match x, y with
  | NaN, _ | _, NaN => false
  | _, _ => negb (lt y x)
  end.

(** [x > y] and [x >= y] *)
Definition gt (x y : number) : bool := lt y x.
Definition ge (x y : number) : bool := le y x.

(** [x || 0] *)
Definition or_zero (x : number) : number :=
  match x with
  | NaN => Finite 0
  | Finite q => if Qeq_bool q 0 then Finite 0 else x
  | Infinity _ => x
  end.

(** [Math.floor] and [Math.round] (ties go up) of a finite number. *)
Definition Math_floor (x : Q) : Z := Qfloor x.
Definition Math_round (x : Q) : Z := Qfloor (x + 1 / 2).

(** [String(n)] for an integer [n] below [10^21] in magnitude, where the
    decimal digits are printed in full. *)
Definition digit (d : Z) : char := (48 + Z.to_N d)%N.

Fixpoint digits (fuel : nat) (n : Z) (acc : jsstring) : jsstring :=
  let acc' := digit (n mod 10) :: acc in
  match fuel with
  | O => acc'
  | S fuel' => if n <? 10 then acc' else digits fuel' (n / 10) acc'
  end.

Definition Z_toString (n : Z) : jsstring :=
  let m := Z.abs n in
  (if n <? 0 then lit "-" else []) ++ digits (Z.to_nat (Z.log2 m)) m [].

(** ** Values stored in an Enriched Result *)

Inductive value :=
  | VString (s : jsstring)
  | VNumber (n : Z)
  | VArray (items : list (option jsstring)).

(** [ToBoolean] *)
Definition truthy (v : value) : bool :=
  match v with
  | VString [] => false
  | VString (_ :: _) => true
  | VNumber n => negb (n =? 0)
  | VArray _ => true
  end.

(** [ToString]; an array prints its elements comma-separated, [undefined]
    ones as nothing. *)
Definition toString (v : value) : jsstring :=
  match v with
  | VString s => s
  | VNumber n => Z_toString n
  | VArray items => join comma (default [] <$> items)
  end.

(** What [JSON.parse] can return, as far as [initResultsPage] tells the
    cases apart; the elements of an array are objects, as [saveResults]
    writes them. *)
Inductive json :=
  | JNull
  | JBool (b : bool)
  | JNumber (q : Q)
  | JString (s : jsstring)
  | JArray (items : list (gmap jsstring value))
  | JObject (o : gmap jsstring value).

(** ** The host *)

Class Host := {
  (** rounding of an exact result to binary64, round to nearest *)
  fl : Q → Q;
  fl_monotone : ∀ x y, (x <= y)%Q → (fl x <= fl y)%Q;
  fl_integer : ∀ n : Z, Z.abs n <= 2 ^ 53 → (fl (inject_Z n) == inject_Z n)%Q;
  fl_idempotent : ∀ x, (fl (fl x) == fl x)%Q;
  (** [parseFloat(s)] *)
  parseFloat : jsstring → number;
  (** [new Date(s).getHours()], [NaN] for an invalid date *)
  getHours : jsstring → number;
  (** [s.toLowerCase()] *)
  toLowerCase : jsstring → jsstring;
  (** [JSON.parse(s)], [None] when it throws a [SyntaxError] *)
  JSON_parse : jsstring → option json;
  (** [textContent] of the table row [populateResultsTable] renders *)
  row_textContent : gmap jsstring value → jsstring;
}.

Definition add `{Host} (x y : Q) : Q := fl (x + y).
Definition mul `{Host} (x y : Q) : Q := fl (x * y).
Infix "⊕" := add (at level 50, left associativity).
Infix "⊗" := mul (at level 40, left associativity).

(** [x / y] for finite operands. *)
Definition div `{Host} (x y : Q) : number :=
  if Qeq_bool y 0 then
    if Qeq_bool x 0 then NaN else Infinity (Qltb x 0)
  else Finite (fl (x / y)).

(** [x * c] for a finite [c]. *)
Definition times `{Host} (x : number) (c : Q) : number :=
  match x with
  | NaN => NaN
  | Infinity s =>
      if Qeq_bool c 0 then NaN else Infinity (xorb s (Qltb c 0))
  | Finite q => Finite (q ⊗ c)
  end.

(** [Math.random]: the draws still to come. *)
Abbreviation rng := (nat → Q) (only parsing).

(** ** Risk scorer and classifier *)

Definition highRiskLocations : list jsstring :=
  [lit "Nigeria"; lit "Russia"; lit "Ukraine"; lit "Unknown"].

(** [parseFloat(transaction.amount) || 0]; a missing property is
    [undefined], which parses to [NaN]. *)
Definition amount_of `{Host} (transaction : gmap jsstring jsstring) : number :=
  or_zero (match transaction !! lit "amount" with
           | Some s => parseFloat s
           | None => NaN
           end).

(** [loc => transaction.location?.includes(loc)] *)
Definition location_includes (transaction : gmap jsstring jsstring)
    (loc : jsstring) : bool :=
  match transaction !! lit "location" with
  | Some l => includes l loc
  | None => false
  end.

(** [new Date(transaction.timestamp).getHours()] *)
Definition hour_of `{Host} (transaction : gmap jsstring jsstring) : number :=
  match transaction !! lit "timestamp" with
  | Some s => getHours s
  | None => NaN
  end.

(** [random] is the value [Math.random()] returns in this call. *)
Definition calculateRiskScore `{Host} (random : Q)
    (transaction : gmap jsstring jsstring) : Z :=
  let score := 0%Q in
  let amount := amount_of transaction in
  let score :=
    if gt amount (Finite 5000) then score ⊕ 30%Q
    else if gt amount (Finite 2000) then score ⊕ 20%Q
    else if gt amount (Finite 1000) then score ⊕ 10%Q
    else if lt amount (Finite 10) then score ⊕ 15%Q
    else score in
  let score := score ⊕ (random ⊗ 40%Q) in
  let score :=
    if existsb (location_includes transaction) highRiskLocations
    then score ⊕ 25%Q else score in
  let hour := hour_of transaction in
  let score :=
    if ge hour (Finite 1) && le hour (Finite 5) then score ⊕ 15%Q
    else score in
  Z.min (Math_round score) 100.

Definition determineFraudStatus (riskScore : Z) : jsstring :=
  if 70 <=? riskScore then lit "fraud"
  else if 50 <=? riskScore then lit "warning"
  else lit "legitimate".

Definition getRiskLevel (riskScore : Z) : jsstring :=
  if 70 <=? riskScore then lit "High"
  else if 50 <=? riskScore then lit "Medium"
  else lit "Low".

(** ** Fraud indicators *)

Definition indicator_catalog : list jsstring :=
  [lit "Unusual transaction amount";
   lit "Suspicious merchant category";
   lit "Transaction from high-risk location";
   lit "Unusual time of transaction";
   lit "Multiple transactions in short period";
   lit "Card used in multiple locations";
   lit "Velocity check failed";
   lit "Amount exceeds normal spending pattern"].

(** [a[index]] for an integral [index]: [undefined] outside the array. *)
Definition at_index {A} (a : list A) (index : Z) : option A :=
  if index <? 0 then None else a !! Z.to_nat index.

(** [a.splice(index, 1)]: a negative start counts from the end, a start past
    the end removes nothing. *)
Definition splice1 {A} (index : Z) (a : list A) : list A :=
  let len := Z.of_nat (length a) in
  let start := if index <? 0 then Z.max (len + index) 0 else Z.min index len in
  delete (Z.to_nat start) a.

(** The selection loop of [generateFraudIndicators], [count] rounds to go. *)
Fixpoint select_indicators `{Host} (count : nat)
    (selected : list (option jsstring)) (available : list jsstring)
    (g : rng) : list (option jsstring) * rng :=
  match count with
  | O => (selected, g)
  | S count' =>
      let index := Math_floor (g O ⊗ inject_Z (Z.of_nat (length available))) in
      select_indicators count' (selected ++ [at_index available index])
        (splice1 index available) (g ∘ S)
  end.

Definition generateFraudIndicators `{Host} (g : rng)
  : list (option jsstring) * rng :=
  let count := Math_floor (g O ⊗ 3%Q) + 2 in
  select_indicators (Z.to_nat count) [] indicator_catalog (g ∘ S).

(** ** The analysis pipeline *)

(** One round of the loop of [performAnalysis]: the Enriched Result of
    [transaction] and the draws left.  The object literal copies the own
    properties of [transaction] first, so the four computed properties
    replace columns of the same name. *)
Definition analyse `{Host} (transaction : gmap jsstring jsstring) (g : rng)
  : gmap jsstring value * rng :=
  let riskScore := calculateRiskScore (g O) transaction in
  let g := g ∘ S in
  let status := determineFraudStatus riskScore in
  let '(indicators, g) :=
    if bool_decide (status = lit "fraud") then generateFraudIndicators g
    else ([], g) in
  (<[lit "riskLevel" := VString (getRiskLevel riskScore)]>
     (<[lit "indicators" := VArray indicators]>
        (<[lit "status" := VString status]>
           (<[lit "riskScore" := VNumber riskScore]>
              (VString <$> transaction)))),
   g).

Fixpoint performAnalysis_loop `{Host}
    (transactions : list (gmap jsstring jsstring))
    (analysisResults : list (gmap jsstring value)) (g : rng)
  : list (gmap jsstring value) * rng :=
  match transactions with
  | [] => (analysisResults, g)
  | transaction :: rest =>
      let '(result, g') := analyse transaction g in
      performAnalysis_loop rest (analysisResults ++ [result]) g'
  end.

(** The Result Set [performAnalysis] leaves in [analysisResults]; the
    progress display and the per-row delay are not part of the model. *)
Definition performAnalysis `{Host}
    (transactions : list (gmap jsstring jsstring)) (g : rng)
  : list (gmap jsstring value) :=
  (performAnalysis_loop transactions [] g).1.

(** ** CSV export *)

Definition export_headers : list jsstring :=
  [lit "Transaction ID"; lit "Amount"; lit "Merchant"; lit "Location";
   lit "Timestamp"; lit "Card Number"; lit "Risk Score"; lit "Status"].

Definition export_keys : list jsstring :=
  [lit "transaction_id"; lit "amount"; lit "merchant"; lit "location";
   lit "timestamp"; lit "card_number"; lit "riskScore"; lit "status"].

(** [x || ''] for a property read [x]. *)
Definition or_empty_value (x : option value) : value :=
  match x with
  | Some v => if truthy v then v else VString []
  | None => VString []
  end.

(** The array [row] built for one transaction. *)
Definition export_row (transaction : gmap jsstring value) : list value :=
  (λ key, or_empty_value (transaction !! key)) <$> export_keys.

(** [row.join(',')] *)
Definition export_line (transaction : gmap jsstring value) : jsstring :=
  join comma (toString <$> export_row transaction).

(** The text of the file [exportToCSV] offers for download. *)
Definition exportToCSV (results : list (gmap jsstring value)) : jsstring :=
  join newline (join comma export_headers :: (export_line <$> results)).

(** ** Results view *)

Global Instance value_eq_dec : EqDecision value.
Proof. solve_decision. Defined.

(** [r.status === s] *)
Definition status_is (s : jsstring) (r : gmap jsstring value) : bool :=
  bool_decide (r !! lit "status" = Some (VString s)).

(** [x.toFixed(1)], for a finite [x] below [10^21] in magnitude: the integer
    [n] with [n / 10] closest to [|x|], the larger one on a tie, printed with
    one digit after the point. *)
Definition toFixed1 (x : number) : jsstring :=
  match x with
  | NaN => lit "NaN"
  | Infinity s => if s then lit "-Infinity" else lit "Infinity"
  | Finite q =>
      let n := Qfloor (Qabs q * 10 + 1 / 2) in
      (if Qltb q 0 then lit "-" else [])
        ++ Z_toString (n / 10) ++ lit "." ++ [digit (n mod 10)]
  end.

(** The four summary cards, as the text written into them. *)
Record summary := {
  totalTransactions : jsstring;
  legitimateCount : jsstring;
  fraudCount : jsstring;
  fraudRate : jsstring;
}.

(** The statistics [displayResults] computes and writes. *)
Definition displayResults_summary `{Host} (results : list (gmap jsstring value))
  : summary :=
  let totalTransactions := Z.of_nat (length results) in
  let fraudCount :=
    Z.of_nat (length (List.filter (status_is (lit "fraud")) results)) in
  let legitimateCount :=
    Z.of_nat (length (List.filter
                        (λ r, status_is (lit "legitimate") r
                              || status_is (lit "warning") r) results)) in
  let fraudRate :=
    toFixed1 (times (div (inject_Z fraudCount) (inject_Z totalTransactions))
                100) in
  {| totalTransactions := Z_toString totalTransactions;
     legitimateCount := Z_toString legitimateCount;
     fraudCount := Z_toString fraudCount;
     fraudRate := fraudRate ++ lit "%" |}.

(** A row of the results table: its [data-status] attribute, its text and
    its [style.display]. *)
Record tr := {
  data_status : jsstring;
  textContent : jsstring;
  display : jsstring;
}.

Definition set_display (d : jsstring) (row : tr) : tr :=
  {| data_status := data_status row; textContent := textContent row;
     display := d |}.

(** A row is shown unless its [display] is [none]. *)
Definition visible (row : tr) : bool := bool_decide (display row ≠ lit "none").

(** [String(x)] for a property read, as [setAttribute] applies it. *)
Definition attribute_text (x : option value) : jsstring :=
  match x with
  | Some v => toString v
  | None => lit "undefined"
  end.

Definition populateResultsTable `{Host} (results : list (gmap jsstring value))
  : list tr :=
  (λ transaction,
     {| data_status := attribute_text (transaction !! lit "status");
        textContent := row_textContent transaction;
        display := [] |}) <$> results.

(** The table and what the two handlers share: the rows, whether the
    [noResults] banner carries the class [d-none], and [currentFilter]. *)
Record view := {
  rows : list tr;
  noResults_d_none : bool;
  currentFilter : jsstring;
}.

(** The callback [filterResults] applies to each row. *)
Definition filter_row (filter : jsstring) (row : tr) : tr :=
  let status := data_status row in
  if bool_decide (filter = lit "all") then set_display [] row
  else if bool_decide (filter = lit "fraud")
          && bool_decide (status = lit "fraud") then set_display [] row
  else if bool_decide (filter = lit "legitimate")
          && (bool_decide (status = lit "legitimate")
              || bool_decide (status = lit "warning")) then set_display [] row
  else set_display (lit "none") row.

Definition filterResults (filter : jsstring) (v : view) : view :=
  let rows' := filter_row filter <$> rows v in
  let visibleCount := length (List.filter visible rows') in
  {| rows := rows';
     noResults_d_none := negb (Nat.eqb visibleCount 0);
     currentFilter := filter |}.

(** The body of the loop of [searchTransactions]. *)
Definition search_row `{Host} (searchTerm : jsstring) (row : tr) : tr :=
  let rowText := toLowerCase (textContent row) in
  if bool_decide (searchTerm = []) || includes rowText searchTerm
  then set_display [] row
  else set_display (lit "none") row.

(** [searchBox_value] is what the search box holds when the handler runs. *)
Definition searchTransactions `{Host} (searchBox_value : jsstring) (v : view)
  : view :=
  let searchTerm := trim (toLowerCase searchBox_value) in
  let rows' := search_row searchTerm <$> rows v in
  let visibleCount := length (List.filter visible rows') in
  {| rows := rows';
     noResults_d_none := negb (Nat.eqb visibleCount 0);
     currentFilter := currentFilter v |}.

(** ** Loading the results page *)

(** What [initResultsPage] reads and writes: the storage, a pending
    navigation, the two globals, and what has been rendered. *)
Record page := {
  localStorage : gmap jsstring jsstring;
  location_href : option jsstring;
  window_analysisResults : option json;
  window_analysisTimestamp : option jsstring;
  summary_cards : option summary;
  table : list tr;
}.

(** How a call ends: it returns, or an exception escapes it. *)
Inductive completion :=
  | Returns (p : page)
  | Throws (error : jsstring) (p : page).

(** [!results] *)
Definition json_falsy (results : json) : bool :=
  match results with
  | JNull | JBool false | JString [] => true
  | JNumber q => Qeq_bool q 0
  | _ => false
  end.

(** [results.length === 0] *)
Definition json_length_is_0 (results : json) : bool :=
  match results with
  | JArray items => Nat.eqb (length items) 0
  | JObject o => bool_decide (o !! lit "length" = Some (VNumber 0))
  | _ => false
  end.

(** [displayResults(results)]: [results.filter] exists on arrays only. *)
Definition displayResults `{Host} (results : json) (p : page) : completion :=
  match results with
  | JArray items =>
      Returns {| localStorage := localStorage p;
                 location_href := location_href p;
                 window_analysisResults := window_analysisResults p;
                 window_analysisTimestamp := window_analysisTimestamp p;
                 summary_cards := Some (displayResults_summary items);
                 table := populateResultsTable items |}
  | _ => Throws (lit "TypeError") p
  end.

(** The later of the two declarations of [initResultsPage], the one in
    effect: it reads [localStorage]. *)
Definition initResultsPage `{Host} (p : page) : completion :=
  let resultsJSON := localStorage p !! lit "fraudGuard_results" in
  let timestamp := localStorage p !! lit "fraudGuard_timestamp" in
  let parsed :=
    match resultsJSON with
    | Some (c :: s) => JSON_parse (c :: s)
    | Some [] | None => Some JNull
    end in
  match parsed with
  | None => Throws (lit "SyntaxError") p
  | Some results =>
      if json_falsy results || json_length_is_0 results then
        Returns {| localStorage :=
                     delete (lit "fraudGuard_timestamp")
                       (delete (lit "fraudGuard_results") (localStorage p));
                   location_href := Some (lit "upload.html");
                   window_analysisResults := window_analysisResults p;
                   window_analysisTimestamp := window_analysisTimestamp p;
                   summary_cards := summary_cards p;
                   table := table p |}
      else
        displayResults results
          {| localStorage := localStorage p;
             location_href := location_href p;
             window_analysisResults := Some results;
             window_analysisTimestamp := timestamp;
             summary_cards := summary_cards p;
             table := table p |}
  end.

(** ** A host to run the model on

    One admissible host, for evaluating the definitions on concrete inputs.
    It agrees with a browser on the inputs the examples below use: arithmetic
    that is exact in binary64, plain decimal numerals (optional sign, digits,
    optional fraction; no exponent, no [Infinity]), ISO timestamps
    [YYYY-MM-DDTHH:...] read in a UTC local zone, ASCII letters, and the JSON
    texts [[]] and [null] against texts that are no JSON at all. *)

Definition ascii_digit (c : char) : option Z :=
  if ((48 <=? c) && (c <=? 57))%N then Some (Z.of_N c - 48) else None.

Fixpoint digits_prefix (s : jsstring) : list Z * jsstring :=
  match s with
  | c :: s' =>
      match ascii_digit c with
      | Some d => let '(ds, r) := digits_prefix s' in (d :: ds, r)
      | None => ([], s)
      end
  | [] => ([], [])
  end.

Definition decimal_value (ds : list Z) : Z :=
  foldl (λ acc d, 10 * acc + d) 0 ds.

Definition sample_parseFloat (s : jsstring) : number :=
  let s := trimStart s in
  let '(negative, s) :=
    match s with
    | 45%N :: r => (true, r)
    | 43%N :: r => (false, r)
    | _ => (false, s)
    end in
  let '(int_part, r) := digits_prefix s in
  let frac_part :=
    match r with
    | 46%N :: r' => (digits_prefix r').1
    | _ => []
    end in
  match int_part ++ frac_part with
  | [] => NaN
  | ds =>
      let q := (inject_Z (decimal_value ds)
                / inject_Z (10 ^ Z.of_nat (length frac_part)))%Q in
      Finite (if negative then (- q)%Q else q)
  end.

Definition sample_getHours (s : jsstring) : number :=
  match s !! 10%nat, (s !! 11%nat) ≫= ascii_digit,
        (s !! 12%nat) ≫= ascii_digit with
  | Some 84%N, Some d1, Some d2 =>
      if 10 * d1 + d2 <? 24 then Finite (inject_Z (10 * d1 + d2)) else NaN
  | _, _, _ => NaN
  end.

Definition sample_toLowerCase (s : jsstring) : jsstring :=
  (λ c : N, if ((65 <=? c) && (c <=? 90))%N then (c + 32)%N else c) <$> s.

Definition sample_JSON_parse (s : jsstring) : option json :=
  if bool_decide (trim s = lit "[]") then Some (JArray [])
  else if bool_decide (trim s = lit "null") then Some JNull
  else None.

Definition sample_row_textContent (transaction : gmap jsstring value)
  : jsstring :=
  join 32%N (toString <$> export_row transaction).

Definition sample_host : Host :=
  {| fl := λ x, x;
     fl_monotone := λ x y Hxy, Hxy;
     fl_integer := λ n _, Qeq_refl (inject_Z n);
     fl_idempotent := λ x, Qeq_refl x;
     parseFloat := sample_parseFloat;
     getHours := sample_getHours;
     toLowerCase := sample_toLowerCase;
     JSON_parse := sample_JSON_parse;
     row_textContent := sample_row_textContent |}.

(** A stream of draws that repeats the given ones. *)
Definition draws (l : list Q) : rng :=
  λ n, default 0%Q (l !! (n mod Nat.max 1 (length l))%nat).

(** ** Vocabulary of the statements *)

(** The row [parseCSV] builds from one data line. *)
Definition row_of (headers : list jsstring) (line : jsstring)
  : gmap jsstring jsstring :=
  forEach_header headers 0 (trim <$> split comma line) ∅.

(** A field as the parser leaves it: trimmed, free of commas and newlines. *)
Definition clean (s : jsstring) : Prop :=
  (comma ∉ s) ∧ (newline ∉ s) ∧ trim s = s.

(** The three modes of the status filter. *)
Definition status_filter_accepts (mode : jsstring) (row : tr) : Prop :=
  mode = lit "all"
  ∨ (mode = lit "fraud" ∧ data_status row = lit "fraud")
  ∨ (mode = lit "legitimate"
     ∧ (data_status row = lit "legitimate" ∨ data_status row = lit "warning")).

(** The search, on the trimmed lower-cased content of the search box. *)
Definition search_accepts `{Host} (searchBox_value : jsstring) (row : tr)
  : Prop :=
  let term := trim (toLowerCase searchBox_value) in
  term = [] ∨ ∃ a b, toLowerCase (textContent row) = a ++ term ++ b.

(** The properties the pipeline computes and adds to a row. *)
Definition computed_keys : list jsstring :=
  [lit "riskScore"; lit "status"; lit "indicators"; lit "riskLevel"].

(** The round trip read literally: every field value of an original row is
    found again in the re-parsed row at the same position, in a column other
    than the two added ones. *)
Definition fields_reproduced
    (original reparsed : list (gmap jsstring jsstring)) : Prop :=
  Forall2 (λ row row',
             ∀ k v, row !! k = Some v →
                    ∃ header, header ≠ lit "Risk Score"
                              ∧ header ≠ lit "Status"
                              ∧ row' !! header = Some v)
          original reparsed.

(** * The rest of the page scripts *)

(** ** Progress display of [performAnalysis] *)

Definition stages : list jsstring :=
  [lit "Initializing fraud detection model...";
   lit "Loading transaction data...";
   lit "Analyzing transaction patterns...";
   lit "Calculating risk scores...";
   lit "Finalizing results..."].

(** What one round of the loop writes to the progress display: the
    percentage [progress] (the width of the bar), the text of the bar, the
    count of processed rows and, when [stages[stageIndex]] exists, the stage
    label ([None]: the label is left as it was). *)
Record progress_update := {
  progress_percent : Q;
  progressBar_textContent : jsstring;
  processedCount_textContent : jsstring;
  progressText_textContent : option jsstring;
}.

(** Round [i] of a loop over [totalCount] rows; inside the loop
    [totalCount] is at least 1, so the quotients are finite. *)
Definition progress_update_at `{Host} (i totalCount : nat) : progress_update :=
  let progress :=
    (fl (inject_Z (Z.of_nat i + 1) / inject_Z (Z.of_nat totalCount))
     ⊗ 100)%Q in
  let stageIndex :=
    Math_floor (fl (inject_Z (Z.of_nat i) / inject_Z (Z.of_nat totalCount))%Q
                ⊗ inject_Z (Z.of_nat (length stages))) in
  {| progress_percent := progress;
     progressBar_textContent := Z_toString (Math_round progress) ++ lit "%";
     processedCount_textContent := Z_toString (Z.of_nat i + 1);
     progressText_textContent :=
       match at_index stages stageIndex with
       | Some (c :: s) => Some (c :: s)
       | Some [] | None => None
       end |}.

(** The updates of one run, in the order they are made. *)
Definition performAnalysis_progress `{Host}
    (transactions : list (gmap jsstring jsstring)) : list progress_update :=
  (λ i, progress_update_at i (length transactions))
    <$> seq 0 (length transactions).

(** ** Handing the results to the results page *)

(** The later declaration of [saveResults]: [stringify] is
    [JSON.stringify], [now] is [new Date().toISOString()]. *)
Definition saveResults (stringify : list (gmap jsstring value) → jsstring)
    (now : jsstring) (analysisResults : list (gmap jsstring value))
    (storage : gmap jsstring jsstring) : gmap jsstring jsstring :=
  <[lit "fraudGuard_timestamp" := now]>
    (<[lit "fraudGuard_results" := stringify analysisResults]> storage).

(** The results page as the browser opens it over a storage. *)
Definition fresh_results_page (storage : gmap jsstring jsstring) : page :=
  {| localStorage := storage;
     location_href := None;
     window_analysisResults := None;
     window_analysisTimestamp := None;
     summary_cards := None;
     table := [] |}.

(** ** The upload page *)

(** [s.endsWith(p)] *)
Definition endsWith (s p : jsstring) : bool :=
  startsWith (reverse s) (reverse p).

(** A [File]: its name and the text [FileReader.readAsText] delivers. *)
Record file := {
  file_name : jsstring;
  file_text : jsstring;
}.

(** The globals and elements of the upload page the handlers touch, and
    the messages shown with [alert]; the size label and the value of the
    file input are left out. *)
Record upload_page := {
  uploadedFile : option file;
  csvData : list (gmap jsstring jsstring);
  fileInfo_d_none : bool;
  fileName_textContent : jsstring;
  fileRows_textContent : jsstring;
  analyzeBtn_disabled : bool;
  alerts : list jsstring;
}.

Definition handleFileSelection (f : option file) (u : upload_page)
  : upload_page :=
  match f with
  | None => u
  | Some file =>
      if negb (endsWith (file_name file) (lit ".csv")) then
        {| uploadedFile := uploadedFile u;
           csvData := csvData u;
           fileInfo_d_none := fileInfo_d_none u;
           fileName_textContent := fileName_textContent u;
           fileRows_textContent := fileRows_textContent u;
           analyzeBtn_disabled := analyzeBtn_disabled u;
           alerts := alerts u ++ [lit "Please upload a CSV file"] |}
      else
        let lines := split newline (trim (file_text file)) in
        {| uploadedFile := Some file;
           csvData := csvData u;
           fileInfo_d_none := false;
           fileName_textContent := file_name file;
           fileRows_textContent :=
             Z_toString (Z.of_nat (length lines) - 1) ++ lit " rows";
           analyzeBtn_disabled := false;
           alerts := alerts u |}
  end.

Definition clearFile (u : upload_page) : upload_page :=
  {| uploadedFile := None;
     csvData := [];
     fileInfo_d_none := true;
     fileName_textContent := fileName_textContent u;
     fileRows_textContent := fileRows_textContent u;
     analyzeBtn_disabled := true;
     alerts := alerts u |}.

(** [analyzeTransactions]: the page afterwards and, when the analysis runs,
    the Result Set it computes. *)
Definition analyzeTransactions `{Host} (g : rng) (u : upload_page)
  : upload_page * option (list (gmap jsstring value)) :=
  match uploadedFile u with
  | None =>
      ({| uploadedFile := uploadedFile u;
          csvData := csvData u;
          fileInfo_d_none := fileInfo_d_none u;
          fileName_textContent := fileName_textContent u;
          fileRows_textContent := fileRows_textContent u;
          analyzeBtn_disabled := analyzeBtn_disabled u;
          alerts := alerts u ++ [lit "Please upload a CSV file first"] |},
       None)
  | Some file =>
      let data := parseCSV (file_text file) in
      ({| uploadedFile := uploadedFile u;
          csvData := data;
          fileInfo_d_none := fileInfo_d_none u;
          fileName_textContent := fileName_textContent u;
          fileRows_textContent := fileRows_textContent u;
          analyzeBtn_disabled := analyzeBtn_disabled u;
          alerts := alerts u |},
       Some (performAnalysis data g))
  end.

(** What the user can do on the upload page. *)
Inductive upload_event :=
  | FileChosen (f : option file)
  | ClearClicked
  | AnalyzeClicked (g : rng).

Definition upload_step `{Host} (u : upload_page) (ev : upload_event)
  : upload_page :=
  match ev with
  | FileChosen f => handleFileSelection f u
  | ClearClicked => clearFile u
  | AnalyzeClicked g => (analyzeTransactions g u).1
  end.

(** ** The status alert and the markup of a table row *)

Record status_alert := {
  statusAlert_className : jsstring;
  statusIcon_className : jsstring;
  statusTitle_textContent : jsstring;
  statusMessage_textContent : jsstring;
}.

Definition displayStatusAlert (fraudCount totalCount : Z) : status_alert :=
  if fraudCount =? 0 then
    {| statusAlert_className := lit "alert alert-success";
       statusIcon_className := lit "bi bi-check-circle-fill fs-2 me-3";
       statusTitle_textContent := lit "No Fraud Detected";
       statusMessage_textContent :=
         lit "All " ++ Z_toString totalCount
           ++ lit " transactions appear to be legitimate. No suspicious activity detected." |}
  else
    {| statusAlert_className := lit "alert alert-danger";
       statusIcon_className := lit "bi bi-exclamation-triangle-fill fs-2 me-3";
       statusTitle_textContent := lit "Fraud Detected";
       statusMessage_textContent :=
         Z_toString fraudCount
           ++ lit " potentially fraudulent transaction(s) detected out of "
           ++ Z_toString totalCount
           ++ lit " total transactions. Please review flagged transactions immediately." |}.

(** The call [displayStatusAlert(fraudCount, totalTransactions)] of
    [displayResults]. *)
Definition displayResults_alert (results : list (gmap jsstring value))
  : status_alert :=
  displayStatusAlert
    (Z.of_nat (length (List.filter (status_is (lit "fraud")) results)))
    (Z.of_nat (length results)).

(** [Number(s)] for a string, which the comparisons of a property with a
    threshold apply when the property holds no number. *)
Class Conversions := {
  ToNumber : jsstring → number;
}.

(** The number a property read is compared as. *)
Definition to_number `{Conversions} (x : option value) : number :=
  match x with
  | None => NaN
  | Some (VNumber n) => Finite (inject_Z n)
  | Some v => ToNumber (toString v)
  end.

(** [x === s] for a property read [x]. *)
Definition is_string (s : jsstring) (x : option value) : bool :=
  bool_decide (x = Some (VString s)).

(** The classes and the badge text [populateResultsTable] and
    [viewTransactionDetails] choose. *)
Definition statusClass (status : option value) : jsstring :=
  if is_string (lit "fraud") status then lit "status-fraud"
  else if is_string (lit "warning") status then lit "status-warning"
  else lit "status-legitimate".

Definition riskClass `{Conversions} (riskScore : option value) : jsstring :=
  if ge (to_number riskScore) (Finite 70) then lit "risk-high"
  else if ge (to_number riskScore) (Finite 50) then lit "risk-medium"
  else lit "risk-low".

Definition badge_text (status : option value) : jsstring :=
  if is_string (lit "fraud") status then lit "Fraud"
  else if is_string (lit "warning") status then lit "Warning"
  else lit "Legitimate".

(** ** The details of one transaction *)

(** [x || d], as text. *)
Definition or_default (d : jsstring) (x : option value) : jsstring :=
  match x with
  | Some v => if truthy v then toString v else d
  | None => d
  end.

(** The fields of the modal that [viewTransactionDetails] fills without
    the [Intl] formats (amount and timestamp are left out); an indicator is
    listed by its text. *)
Record modal := {
  modalTransactionId : jsstring;
  modalMerchant : jsstring;
  modalCard : jsstring;
  modalLocation : jsstring;
  modalRiskScore : jsstring;
  modalRiskBar_className : jsstring;
  modalStatus_className : jsstring;
  modalStatus_textContent : jsstring;
  modalIndicators : list jsstring;
}.

Inductive details :=
  | NoDetails
  | Details (m : modal)
  | DetailsTypeError.

(** The items of the indicator list: [None] when [indicators.forEach] is no
    function. *)
Definition indicator_items (indicators : option value)
  : option (list jsstring) :=
  match indicators with
  | Some (VArray (i :: items)) =>
      Some ((λ o, match o with
                  | Some s => s
                  | None => lit "undefined"
                  end) <$> i :: items)
  | Some (VString (_ :: _)) => None
  | _ => Some [lit "No fraud indicators detected"]
  end.

(** [results] is what [window.analysisResults] holds, an array of objects. *)
Definition viewTransactionDetails `{Conversions} (index : Z)
    (results : list (gmap jsstring value)) : details :=
  match at_index results index with
  | None => NoDetails
  | Some transaction =>
      let riskScore := transaction !! lit "riskScore" in
      let status := transaction !! lit "status" in
      match indicator_items (transaction !! lit "indicators") with
      | None => DetailsTypeError
      | Some items =>
          Details
            {| modalTransactionId :=
                 or_default (lit "N/A") (transaction !! lit "transaction_id");
               modalMerchant :=
                 or_default (lit "N/A") (transaction !! lit "merchant");
               modalCard :=
                 or_default (lit "N/A") (transaction !! lit "card_number");
               modalLocation :=
                 or_default (lit "N/A") (transaction !! lit "location");
               modalRiskScore := attribute_text riskScore ++ lit "%";
               modalRiskBar_className :=
                 if ge (to_number riskScore) (Finite 70)
                 then lit "progress-bar bg-danger"
                 else if ge (to_number riskScore) (Finite 50)
                 then lit "progress-bar bg-warning"
                 else lit "progress-bar bg-success";
               modalStatus_className :=
                 if is_string (lit "fraud") status then lit "badge badge-danger"
                 else if is_string (lit "warning") status
                 then lit "badge badge-warning"
                 else lit "badge badge-success";
               modalStatus_textContent :=
                 if is_string (lit "fraud") status then lit "Fraud Detected"
                 else if is_string (lit "warning") status then lit "Warning"
                 else lit "Legitimate";
               modalIndicators := items |}
      end
  end.

(** ** Export *)

Inductive export_outcome :=
  | ExportAlert (message : jsstring)
  | ExportDownload (text : jsstring)
  | ExportPrint (message : jsstring)
  | ExportNothing
  | ExportTypeError.

(** [exportResults(format)] over what [window.analysisResults] holds. *)
Definition exportResults (format : jsstring) (results : option json)
  : export_outcome :=
  match results with
  | None => ExportAlert (lit "No results to export")
  | Some r =>
      if json_falsy r || json_length_is_0 r
      then ExportAlert (lit "No results to export")
      else if bool_decide (format = lit "csv") then
        match r with
        | JArray items => ExportDownload (exportToCSV items)
        | _ => ExportTypeError
        end
      else if bool_decide (format = lit "pdf") then
        ExportPrint (lit "PDF export functionality would be implemented with a PDF library in production.
For now, please use the browser's print function (Ctrl+P) to save as PDF.")
      else ExportNothing
  end.

(** ** Dark mode *)

(** Whether [body] carries the class [dark-mode], the storage, and the
    toggle button when it exists: the class of its icon and its title. *)
Record theme := {
  body_dark_mode : bool;
  theme_storage : gmap jsstring jsstring;
  darkModeToggle : option (jsstring * jsstring);
}.

Definition updateDarkModeButton (isDark : bool)
    (button : option (jsstring * jsstring)) : option (jsstring * jsstring) :=
  match button with
  | Some _ =>
      Some (if isDark then lit "bi bi-sun-fill"
            else lit "bi bi-moon-stars-fill",
            if isDark then lit "Switch to Light Mode"
            else lit "Switch to Dark Mode")
  | None => None
  end.

(** [toggleDarkMode]; the notification it shows is not part of the state. *)
Definition toggleDarkMode (t : theme) : theme :=
  let isDark := negb (body_dark_mode t) in
  {| body_dark_mode := isDark;
     theme_storage :=
       <[lit "darkMode" := if isDark then lit "enabled" else lit "disabled"]>
         (theme_storage t);
     darkModeToggle := updateDarkModeButton isDark (darkModeToggle t) |}.

Definition initDarkMode (t : theme) : theme :=
  if bool_decide (theme_storage t !! lit "darkMode" = Some (lit "enabled"))
  then {| body_dark_mode := true;
          theme_storage := theme_storage t;
          darkModeToggle := updateDarkModeButton true (darkModeToggle t) |}
  else t.

Definition createDarkModeButton (t : theme) : theme :=
  match darkModeToggle t with
  | Some _ => t
  | None =>
      {| body_dark_mode := body_dark_mode t;
         theme_storage := theme_storage t;
         darkModeToggle :=
           Some (if body_dark_mode t then lit "bi bi-sun-fill"
                 else lit "bi bi-moon-stars-fill",
                 lit "Toggle Dark Mode") |}
  end.

(** A page load over a storage, the script running with [document.body]
    present: the document starts without the class and without the button;
    the early check adds the class when the stored mode is [enabled], which
    [initDarkMode] does again to the same effect; then the
    [DOMContentLoaded] handler runs [initDarkMode] and
    [createDarkModeButton]. *)
Definition load_theme (storage : gmap jsstring jsstring) : theme :=
  createDarkModeButton
    (initDarkMode {| body_dark_mode := false;
                     theme_storage := storage;
                     darkModeToggle := None |}).

Inductive theme_event :=
  | ToggleClicked
  | PageReloaded.

Definition theme_step (t : theme) (ev : theme_event) : theme :=
  match ev with
  | ToggleClicked => toggleDarkMode t
  | PageReloaded => load_theme (theme_storage t)
  end.

(** ** Sample data *)

Definition merchants : list jsstring :=
  [lit "Amazon"; lit "Walmart"; lit "Target"; lit "Best Buy";
   lit "Starbucks"; lit "Shell Gas"; lit "McDonalds"; lit "Apple Store"].

Definition locations : list jsstring :=
  [lit "New York"; lit "Los Angeles"; lit "Chicago"; lit "Houston";
   lit "Miami"; lit "Seattle"; lit "Boston"; lit "Denver"].

(** [s.padStart(targetLength, pad)] for a one-character [pad]. *)
Definition padStart (s : jsstring) (targetLength : nat) (pad : char)
  : jsstring :=
  replicate (targetLength - length s) pad ++ s.

(** The two texts the generator takes from the browser:
    [x.toFixed(2)], and [toISOString()] of the time of round [i] moved back
    by the given days, hours and minutes (for draws in [[0, 1)] a valid
    date).  Either prints digits and punctuation only: no comma, no line
    break, no blank. *)
Class SampleTexts := {
  toFixed2 : Q → jsstring;
  toISOString_before : nat → Z → Z → Z → jsstring;
  toFixed2_clean : ∀ x, clean (toFixed2 x);
  toISOString_clean :
    ∀ i days hours minutes, clean (toISOString_before i days hours minutes);
}.

(** [`${x}`] for an array element that may be missing. *)
Definition template_text (x : option jsstring) : jsstring :=
  default (lit "undefined") x.

(** The line of round [i] of the loop of [generateSampleData]; [g] holds
    the draws from this round on, seven of which the round takes. *)
Definition sample_line `{Host} `{SampleTexts} (i : nat) (g : rng) : jsstring :=
  let transactionId :=
    lit "TXN" ++ padStart (Z_toString (Z.of_nat i)) 4 48%N in
  let amount := toFixed2 ((g 0%nat ⊗ 2000) ⊕ 10)%Q in
  let merchant :=
    at_index merchants
      (Math_floor (g 1%nat ⊗ inject_Z (Z.of_nat (length merchants)))) in
  let location :=
    at_index locations
      (Math_floor (g 2%nat ⊗ inject_Z (Z.of_nat (length locations)))) in
  let randomDays := Math_floor (g 3%nat ⊗ 30) in
  let randomHours := Math_floor (g 4%nat ⊗ 24) in
  let randomMinutes := Math_floor (g 5%nat ⊗ 60) in
  let timestamp := toISOString_before i randomDays randomHours randomMinutes in
  let cardNumber :=
    lit "****" ++ Z_toString (Math_floor ((g 6%nat ⊗ 9000) ⊕ 1000)) in
  join comma [transactionId; amount; template_text merchant;
              template_text location; timestamp; cardNumber].

Definition generateSampleData `{Host} `{SampleTexts} (g : rng) : jsstring :=
  join newline
    (lit "transaction_id,amount,merchant,location,timestamp,card_number"
     :: ((λ k, sample_line (S k) (λ n, g (7 * k + n)%nat)) <$> seq 0 20)).

(** [useSampleData]: the generated text as a file of a fixed name. *)
Definition useSampleData `{Host} `{SampleTexts} (g : rng) (u : upload_page)
  : upload_page :=
  handleFileSelection
    (Some {| file_name := lit "sample_transactions.csv";
             file_text := generateSampleData g |}) u.

(** Texts for the sample host: they agree with a browser when every draw
    is 0 and the clock reads the given instant. *)
Definition sample_texts : SampleTexts.
Proof.
  refine {| toFixed2 := λ _, lit "10.00";
            toISOString_before := λ _ _ _ _, lit "2024-01-01T03:00:00.000Z" |};
    intros; apply (bool_decide_unpack _); vm_compute; exact I.
Defined.

(** ** Vocabulary of the further statements *)

(** Every draw lies in [[0, 1)], also after the product with a small
    integer is rounded. *)
Definition unit_draws `{Host} (g : rng) : Prop :=
  ∀ n, (0 <= g n)%Q
       ∧ ∀ k : Z, 1 ≤ k ≤ 8 → (g n ⊗ inject_Z k < inject_Z k)%Q.

(** The fields of a line, and whether it is blank. *)
Definition fields (line : jsstring) : list jsstring :=
  trim <$> split comma line.

(** The rows of a list of lines: the first line that is not blank is the
    header, every later line that is not blank is a row. *)
Fixpoint rows_of_lines (lines : list jsstring)
  : list (gmap jsstring jsstring) :=
  match lines with
  | [] => []
  | line :: rest =>
      if bool_decide (trim line = []) then rows_of_lines rest
      else row_of (fields line) <$> filter (λ l, trim l ≠ []) rest
  end.

(** The text with every newline preceded by a carriage return. *)
Fixpoint crlf (s : jsstring) : jsstring :=
  match s with
  | [] => []
  | c :: s' =>
      if (c =? newline)%N then 13%N :: newline :: crlf s' else c :: crlf s'
  end.

(** The upload page is consistent: the button is enabled exactly when a
    file is held, and a file that is held has a name ending in [.csv]. *)
Definition upload_ok (u : upload_page) : Prop :=
  (uploadedFile u = None ↔ analyzeBtn_disabled u = true)
  ∧ ∀ f, uploadedFile u = Some f → endsWith (file_name f) (lit ".csv") = true.

(** The points a transaction carries apart from the random component:
    the amount tier, the location flag and the time flag. *)
Definition base_score `{Host} (transaction : gmap jsstring jsstring) : Z :=
  let amount := amount_of transaction in
  let hour := hour_of transaction in
  (if gt amount (Finite 5000) then 30
   else if gt amount (Finite 2000) then 20
   else if gt amount (Finite 1000) then 10
   else if lt amount (Finite 10) then 15
   else 0)
  + (if existsb (location_includes transaction) highRiskLocations
     then 25 else 0)
  + (if ge hour (Finite 1) && le hour (Finite 5) then 15 else 0).

(** How often the toggle was clicked. *)
Definition toggles (events : list theme_event) : nat :=
  length (List.filter (λ ev, match ev with
                             | ToggleClicked => true
                             | PageReloaded => false
                             end) events).

(** The icon of the toggle button in each mode. *)
Definition toggle_icon (isDark : bool) : jsstring :=
  if isDark then lit "bi bi-sun-fill" else lit "bi bi-moon-stars-fill".

(** The sample host reading one more JSON text: the array of one empty
    object. *)
Definition sample_JSON_parse_objects (s : jsstring) : option json :=
  if bool_decide (trim s = lit "[{}]") then Some (JArray [∅])
  else sample_JSON_parse s.

Definition sample_host_objects : Host :=
  {| fl := λ x, x;
     fl_monotone := λ x y Hxy, Hxy;
     fl_integer := λ n _, Qeq_refl (inject_Z n);
     fl_idempotent := λ x, Qeq_refl x;
     parseFloat := sample_parseFloat;
     getHours := sample_getHours;
     toLowerCase := sample_toLowerCase;
     JSON_parse := sample_JSON_parse_objects;
     row_textContent := sample_row_textContent |}.

(** * Properties *)

(** Two literals of the source differ. *)
Ltac lit_neq :=
  let E := fresh in intros E; vm_compute in E; discriminate E.

(** A decidable fact about closed terms. *)
Ltac closed_fact := apply (bool_decide_unpack _); vm_compute; exact I.

Example parseCSV_two_rows :
  (fun rows => (length rows, (λ r, r !! lit "b") <$> rows))
    (parseCSV (lit "a, b ,c
1,2,3

4,5")) = (2%nat, [Some (lit "2"); Some (lit "5")]).
Proof. vm_compute. reflexivity. Qed.

(** ** Strings: [split], [join], [trim], [includes] *)

Section strings.
Implicit Types (s p w : list N) (c sep : N) (ps : list (list N)).

Lemma split_nonempty sep s : split sep s ≠ [].
Proof.
  destruct s as [|c s]; simpl; [done|].
  destruct (c =? sep)%N; [done|]. by destruct (split sep s).
Qed.

Lemma split_app_sep sep p s :
  sep ∉ p → split sep (p ++ sep :: s) = p :: split sep s.
Proof.
  induction p as [|c p IH]; intros Hp; simpl.
  - by rewrite N.eqb_refl.
  - apply not_elem_of_cons in Hp as [Hc Hp].
    destruct (N.eqb_spec c sep) as [->|_]; [done|]. by rewrite IH.
Qed.

Lemma split_no_sep sep p : sep ∉ p → split sep p = [p].
Proof.
  induction p as [|c p IH]; intros Hp; simpl; [done|].
  apply not_elem_of_cons in Hp as [Hc Hp].
  destruct (N.eqb_spec c sep) as [->|_]; [done|]. by rewrite IH.
Qed.

(** Splitting what was joined gives the parts back, when no part holds the
    separator. *)
Lemma split_join sep ps :
  ps ≠ [] → Forall (λ p, sep ∉ p) ps → split sep (join sep ps) = ps.
Proof.
  induction ps as [|p [|q ps] IH]; intros Hne Hps; [done|..].
  - simpl. apply split_no_sep. by inversion Hps.
  - inversion Hps as [|? ? Hp Hrest]; subst.
    change (join sep (p :: q :: ps)) with (p ++ sep :: join sep (q :: ps)).
    rewrite split_app_sep by done. by rewrite IH.
Qed.

(** Joining the parts of a split gives the string back. *)
Lemma join_split sep s : join sep (split sep s) = s.
Proof.
  induction s as [|c s IH]; simpl; [done|].
  pose proof (split_nonempty sep s) as Hne.
  destruct (N.eqb_spec c sep) as [->|_].
  - destruct (split sep s) as [|w ws]; [done|]. simpl in *. by rewrite IH.
  - destruct (split sep s) as [|w [|w' ws]]; [done|..]; simpl in *;
      by rewrite <- IH.
Qed.

Lemma elem_of_split_no_sep sep s p : p ∈ split sep s → sep ∉ p.
Proof.
  revert p. induction s as [|c s IH]; intros p; simpl.
  - intros ->%list_elem_of_singleton. apply not_elem_of_nil.
  - destruct (N.eqb_spec c sep) as [->|Hc].
    + intros [->|Hp]%elem_of_cons; [apply not_elem_of_nil | by apply IH].
    + destruct (split sep s) as [|w ws] eqn:Hs.
      * intros ->%list_elem_of_singleton.
        apply not_elem_of_cons; split; [done | apply not_elem_of_nil].
      * intros [->|Hp]%elem_of_cons.
        -- apply not_elem_of_cons; split; [done|]. apply IH, elem_of_cons; auto.
        -- apply IH, elem_of_cons; auto.
Qed.

Lemma elem_of_split_sub sep s p c : p ∈ split sep s → c ∈ p → c ∈ s.
Proof.
  revert p. induction s as [|a s IH]; intros p; simpl.
  - by intros ->%list_elem_of_singleton.
  - destruct (a =? sep)%N.
    + intros [->|Hp]%elem_of_cons Hc; [by apply elem_of_nil in Hc|].
      apply elem_of_cons; right. by apply (IH p).
    + destruct (split sep s) as [|w ws] eqn:Hs.
      * intros ->%list_elem_of_singleton Hc.
        apply list_elem_of_singleton in Hc as ->. apply elem_of_cons; auto.
      * intros [->|Hp]%elem_of_cons Hc.
        -- apply elem_of_cons in Hc as [->|Hc]; apply elem_of_cons; [auto|].
           right. apply (IH w); [apply elem_of_cons; auto | done].
        -- apply elem_of_cons; right.
           apply (IH p); [apply elem_of_cons; auto | done].
Qed.
End strings.

Section trimming.
Implicit Types (s t u : list N) (c : N).

Lemma trimStart_app c s t :
  is_whitespace c = false → trimStart (s ++ c :: t) = trimStart s ++ c :: t.
Proof.
  intros Hc. induction s as [|a s IH]; simpl; [by rewrite Hc|].
  by destruct (is_whitespace a).
Qed.

Lemma trimStart_head s :
  match trimStart s with c :: _ => is_whitespace c = false | [] => True end.
Proof.
  induction s as [|a s IH]; simpl; [done|].
  destruct (is_whitespace a) eqn:Ha; [done | by simpl].
Qed.

(** [trimStart] removes a run of whitespace from the front. *)
Lemma trimStart_spec s :
  ∃ a, s = a ++ trimStart s ∧ Forall (λ c, is_whitespace c = true) a.
Proof.
  induction s as [|c s (a & Hs & Ha)]; simpl; [by exists []|].
  destruct (is_whitespace c) eqn:Hc; [|by exists []].
  exists (c :: a). split; [by rewrite Hs at 1 | by constructor].
Qed.

Lemma trimStart_idemp s : trimStart (trimStart s) = trimStart s.
Proof.
  pose proof (trimStart_head s) as H.
  destruct (trimStart s) as [|c u]; [done|]. simpl. by rewrite H.
Qed.

Lemma trimEnd_idemp s : trimEnd (trimEnd s) = trimEnd s.
Proof. unfold trimEnd. by rewrite reverse_involutive, trimStart_idemp. Qed.

Lemma trimEnd_app c s t :
  is_whitespace c = false → trimEnd (s ++ c :: t) = s ++ c :: trimEnd t.
Proof.
  intros Hc. unfold trimEnd.
  rewrite reverse_app, reverse_cons, <- (assoc_L (++)). simpl.
  rewrite trimStart_app by done.
  by rewrite reverse_app, reverse_cons, reverse_involutive, <- (assoc_L (++)).
Qed.

(** A trimmed string is empty or begins with a character that is no
    whitespace. *)
Lemma trimStart_trim s : trimStart (trim s) = trim s.
Proof.
  unfold trim. pose proof (trimStart_head s) as H.
  destruct (trimStart s) as [|c u]; [done|].
  pose proof (trimEnd_app c [] u H) as E. simpl in E.
  rewrite E. simpl. by rewrite H.
Qed.

(** [trim] removes a run of whitespace from each end, and the result neither
    begins nor ends with whitespace ([trimStart_trim], [trim_fixed_inv]). *)
Lemma trim_spec s :
  ∃ a b, s = a ++ trim s ++ b
         ∧ Forall (λ c, is_whitespace c = true) a
         ∧ Forall (λ c, is_whitespace c = true) b.
Proof.
  destruct (trimStart_spec s) as (a & Hs & Ha).
  destruct (trimStart_spec (reverse (trimStart s))) as (b & Hr & Hb).
  exists a, (reverse b). split_and!; [|done|by apply Forall_reverse].
  rewrite Hs at 1. f_equal. unfold trim, trimEnd.
  rewrite <- reverse_app, <- Hr. by rewrite reverse_involutive.
Qed.

Lemma trim_idemp s : trim (trim s) = trim s.
Proof.
  unfold trim at 1. rewrite trimStart_trim. unfold trim.
  apply trimEnd_idemp.
Qed.

Lemma trim_fixed s :
  trimStart s = s → trimStart (reverse s) = reverse s → trim s = s.
Proof.
  intros H1 H2. unfold trim, trimEnd. by rewrite H1, H2, reverse_involutive.
Qed.

Lemma trim_fixed_inv (u : list N) :
  trim u = u → trimStart u = u ∧ trimStart (reverse u) = reverse u.
Proof.
  intros Hu. assert (trimStart u = u) as H1.
  { rewrite <- Hu at 1. by rewrite trimStart_trim. }
  split; [done|]. rewrite <- Hu at 2. unfold trim, trimEnd.
  by rewrite H1, reverse_involutive.
Qed.

Lemma trimStart_no_whitespace s :
  Forall (λ c, is_whitespace c = false) s → trimStart s = s.
Proof. intros [|c u Hc _]; simpl; [done | by rewrite Hc]. Qed.

Lemma trim_no_whitespace s :
  Forall (λ c, is_whitespace c = false) s → trim s = s.
Proof.
  intros Hs. apply trim_fixed; apply trimStart_no_whitespace; [done|].
  by apply Forall_reverse.
Qed.

(** A line that holds a character other than whitespace is not blank. *)
Lemma trim_not_blank c s : c ∈ s → is_whitespace c = false → trim s ≠ [].
Proof.
  intros (a & b & ->)%list_elem_of_split Hc. unfold trim.
  rewrite trimStart_app, trimEnd_app by done.
  by destruct (trimStart a).
Qed.

Lemma elem_of_trimStart c s : c ∈ trimStart s → c ∈ s.
Proof.
  induction s as [|a s IH]; simpl; [done|].
  destruct (is_whitespace a); [|done].
  intros H. apply elem_of_cons; right; auto.
Qed.

Lemma elem_of_trim c s : c ∈ trim s → c ∈ s.
Proof.
  unfold trim, trimEnd. intros H%elem_of_reverse%elem_of_trimStart.
  by apply elem_of_trimStart, elem_of_reverse.
Qed.

Lemma join_snoc sep (ps : list (list N)) p :
  ps ≠ [] → join sep (ps ++ [p]) = join sep ps ++ sep :: p.
Proof.
  induction ps as [|q [|r ps] IH]; intros Hne; [done | done |].
  change (join sep ((q :: r :: ps) ++ [p]))
    with (q ++ sep :: join sep ((r :: ps) ++ [p])).
  rewrite IH by done.
  change (join sep (q :: r :: ps)) with (q ++ sep :: join sep (r :: ps)).
  by rewrite <- (assoc_L (++)).
Qed.

Lemma reverse_join sep (ps : list (list N)) :
  reverse (join sep ps) = join sep (reverse (reverse <$> ps)).
Proof.
  induction ps as [|p [|q ps] IH]; [done | done |].
  change (join sep (p :: q :: ps)) with (p ++ sep :: join sep (q :: ps)).
  rewrite reverse_app, reverse_cons, IH.
  rewrite (fmap_cons reverse p), (reverse_cons _ (reverse p)).
  rewrite join_snoc, <- (assoc_L (++)); [done|].
  rewrite fmap_cons, reverse_cons. by destruct (reverse (reverse <$> ps)).
Qed.

Lemma trimStart_join sep p (ps : list (list N)) :
  p ≠ [] → trimStart p = p → trimStart (join sep (p :: ps)) = join sep (p :: ps).
Proof.
  intros Hne Hp. destruct p as [|c u]; [done|].
  simpl in Hp. destruct (is_whitespace c) eqn:Hc.
  - exfalso. pose proof (trimStart_head u) as H. rewrite Hp in H.
    simpl in H. congruence.
  - destruct ps; simpl; by rewrite Hc.
Qed.
End trimming.

Section searching.
Implicit Types (s p : list N).

Lemma startsWith_spec s p : startsWith s p = true ↔ ∃ b, s = p ++ b.
Proof.
  revert s. induction p as [|a p IH]; intros s; simpl.
  - split; [by exists s | done].
  - destruct s as [|b s]; simpl; [split; [done | by intros [? ?]]|].
    rewrite andb_true_iff, IH, N.eqb_eq. split.
    + intros [-> [t ->]]. eauto.
    + intros [t [= -> ->]]. eauto.
Qed.

(** [includes] is the substring test. *)
Lemma includes_spec s p : includes s p = true ↔ ∃ a b, s = a ++ p ++ b.
Proof.
  induction s as [|c s IH]; simpl.
  - rewrite orb_false_r, startsWith_spec. split.
    + intros [b Hb]. by exists [], b.
    + intros ([|x a] & b & H); [by exists b | done].
  - rewrite orb_true_iff, startsWith_spec, IH. split.
    + intros [[b Hb] | (a & b & ->)]; [by exists [], b | by exists (c :: a), b].
    + intros ([|x a] & b & H); simpl in H; [left; eauto|].
      right. injection H as -> ->. eauto.
Qed.
End searching.

Section printing.
Lemma digits_chars fuel n acc :
  Forall (λ c, (48 ≤ c ≤ 57)%N) acc →
  Forall (λ c, (48 ≤ c ≤ 57)%N) (digits fuel n acc).
Proof.
  revert n acc. induction fuel as [|fuel IH]; intros n acc Hacc; simpl.
  - constructor; [|done]. unfold digit.
    pose proof (Z.mod_pos_bound n 10). lia.
  - assert (Forall (λ c, (48 ≤ c ≤ 57)%N) (digit (n mod 10) :: acc)).
    { constructor; [|done]. unfold digit.
      pose proof (Z.mod_pos_bound n 10). lia. }
    destruct (n <? 10); [done | by apply IH].
Qed.

Lemma digits_value fuel n acc :
  0 ≤ n < 10 ^ Z.of_nat (S fuel) →
  decimal_value ((λ c : N, Z.of_N c - 48) <$> digits fuel n acc)
  = foldl (λ a d, 10 * a + d) n ((λ c : N, Z.of_N c - 48) <$> acc).
Proof.
  revert n acc. induction fuel as [|fuel IH]; intros n acc Hn.
  - simpl. unfold decimal_value. simpl. unfold digit.
    rewrite Z.mod_small by (simpl in Hn; lia). f_equal. lia.
  - cbn [digits]. destruct (Z.ltb_spec n 10) as [Hlt|Hge].
    + unfold decimal_value. simpl. unfold digit.
      rewrite Z.mod_small by lia. f_equal. lia.
    + rewrite IH.
      * simpl. f_equal. unfold digit.
        pose proof (Z.mod_pos_bound n 10). pose proof (Z.div_mod n 10). lia.
      * split; [apply Z.div_pos; lia|].
        apply Z.div_lt_upper_bound; [lia|].
        rewrite <- Z.pow_succ_r by lia. rewrite <- Nat2Z.inj_succ. lia.
Qed.

(** The printer is right: read back as a decimal numeral, the digits of a
    natural number give the number. *)
Lemma Z_toString_value n :
  0 ≤ n → decimal_value ((λ c : N, Z.of_N c - 48) <$> Z_toString n) = n.
Proof.
  intros Hn. unfold Z_toString.
  destruct (Z.ltb_spec n 0) as [?|_]; [lia|]. simpl.
  rewrite Z.abs_eq by done. rewrite digits_value; [done|].
  split; [done|]. rewrite Nat2Z.inj_succ, Z2Nat.id by apply Z.log2_nonneg.
  destruct (Z.eq_dec n 0) as [->|Hn0]; [by vm_compute|].
  apply Z.lt_le_trans with (2 ^ Z.succ (Z.log2 n)).
  - apply Z.log2_spec. lia.
  - apply Z.pow_le_mono_l. lia.
Qed.

(** A printed integer consists of decimal digits after an optional sign. *)
Lemma Z_toString_chars n :
  Forall (λ c, c = 45%N ∨ (48 ≤ c ≤ 57)%N) (Z_toString n).
Proof.
  unfold Z_toString. apply Forall_app; split.
  - destruct (n <? 0); [|done]. repeat constructor.
  - eapply Forall_impl; [apply digits_chars; constructor|]. simpl. auto.
Qed.

Lemma sign_or_digit_plain c :
  c = 45%N ∨ (48 ≤ c ≤ 57)%N →
  c ≠ comma ∧ c ≠ newline ∧ is_whitespace c = false.
Proof.
  intros [->|Hc]; [by vm_compute|].
  assert (c = 48 ∨ c = 49 ∨ c = 50 ∨ c = 51 ∨ c = 52 ∨ c = 53 ∨ c = 54
          ∨ c = 55 ∨ c = 56 ∨ c = 57)%N as H by lia.
  repeat (destruct H as [->|H]; [by vm_compute|]). subst c. by vm_compute.
Qed.
End printing.

(** ** The parser *)

Section parser.
Implicit Types (headers values lines : list (list N)) (h k line : list N).
Implicit Types (row : gmap (list N) (list N)).

Lemma lookup_assign {V} (o : gmap (list N) V) k (v : V) k' :
  assign o k v !! k' =
    if decide (k = k' ∧ k ≠ lit "__proto__") then Some v else o !! k'.
Proof.
  unfold assign. case_bool_decide as Hk; case_decide as Hd.
  - naive_solver.
  - done.
  - destruct Hd as [-> _]. apply lookup_insert_eq.
  - apply lookup_insert_ne. naive_solver.
Qed.

Lemma forEach_header_lookup_ne headers index values row k :
  k ∉ headers → forEach_header headers index values row !! k = row !! k.
Proof.
  revert index row. induction headers as [|h headers IH]; intros index row Hk.
  - done.
  - apply not_elem_of_cons in Hk as [Hkh Hk]. simpl.
    rewrite IH, lookup_assign by done. case_decide; naive_solver.
Qed.

(** No header makes [__proto__] an own property of the row. *)
Lemma forEach_header_proto headers index values row :
  forEach_header headers index values row !! lit "__proto__"
  = row !! lit "__proto__".
Proof.
  revert index row. induction headers as [|h headers IH]; intros index row.
  - done.
  - simpl. rewrite IH, lookup_assign. case_decide; naive_solver.
Qed.

(** The value of a column is the field at the position of its last
    occurrence in the header, the empty string past the end of the line. *)
Lemma forEach_header_lookup headers index values row i h :
  headers !! i = Some h → h ≠ lit "__proto__" → h ∉ drop (S i) headers →
  forEach_header headers index values row !! h
  = Some (or_empty (values !! (index + i)%nat)).
Proof.
  revert index row i.
  induction headers as [|a headers IH]; intros index row i Hi Hh Hlast.
  - done.
  - destruct i as [|i]; simpl in *.
    + injection Hi as ->. rewrite drop_0 in Hlast.
      rewrite forEach_header_lookup_ne, lookup_assign by done.
      rewrite Nat.add_0_r. case_decide; naive_solver.
    + rewrite (IH (S index) _ i) by done. by rewrite Nat.add_succ_r.
Qed.

Lemma forEach_header_dom headers index values row :
  dom (forEach_header headers index values row)
  = dom row ∪ (list_to_set headers ∖ {[lit "__proto__"]}).
Proof.
  revert index row. induction headers as [|h headers IH]; intros index row.
  - simpl. set_solver.
  - simpl. rewrite IH. unfold assign. case_bool_decide as Hh.
    + subst h. set_solver.
    + rewrite dom_insert_L. set_solver.
Qed.

Lemma forEach_header_values headers index values row k v :
  forEach_header headers index values row !! k = Some v →
  row !! k = Some v ∨ ∃ j, v = or_empty (values !! j).
Proof.
  revert index row. induction headers as [|h headers IH]; intros index row.
  - auto.
  - simpl. intros [H|H]%IH; [|by right].
    rewrite lookup_assign in H. case_decide; [|by left].
    injection H as <-. eauto.
Qed.

(** The loop appends one row per line that is not blank, in order. *)
Lemma parseCSV_loop_spec headers lines data :
  parseCSV_loop headers lines data
  = data ++ (row_of headers <$> filter (λ l, trim l ≠ []) lines).
Proof.
  revert data. induction lines as [|line lines IH]; intros data; simpl.
  - by rewrite app_nil_r.
  - case_bool_decide as Hblank.
    + rewrite IH, filter_cons_False; naive_solver.
    + rewrite IH, filter_cons_True, fmap_cons by done.
      by rewrite <- (assoc_L (++)).
Qed.

Lemma parseCSV_spec content :
  ∃ line0 rest,
    split newline (trim content) = line0 :: rest
    ∧ parseCSV content
      = row_of (trim <$> split comma line0)
          <$> filter (λ l, trim l ≠ []) rest.
Proof.
  unfold parseCSV. pose proof (split_nonempty newline (trim content)) as Hne.
  destruct (split newline (trim content)) as [|line0 rest]; [done|].
  exists line0, rest. split; [done|]. by rewrite parseCSV_loop_spec.
Qed.

Lemma clean_nil : clean [].
Proof. repeat split; apply not_elem_of_nil. Qed.

Lemma row_of_clean headers line k v :
  newline ∉ line → row_of headers line !! k = Some v → clean v.
Proof.
  intros Hline [H|[j ->]]%forEach_header_values; [done|].
  destruct (_ !! j) as [[|c s]|] eqn:Hj; simpl; try apply clean_nil.
  apply list_elem_of_lookup_2, list_elem_of_fmap in Hj as (p & Hp & Hin).
  rewrite Hp. repeat split.
  - intros Hc%elem_of_trim. by apply (elem_of_split_no_sep comma line p).
  - intros Hc%elem_of_trim. apply Hline.
    by apply (elem_of_split_sub comma line p).
  - apply trim_idemp.
Qed.

(** Every field of every parsed row is trimmed and holds neither a comma
    nor a newline. *)
Lemma parseCSV_clean content :
  Forall (λ row, ∀ k v, row !! k = Some v → clean v) (parseCSV content).
Proof.
  destruct (parseCSV_spec content) as (line0 & rest & Hsplit & ->).
  apply Forall_fmap, Forall_forall. intros line Hline k v. simpl.
  apply row_of_clean.
  apply list_elem_of_filter in Hline as [_ Hline].
  apply (elem_of_split_no_sep newline (trim content)).
  rewrite Hsplit. apply elem_of_cons; auto.
Qed.
End parser.

(** ** Numbers and rounding *)

Section arithmetic.
Context `{Host}.
Implicit Types (x y : Q).

Lemma Qltb_lt x y : Qltb x y = true ↔ (x < y)%Q.
Proof.
  unfold Qltb. rewrite negb_true_iff, <- not_true_iff_false, Qle_bool_iff.
  split; [apply Qnot_le_lt | apply Qlt_not_le].
Qed.

Lemma Qltb_ge x y : Qltb x y = false ↔ (y <= x)%Q.
Proof.
  unfold Qltb. by rewrite negb_false_iff, Qle_bool_iff.
Qed.

Lemma fl_proper x y : (x == y)%Q → (fl x == fl y)%Q.
Proof.
  intros Hxy. apply Qle_antisym; apply fl_monotone; rewrite Hxy; apply Qle_refl.
Qed.

Lemma fl_nonneg x : (0 <= x)%Q → (0 <= fl x)%Q.
Proof.
  intros Hx. rewrite <- (fl_integer 0) by (vm_compute; discriminate).
  by apply fl_monotone.
Qed.

Lemma add_proper x x' y y' : (x == x')%Q → (y == y')%Q → (x ⊕ y == x' ⊕ y')%Q.
Proof. intros Hx Hy. apply fl_proper. by rewrite Hx, Hy. Qed.

Lemma add_nonneg x y : (0 <= x)%Q → (0 <= y)%Q → (0 <= x ⊕ y)%Q.
Proof.
  intros Hx Hy. apply fl_nonneg.
  change 0%Q with (0 + 0)%Q. by apply Qplus_le_compat.
Qed.

Lemma mul_nonneg x y : (0 <= x)%Q → (0 <= y)%Q → (0 <= x ⊗ y)%Q.
Proof. intros Hx Hy. by apply fl_nonneg, Qmult_le_0_compat. Qed.

(** Adding an integer to zero is exact. *)
Lemma add_0_l_integer (n : Z) :
  Z.abs n ≤ 2 ^ 53 → (0 ⊕ inject_Z n == inject_Z n)%Q.
Proof.
  intros Hn. unfold add. rewrite <- (fl_integer n Hn) at 2.
  apply fl_proper. apply Qplus_0_l.
Qed.

(** Adding zero to a sum changes nothing. *)
Lemma add_0_r x y : (x ⊕ y ⊕ 0 == x ⊕ y)%Q.
Proof.
  unfold add. rewrite <- (fl_idempotent (x + y)) at 2.
  apply fl_proper. apply Qplus_0_r.
Qed.

Lemma Math_round_proper x y : (x == y)%Q → Math_round x = Math_round y.
Proof. intros Hxy. unfold Math_round. by rewrite Hxy. Qed.

Lemma Math_round_nonneg x : (0 <= x)%Q → 0 ≤ Math_round x.
Proof.
  intros Hx. unfold Math_round. change 0 with (Qfloor 0).
  apply Qfloor_resp_le.
  apply Qle_trans with x; [done|]. rewrite <- (Qplus_0_r x) at 1.
  apply Qplus_le_r. by vm_compute.
Qed.

Lemma or_zero_not_NaN (a : number) : or_zero a ≠ NaN.
Proof. destruct a as [| |q]; simpl; [done..|]. by destruct (Qeq_bool q 0). Qed.
End arithmetic.

(** ** The classifier *)

(** C2. For every integer score [s] the status is [fraud] exactly when
    [s >= 70], [warning] exactly when [50 <= s < 70] and [legitimate]
    exactly in the remaining case [s < 50]; the risk level is [High],
    [Medium], [Low] in the same three cases. *)
Theorem classifier_thresholds (s : Z) :
  (determineFraudStatus s = lit "fraud" ↔ 70 ≤ s)
  ∧ (determineFraudStatus s = lit "warning" ↔ 50 ≤ s < 70)
  ∧ (determineFraudStatus s = lit "legitimate" ↔ s < 50)
  ∧ (getRiskLevel s = lit "High" ↔ 70 ≤ s)
  ∧ (getRiskLevel s = lit "Medium" ↔ 50 ≤ s < 70)
  ∧ (getRiskLevel s = lit "Low" ↔ s < 50).
Proof.
  unfold determineFraudStatus, getRiskLevel.
  destruct (Z.leb_spec 70 s), (Z.leb_spec 50 s);
    repeat split; intros; try lia; try done;
    exfalso; match goal with E : lit _ = lit _ |- _ => by vm_compute in E end.
Qed.

(** ** The scorer *)

Section scorer.
Context `{Host}.
Implicit Types (transaction : gmap (list N) (list N)) (random : Q).

Lemma location_flag_spec transaction :
  existsb (location_includes transaction) highRiskLocations = true
  ↔ ∃ l loc a b, transaction !! lit "location" = Some l
                 ∧ loc ∈ highRiskLocations ∧ l = a ++ loc ++ b.
Proof.
  rewrite existsb_exists. unfold location_includes. split.
  - intros (loc & Hloc%list_elem_of_In & Hinc).
    destruct (transaction !! lit "location") as [l|]; [|done].
    apply includes_spec in Hinc as (a & b & ->). by exists (a ++ loc ++ b), loc, a, b.
  - intros (l & loc & a & b & -> & Hloc & ->). exists loc.
    split; [by apply list_elem_of_In|]. apply includes_spec. eauto.
Qed.

Lemma time_flag_spec transaction :
  ge (hour_of transaction) (Finite 1) && le (hour_of transaction) (Finite 5)
  = true
  ↔ ∃ ts h, transaction !! lit "timestamp" = Some ts
            ∧ getHours ts = Finite h ∧ (1 <= h <= 5)%Q.
Proof.
  unfold hour_of. rewrite andb_true_iff. split.
  - destruct (transaction !! lit "timestamp") as [ts|]; [|by intros []].
    destruct (getHours ts) as [|s|h] eqn:Hh; simpl; [by intros [] | |].
    + by destruct s; intros [].
    + rewrite !negb_true_iff, !Qltb_ge. intros []. by exists ts, h.
  - intros (ts & h & -> & -> & Hh). simpl. by rewrite !negb_true_iff, !Qltb_ge.
Qed.

Lemma score_range random transaction :
  (0 <= random)%Q → 0 ≤ calculateRiskScore random transaction ≤ 100.
Proof.
  intros Hr. unfold calculateRiskScore.
  split; [|apply Z.le_min_r]. apply Z.min_glb; [|done].
  apply Math_round_nonneg.
  assert (∀ (b : bool) x c, (0 <= x)%Q → (0 <= c)%Q →
            (0 <= if b then x ⊕ c else x)%Q) as Hstep.
  { intros [] x c Hx Hc; [by apply add_nonneg | done]. }
  apply Hstep; [|done]. apply Hstep; [|done].
  apply add_nonneg; [|by apply mul_nonneg].
  repeat match goal with
         | |- (0 <= if ?b then _ else _)%Q => destruct b
         end; try apply add_nonneg; done.
Qed.

(** C1. For every Raw Row, whatever its [amount], [location] and
    [timestamp] fields hold or lack, and every draw of [Math.random]
    (a number that is not negative), [calculateRiskScore] returns an
    integer from 0 to 100; an amount that is missing or does not parse is
    scored as the amount 0, a timestamp that is missing or does not parse
    raises no time flag, a missing location raises no location flag. *)
Theorem calculateRiskScore_total random transaction :
  (0 <= random)%Q →
  0 ≤ calculateRiskScore random transaction ≤ 100
  ∧ ((transaction !! lit "amount" = None
      ∨ ∃ s, transaction !! lit "amount" = Some s ∧ parseFloat s = NaN) →
     amount_of transaction = Finite 0)
  ∧ ((transaction !! lit "timestamp" = None
      ∨ ∃ s, transaction !! lit "timestamp" = Some s ∧ getHours s = NaN) →
     ge (hour_of transaction) (Finite 1) && le (hour_of transaction) (Finite 5)
     = false)
  ∧ (transaction !! lit "location" = None →
     existsb (location_includes transaction) highRiskLocations = false).
Proof.
  intros Hr. split; [by apply score_range|]. repeat split.
  - unfold amount_of. by intros [->|(s & -> & ->)].
  - unfold hour_of. by intros [->|(s & -> & ->)].
  - intros Hloc. apply not_true_iff_false.
    intros (l & ? & ? & ? & Hl & _)%location_flag_spec. congruence.
Qed.
End scorer.

Lemma calculateRiskScore_total_witness :
  (0 <= 1 # 4)%Q
  ∧ 0 ≤ @calculateRiskScore sample_host (1 # 4)
          {[lit "amount" := lit "n/a"; lit "timestamp" := lit "soon"]} ≤ 100.
Proof.
  split; [by vm_compute|].
  apply (@calculateRiskScore_total sample_host (1 # 4)
           {[lit "amount" := lit "n/a"; lit "timestamp" := lit "soon"]}).
  by vm_compute.
Defined.

Section scorer_formula.
Context `{Host}.
Implicit Types (transaction : gmap (list N) (list N)) (random : Q).

Lemma score_steps (s1 tier j : Q) (bl bt : bool) :
  (s1 == tier)%Q →
  Math_round (let s2 := s1 ⊕ j in
              let s3 := if bl then s2 ⊕ 25%Q else s2 in
              if bt then s3 ⊕ 15%Q else s3)
  = Math_round (tier ⊕ j ⊕ (if bl then 25 else 0)%Q
                  ⊕ (if bt then 15 else 0)%Q).
Proof.
  intros Hs. apply Math_round_proper.
  assert (s1 ⊕ j == tier ⊕ j)%Q as Hj by (by apply add_proper).
  destruct bl, bt; simpl.
  - by repeat (apply add_proper; try reflexivity).
  - etransitivity; [|symmetry; apply add_0_r].
    by repeat (apply add_proper; try reflexivity).
  - apply add_proper; [|reflexivity].
    etransitivity; [|symmetry; apply add_0_r]. done.
  - etransitivity; [|symmetry; apply add_0_r].
    etransitivity; [|symmetry; apply add_0_r]. done.
Qed.

(** The tier an amount falls in. *)
Lemma tier_cases (amount : number) :
  amount ≠ NaN →
  let tier := (if gt amount (Finite 5000) then 30
               else if gt amount (Finite 2000) then 20
               else if gt amount (Finite 1000) then 10
               else if lt amount (Finite 10) then 15 else 0)%Q in
  match amount with
  | Finite a =>
      ((5000 < a)%Q ∧ tier = 30%Q)
      ∨ ((2000 < a <= 5000)%Q ∧ tier = 20%Q)
      ∨ ((1000 < a <= 2000)%Q ∧ tier = 10%Q)
      ∨ ((a < 10)%Q ∧ tier = 15%Q)
      ∨ ((10 <= a <= 1000)%Q ∧ tier = 0%Q)
  | Infinity negative => tier = if negative then 15%Q else 30%Q
  | NaN => False
  end.
Proof.
  intros Hnan. destruct amount as [|[]|a]; [done..|]. unfold gt. simpl.
  destruct (Qltb 5000 a) eqn:H5; [apply Qltb_lt in H5; auto|].
  destruct (Qltb 2000 a) eqn:H2; [apply Qltb_lt in H2|].
  { apply Qltb_ge in H5. auto. }
  destruct (Qltb 1000 a) eqn:H1; [apply Qltb_lt in H1|].
  { apply Qltb_ge in H2. auto 6. }
  destruct (Qltb a 10) eqn:H0; [apply Qltb_lt in H0; auto 7|].
  apply Qltb_ge in H0, H1. auto 8.
Qed.

(** C3. For every Raw Row and every draw, with [j] the jitter
    [Math.random() * 40], the score is
    [min(round(tier + j + locFlag + timeFlag), 100)], the sums taken left
    to right in the arithmetic of the host: [tier] is 30 for an amount
    above 5000, else 20 above 2000, else 10 above 1000, else 15 below 10,
    else 0, the amount being the parsed [amount] field with 0 for one that
    does not parse; [locFlag] is 25 exactly when the [location] field has
    one of Nigeria, Russia, Ukraine, Unknown as a substring, else 0;
    [timeFlag] is 15 exactly when the [timestamp] yields an hour from 1 to
    5, else 0. *)
Theorem calculateRiskScore_formula random transaction :
  ∃ tier locFlag timeFlag : Q,
    calculateRiskScore random transaction
    = Z.min (Math_round (tier ⊕ (random ⊗ 40%Q) ⊕ locFlag ⊕ timeFlag)) 100
    ∧ amount_of transaction
      = or_zero (match transaction !! lit "amount" with
                 | Some s => parseFloat s
                 | None => NaN
                 end)
    ∧ match amount_of transaction with
      | Finite a =>
          ((5000 < a)%Q ∧ tier = 30%Q)
          ∨ ((2000 < a <= 5000)%Q ∧ tier = 20%Q)
          ∨ ((1000 < a <= 2000)%Q ∧ tier = 10%Q)
          ∨ ((a < 10)%Q ∧ tier = 15%Q)
          ∨ ((10 <= a <= 1000)%Q ∧ tier = 0%Q)
      | Infinity negative => tier = if negative then 15%Q else 30%Q
      | NaN => False
      end
    ∧ (let listed :=
         ∃ l loc a b, transaction !! lit "location" = Some l
                      ∧ loc ∈ highRiskLocations ∧ l = a ++ loc ++ b in
       (locFlag = 25%Q ∧ listed) ∨ (locFlag = 0%Q ∧ ¬ listed))
    ∧ (let small_hours :=
         ∃ ts h, transaction !! lit "timestamp" = Some ts
                 ∧ getHours ts = Finite h ∧ (1 <= h <= 5)%Q in
       (timeFlag = 15%Q ∧ small_hours) ∨ (timeFlag = 0%Q ∧ ¬ small_hours)).
Proof.
  set (amount := amount_of transaction).
  set (bl := existsb (location_includes transaction) highRiskLocations).
  set (bt := ge (hour_of transaction) (Finite 1)
             && le (hour_of transaction) (Finite 5)).
  exists (if gt amount (Finite 5000) then 30
          else if gt amount (Finite 2000) then 20
          else if gt amount (Finite 1000) then 10
          else if lt amount (Finite 10) then 15 else 0)%Q,
         (if bl then 25 else 0)%Q, (if bt then 15 else 0)%Q.
  split; [|split; [done|split; [|split]]].
  - unfold calculateRiskScore. fold amount bl bt. f_equal.
    apply (score_steps _ _ (random ⊗ 40%Q) bl bt).
    repeat match goal with
           | |- context [if ?b then _ else _] => destruct b
           end;
      try reflexivity; apply (add_0_l_integer _); by vm_compute.
  - apply tier_cases, or_zero_not_NaN.
  - simpl. pose proof (location_flag_spec transaction) as Hl. fold bl in Hl.
    destruct bl; [left | right]; split; try done.
    + by apply Hl.
    + intros Hc. apply Hl in Hc. done.
  - simpl. pose proof (time_flag_spec transaction) as Ht. fold bt in Ht.
    destruct bt; [left | right]; split; try done.
    + by apply Ht.
    + intros Hc. apply Ht in Hc. done.
Qed.
End scorer_formula.

(** ** The pipeline *)

Section pipeline.
Context `{Host}.
Implicit Types (transaction : gmap (list N) (list N)) (g : nat → Q).
Implicit Types (e : gmap (list N) value).

(** What one round of the loop stores in a result. *)
Lemma analyse_lookup transaction g :
  let e := (analyse transaction g).1 in
  let s := calculateRiskScore (g O) transaction in
  e !! lit "riskScore" = Some (VNumber s)
  ∧ e !! lit "status" = Some (VString (determineFraudStatus s))
  ∧ e !! lit "riskLevel" = Some (VString (getRiskLevel s))
  ∧ (∃ inds, e !! lit "indicators" = Some (VArray inds)
             ∧ (inds ≠ [] → determineFraudStatus s = lit "fraud"))
  ∧ (∀ k, k ∉ computed_keys → e !! k = VString <$> transaction !! k).
Proof.
  unfold analyse. simpl.
  set (s := calculateRiskScore (g O) transaction).
  assert (∃ inds g',
            (if bool_decide (determineFraudStatus s = lit "fraud")
             then generateFraudIndicators (g ∘ S) else ([], g ∘ S))
            = (inds, g')
            ∧ (inds ≠ [] → determineFraudStatus s = lit "fraud"))
    as (inds & g' & -> & Hinds).
  { case_bool_decide as Hs.
    - destruct (generateFraudIndicators (g ∘ S)) as [inds g']. by exists inds, g'.
    - by exists [], (g ∘ S). }
  simpl. repeat split.
  - rewrite !lookup_insert_ne by lit_neq. apply lookup_insert_eq.
  - rewrite !lookup_insert_ne by lit_neq. apply lookup_insert_eq.
  - apply lookup_insert_eq.
  - exists inds. split; [|done].
    rewrite !lookup_insert_ne by lit_neq. apply lookup_insert_eq.
  - intros k Hk. unfold computed_keys in Hk.
    rewrite !not_elem_of_cons in Hk. destruct Hk as (? & ? & ? & ? & _).
    rewrite !lookup_insert_ne by done. apply lookup_fmap.
Qed.

Lemma performAnalysis_loop_spec (R : gmap (list N) (list N) →
                                     gmap (list N) value → Prop) :
  (∀ transaction g, R transaction (analyse transaction g).1) →
  ∀ transactions analysisResults g,
    ∃ results,
      (performAnalysis_loop transactions analysisResults g).1
      = analysisResults ++ results
      ∧ Forall2 R transactions results.
Proof.
  intros HR. induction transactions as [|t transactions IH];
    intros analysisResults g; simpl.
  - exists []. by rewrite app_nil_r.
  - pose proof (HR t g) as Ht. destruct (analyse t g) as [e g'].
    destruct (IH (analysisResults ++ [e]) g') as (results & -> & Hres).
    exists (e :: results). split; [by rewrite <- (assoc_L (++))|].
    by constructor.
Qed.

(** The Result Set has one result per row, in the order of the rows. *)
Lemma performAnalysis_Forall2 (R : gmap (list N) (list N) →
                                   gmap (list N) value → Prop) :
  (∀ transaction g, R transaction (analyse transaction g).1) →
  ∀ transactions g, Forall2 R transactions (performAnalysis transactions g).
Proof.
  intros HR transactions g. unfold performAnalysis.
  by destruct (performAnalysis_loop_spec R HR transactions [] g)
    as (results & -> & Hres).
Qed.

(** C5. In every Enriched Result of the pipeline, [status] and
    [riskLevel] are the classifications of its [riskScore] under the
    threshold table, and [indicators] is non-empty only when the status is
    [fraud]. *)
Theorem enriched_result_invariant transactions g :
  Forall (λ e,
            ∃ (s : Z) inds,
              e !! lit "riskScore" = Some (VNumber s)
              ∧ e !! lit "status" = Some (VString (determineFraudStatus s))
              ∧ e !! lit "riskLevel" = Some (VString (getRiskLevel s))
              ∧ e !! lit "indicators" = Some (VArray inds)
              ∧ (inds ≠ [] → e !! lit "status" = Some (VString (lit "fraud"))))
         (performAnalysis transactions g).
Proof.
  assert (Forall2 (λ _ e,
            ∃ (s : Z) inds,
              e !! lit "riskScore" = Some (VNumber s)
              ∧ e !! lit "status" = Some (VString (determineFraudStatus s))
              ∧ e !! lit "riskLevel" = Some (VString (getRiskLevel s))
              ∧ e !! lit "indicators" = Some (VArray inds)
              ∧ (inds ≠ [] → e !! lit "status" = Some (VString (lit "fraud"))))
            transactions (performAnalysis transactions g)) as Hall.
  { apply performAnalysis_Forall2. intros t g'.
    destruct (analyse_lookup t g') as (Hs & Hst & Hl & (inds & Hi & Hf) & _).
    exists (calculateRiskScore (g' O) t), inds.
    repeat split; try done. intros Hne. rewrite Hst. by rewrite Hf. }
  induction Hall; constructor; auto.
Qed.
End pipeline.

(** ** The export *)

Section export.
Implicit Types (e : gmap (list N) value) (row : gmap (list N) (list N)).
Implicit Types (cells : list (list N)) (s : Z).

Lemma toString_or_empty_string (x : option (list N)) :
  toString (or_empty_value (VString <$> x)) = default [] x.
Proof. by destruct x as [[|c u]|]. Qed.

Lemma toString_or_empty_number s :
  toString (or_empty_value (Some (VNumber s)))
  = if s =? 0 then [] else Z_toString s.
Proof. simpl. by destruct (s =? 0). Qed.

(** The cells of the line exported for the result of a row. *)
Lemma export_cells row e s status :
  (∀ k, k ∉ computed_keys → e !! k = VString <$> row !! k) →
  e !! lit "riskScore" = Some (VNumber s) →
  e !! lit "status" = Some (VString status) →
  toString <$> export_row e
  = [default [] (row !! lit "transaction_id");
     default [] (row !! lit "amount");
     default [] (row !! lit "merchant");
     default [] (row !! lit "location");
     default [] (row !! lit "timestamp");
     default [] (row !! lit "card_number");
     if s =? 0 then [] else Z_toString s;
     status].
Proof.
  intros Hrow Hs Hst. unfold export_row, export_keys.
  cbn [fmap list_fmap].
  rewrite !Hrow by closed_fact. rewrite Hs, Hst.
  rewrite !toString_or_empty_string, toString_or_empty_number.
  repeat f_equal. by destruct status.
Qed.

Lemma clean_default row k :
  (∀ k v, row !! k = Some v → clean v) → clean (default [] (row !! k)).
Proof.
  intros Hrow. destruct (row !! k) as [v|] eqn:Hk; simpl; [eauto|].
  apply clean_nil.
Qed.

Lemma clean_score s : clean (if s =? 0 then [] else Z_toString s).
Proof.
  destruct (s =? 0); [apply clean_nil|].
  pose proof (Z_toString_chars s) as Hs.
  assert (Forall (λ c, c ≠ comma ∧ c ≠ newline ∧ is_whitespace c = false)
            (Z_toString s)) as Hplain.
  { eapply Forall_impl; [done|]. apply sign_or_digit_plain. }
  rewrite Forall_forall in Hplain. repeat split.
  - intros Hc. by destruct (Hplain _ Hc) as (? & _).
  - intros Hc. by destruct (Hplain _ Hc) as (_ & ? & _).
  - apply trim_no_whitespace, Forall_forall. intros c Hc.
    by destruct (Hplain _ Hc) as (_ & _ & ?).
Qed.

Lemma clean_status s :
  clean (determineFraudStatus s) ∧ determineFraudStatus s ≠ [].
Proof.
  unfold determineFraudStatus.
  destruct (70 <=? s); [|destruct (50 <=? s)];
    (split; [unfold clean; split_and!; try closed_fact; by vm_compute
            | lit_neq]).
Qed.

Lemma elem_of_join sep cells c :
  c ∈ join sep cells → c = sep ∨ ∃ p, p ∈ cells ∧ c ∈ p.
Proof.
  induction cells as [|p [|q cells] IH]; simpl.
  - by intros ?%elem_of_nil.
  - intros Hc. right. exists p. split; [apply elem_of_cons; auto | done].
  - intros [Hc|[->|Hc]%elem_of_cons]%elem_of_app; [|by left|].
    + right. exists p. split; [apply elem_of_cons; auto | done].
    + destruct (IH Hc) as [->|(p' & Hp' & Hcp)]; [by left|].
      right. exists p'. split; [apply elem_of_cons; auto | done].
Qed.

(** An exported line can be taken apart again. *)
Lemma export_line_shape cells last_cell :
  Forall clean (cells ++ [last_cell]) → cells ≠ [] → last_cell ≠ [] →
  let line := join comma (cells ++ [last_cell]) in
  (newline ∉ line)
  ∧ trim line ≠ []
  ∧ trimStart (reverse line) = reverse line
  ∧ trim <$> split comma line = cells ++ [last_cell].
Proof.
  intros Hclean Hcells Hlast line. rewrite Forall_forall in Hclean.
  repeat split.
  - intros [Hc|(p & Hp & Hc)]%elem_of_join; [by vm_compute in Hc|].
    by destruct (Hclean p Hp) as (_ & ? & _).
  - apply (trim_not_blank comma); [|by vm_compute].
    unfold line. rewrite join_snoc by done.
    apply elem_of_app; right. apply elem_of_cons; auto.
  - unfold line. rewrite reverse_join, fmap_app. cbn [fmap list_fmap].
    rewrite reverse_snoc.
    apply trimStart_join.
    + intros Hr. apply Hlast. by rewrite <- (reverse_involutive last_cell), Hr.
    + apply trim_fixed_inv.
      apply (Hclean last_cell), elem_of_app; right. apply elem_of_cons; auto.
  - unfold line. rewrite split_join.
    + rewrite <- (list_fmap_id (cells ++ [last_cell])) at 2.
      apply Forall_fmap_ext, Forall_forall. intros p Hp.
      by destruct (Hclean p Hp) as (_ & _ & ?).
    + by destruct cells.
    + apply Forall_forall. intros p Hp.
      by destruct (Hclean p Hp) as (? & _).
Qed.
End export.

Section roundtrip.
Context `{Host}.
Implicit Types (e : gmap (list N) value) (row : gmap (list N) (list N)).
Implicit Types (lines : list (list N)).

Lemma or_empty_Some (x : list N) : or_empty (Some x) = x.
Proof. by destruct x. Qed.

Lemma filter_all {A} (P : A → Prop) `{∀ x, Decision (P x)} (l : list A) :
  Forall P l → filter P l = l.
Proof.
  induction 1 as [|x l Hx _ IH]; [done|].
  by rewrite filter_cons_True, IH.
Qed.

(** The exported text splits into the header line and the data lines. *)
Lemma exportToCSV_lines lines :
  Forall (λ l, (newline ∉ l) ∧ trim l ≠ []
               ∧ trimStart (reverse l) = reverse l) lines →
  split newline (trim (join newline (join comma export_headers :: lines)))
  = join comma export_headers :: lines.
Proof.
  intros Hlines.
  assert (trim (join newline (join comma export_headers :: lines))
          = join newline (join comma export_headers :: lines)) as ->.
  { apply trim_fixed.
    - apply trimStart_join; [lit_neq | by vm_compute].
    - rewrite reverse_join.
      destruct lines as [|l ls _] using rev_ind; [by vm_compute|].
      apply Forall_app in Hlines as [_ Hl].
      apply Forall_singleton in Hl as (_ & Hblank & Hrev).
      rewrite (fmap_cons reverse), fmap_app. cbn [fmap list_fmap].
      rewrite app_comm_cons, reverse_snoc.
      apply trimStart_join; [|done].
      intros Hr. apply Hblank.
      by rewrite <- (reverse_involutive l), Hr. }
  apply split_join; [done|]. constructor; [closed_fact|].
  eapply Forall_impl; [done|]. by intros l (? & _).
Qed.

Lemma parseCSV_exported lines :
  Forall (λ l, (newline ∉ l) ∧ trim l ≠ []
               ∧ trimStart (reverse l) = reverse l) lines →
  parseCSV (join newline (join comma export_headers :: lines))
  = row_of export_headers <$> lines.
Proof.
  intros Hlines. unfold parseCSV.
  rewrite (exportToCSV_lines lines Hlines), parseCSV_loop_spec.
  assert (trim <$> split comma (join comma export_headers) = export_headers)
    as -> by (by vm_compute).
  simpl. rewrite filter_all; [done|].
  eapply Forall_impl; [done|]. by intros l (_ & ? & _).
Qed.

(** One exported line, re-parsed under the export header. *)
Lemma reparse_exported_line row e :
  (∀ k v, row !! k = Some v → clean v) →
  (∀ k, k ∉ computed_keys → e !! k = VString <$> row !! k) →
  (∃ s, e !! lit "riskScore" = Some (VNumber s)
        ∧ e !! lit "status" = Some (VString (determineFraudStatus s))) →
  ((newline ∉ export_line e) ∧ trim (export_line e) ≠ []
   ∧ trimStart (reverse (export_line e)) = reverse (export_line e))
  ∧ ∀ i key header,
      (i < 6)%nat → export_keys !! i = Some key →
      export_headers !! i = Some header →
      row_of export_headers (export_line e) !! header
      = Some (default [] (row !! key)).
Proof.
  intros Hclean Hrow (s & Hs & Hst). unfold export_line.
  rewrite (export_cells row e s _ Hrow Hs Hst).
  destruct (clean_status s) as [Hcs Hne].
  pose proof (clean_score s) as Hsc.
  set (cells := [default [] (row !! lit "transaction_id");
                 default [] (row !! lit "amount");
                 default [] (row !! lit "merchant");
                 default [] (row !! lit "location");
                 default [] (row !! lit "timestamp");
                 default [] (row !! lit "card_number");
                 if s =? 0 then [] else Z_toString s]).
  change (join comma _) with (join comma (cells ++ [determineFraudStatus s])).
  destruct (export_line_shape cells (determineFraudStatus s))
    as (Hnl & Hblank & Hrev & Hsplit); [|done|done|].
  { unfold cells. repeat (constructor; [by apply clean_default || done|]).
    constructor. }
  split; [done|]. intros i key header Hi Hkey Hheader.
  unfold row_of. rewrite Hsplit.
  rewrite (forEach_header_lookup export_headers 0 _ ∅ i header Hheader).
  - do 6 (destruct i as [|i];
          [injection Hkey as <-; exact (f_equal Some (or_empty_Some _))|]).
    lia.
  - do 6 (destruct i as [|i]; [injection Hheader as <-; lit_neq|]). lia.
  - do 6 (destruct i as [|i]; [injection Hheader as <-; closed_fact|]). lia.
Qed.

(** C6, as amended. For every CSV text and every stream of draws,
    re-parsing the export of the Result Set the pipeline produces from the
    parsed rows gives one row per original row, in order, and that row
    holds, under [Transaction ID], [Amount], [Merchant], [Location],
    [Timestamp] and [Card Number], the original row's [transaction_id],
    [amount], [merchant], [location], [timestamp] and [card_number], the
    empty string standing for a column the original row lacks. *)
Theorem export_reparse_fixed_columns content g :
  Forall2 (λ row row',
             ∀ i key header,
               (i < 6)%nat → export_keys !! i = Some key →
               export_headers !! i = Some header →
               row' !! header = Some (default [] (row !! key)))
          (parseCSV content)
          (parseCSV (exportToCSV (performAnalysis (parseCSV content) g))).
Proof.
  pose proof (parseCSV_clean content) as Hclean.
  assert (Forall2 (λ row e,
            ((newline ∉ export_line e) ∧ trim (export_line e) ≠ []
             ∧ trimStart (reverse (export_line e)) = reverse (export_line e))
            ∧ ∀ i key header,
                (i < 6)%nat → export_keys !! i = Some key →
                export_headers !! i = Some header →
                row_of export_headers (export_line e) !! header
                = Some (default [] (row !! key)))
            (parseCSV content) (performAnalysis (parseCSV content) g))
    as Hpairs.
  { pose proof (performAnalysis_Forall2
                  (λ row e,
                     (∀ k, k ∉ computed_keys → e !! k = VString <$> row !! k)
                     ∧ ∃ s, e !! lit "riskScore" = Some (VNumber s)
                            ∧ e !! lit "status"
                              = Some (VString (determineFraudStatus s)))) as HR.
    specialize (HR (λ t g', ltac:(
      destruct (analyse_lookup t g') as (? & ? & _ & _ & ?); eauto))
      (parseCSV content) g).
    induction HR as [|row e rows es [Hrow Hs] _ IH]; [constructor|].
    inversion Hclean; subst. constructor; [|by apply IH].
    by apply reparse_exported_line. }
  unfold exportToCSV. rewrite parseCSV_exported.
  - apply Forall2_fmap_r, Forall2_fmap_r.
    eapply Forall2_impl; [done|]. by intros row e [_ ?].
  - apply Forall_fmap. eapply Forall2_Forall_r; [done|].
    apply Forall_true. by intros e row [? _].
Qed.
End roundtrip.

(** The literal reading of the round trip fails: a column outside the six
    exported ones does not come back.  The input has the six standard
    columns and a seventh, [note]; the host and the draws play no part in
    the outcome. *)
Lemma export_reparse_loses_other_columns :
  ¬ fields_reproduced
      (parseCSV (lit "transaction_id,amount,merchant,location,timestamp,card_number,note
TXN0001,25,Amazon,Boston,2024-01-01T12:00:00Z,****1234,gift"))
      (parseCSV
         (exportToCSV
            (@performAnalysis sample_host
               (parseCSV (lit "transaction_id,amount,merchant,location,timestamp,card_number,note
TXN0001,25,Amazon,Boston,2024-01-01T12:00:00Z,****1234,gift"))
               (draws [0%Q])))).
Proof.
  intros Hf.
  assert (Forall (map_Forall (λ _ v, v ≠ lit "gift"))
            (parseCSV
               (exportToCSV
                  (@performAnalysis sample_host
                     (parseCSV (lit "transaction_id,amount,merchant,location,timestamp,card_number,note
TXN0001,25,Amazon,Boston,2024-01-01T12:00:00Z,****1234,gift"))
                     (draws [0%Q]))))) as Hall
    by closed_fact.
  apply Forall2_cons_inv_l in Hf as (row' & rest & Hp & _ & Hrows).
  destruct (Hp (lit "note") (lit "gift")) as (header & _ & _ & Hv);
    [by vm_compute|].
  rewrite Hrows in Hall. apply Forall_cons in Hall as [Hrow' _].
  by apply (Hrow' header (lit "gift")).
Qed.

Section export_cells.
Implicit Types (transaction : gmap (list N) value).

(** C10. In the text [exportToCSV] offers, after the header line
    [Transaction ID,...,Risk Score,Status] comes one line per result, the
    eight cells of the result joined by commas.  A cell whose field is
    falsy ([undefined], the empty string or the number 0) is the empty
    string, any other cell is the text of its field; so for a [riskScore]
    of exactly 0 the cell under the header [Risk Score] is empty, where the
    number prints as [0], and a transaction field holding the empty string
    is exported empty.  When no exported field holds a comma or a line
    break, splitting the text at the line breaks and each line at the
    commas gives back the header and these cells. *)
Theorem export_falsy_is_empty (results : list (gmap (list N) value)) :
  let columns :=
    [(lit "Transaction ID", lit "transaction_id");
     (lit "Amount", lit "amount");
     (lit "Merchant", lit "merchant");
     (lit "Location", lit "location");
     (lit "Timestamp", lit "timestamp");
     (lit "Card Number", lit "card_number");
     (lit "Risk Score", lit "riskScore");
     (lit "Status", lit "status")] in
  let header :=
    lit "Transaction ID,Amount,Merchant,Location,Timestamp,Card Number,Risk Score,Status" in
  let plain transaction :=
    ∀ title key v,
      (title, key) ∈ columns → transaction !! key = Some v →
      (comma ∉ toString v) ∧ (newline ∉ toString v) in
  ∃ table : list (list (list N)),
    exportToCSV results = join newline (header :: (join comma <$> table))
    ∧ split comma header = columns.*1
    ∧ Forall2
        (λ transaction cells,
           length cells = 8%nat
           ∧ (∀ i title key,
                columns !! i = Some (title, key) →
                transaction !! key = None
                ∨ (∃ v, transaction !! key = Some v ∧ truthy v = false) →
                cells !! i = Some [])
           ∧ (∀ i title key v,
                columns !! i = Some (title, key) →
                transaction !! key = Some v → truthy v = true →
                cells !! i = Some (toString v))
           ∧ (transaction !! lit "riskScore" = Some (VNumber 0) →
              toString (VNumber 0) = lit "0"
              ∧ ∀ i, split comma header !! i = Some (lit "Risk Score") →
                     cells !! i = Some [])
           ∧ (∀ i title key,
                columns !! i = Some (title, key) →
                transaction !! key = Some (VString []) →
                cells !! i = Some []))
        results table
    ∧ (Forall plain results →
       split newline (exportToCSV results)
       = header :: (join comma <$> table)
       ∧ Forall (λ cells, split comma (join comma cells) = cells) table).
Proof.
  intros columns header plain.
  exists ((λ t, toString <$> export_row t) <$> results).
  assert (export_keys = columns.*2) as Hkeys by reflexivity.
  assert (split comma header = columns.*1) as Hheader by (by vm_compute).
  assert (∀ t i title key,
            columns !! i = Some (title, key) →
            (toString <$> export_row t) !! i
            = Some (toString (or_empty_value (t !! key)))) as Hcell.
  { intros t i title key Hi. unfold export_row.
    by rewrite !list_lookup_fmap, Hkeys, list_lookup_fmap, Hi. }
  assert (exportToCSV results
          = join newline
              (header
               :: (join comma <$> ((λ t, toString <$> export_row t)
                                     <$> results)))) as Htext.
  { unfold exportToCSV. rewrite <- list_fmap_compose. reflexivity. }
  split_and!; [done | done | |].
  - apply Forall2_fmap_r, Forall_Forall2_diag, Forall_true.
    intros t. cbn [compose]. split_and!.
    + unfold export_row. by rewrite !length_fmap.
    + intros i title key Hi Hfalsy. rewrite (Hcell t i title key Hi).
      destruct Hfalsy as [->|(v & -> & Hv)]; [done|]. simpl. by rewrite Hv.
    + intros i title key v Hi Hs Hv. rewrite (Hcell t i title key Hi), Hs.
      simpl. by rewrite Hv.
    + intros Hs. split; [by vm_compute|]. intros i Hi.
      rewrite Hheader in Hi.
      assert (i = 6%nat) as ->.
      { do 8 (destruct i as [|i]; [try done; by vm_compute in Hi|]).
        by vm_compute in Hi. }
      rewrite (Hcell t 6%nat (lit "Risk Score") (lit "riskScore")) by done.
      by rewrite Hs.
    + intros i title key Hi Hs. rewrite (Hcell t i title key Hi). by rewrite Hs.
  - intros Hplain.
    assert (Forall (λ cells, cells ≠ []
                             ∧ Forall (λ cell, (comma ∉ cell)
                                               ∧ (newline ∉ cell)) cells)
                   ((λ t, toString <$> export_row t) <$> results)) as Htable.
    { apply Forall_fmap. eapply Forall_impl; [exact Hplain|].
      intros t Ht. cbn [compose]. split.
      - intros Hnil. apply (f_equal length) in Hnil.
        unfold export_row in Hnil. by rewrite !length_fmap in Hnil.
      - unfold export_row. rewrite Hkeys, <- !list_fmap_compose.
        apply Forall_fmap, Forall_forall. intros [title key] Hin.
        cbn [compose snd]. destruct (t !! key) as [v|] eqn:Hv; simpl.
        + destruct (truthy v); [by apply (Ht title key v)|].
          split; apply not_elem_of_nil.
        + split; apply not_elem_of_nil. }
    split.
    + rewrite Htext. apply split_join; [done|].
      constructor; [closed_fact|]. apply Forall_fmap.
      eapply Forall_impl; [exact Htable|]. intros cells [_ Hc]. cbn [compose].
      intros [Hc'|(p & Hp & Hin)]%elem_of_join; [by vm_compute in Hc'|].
      by destruct (proj1 (Forall_forall _ _) Hc p Hp) as [_ ?].
    + eapply Forall_impl; [exact Htable|]. intros cells [Hne Hc].
      apply split_join; [done|]. eapply Forall_impl; [exact Hc|].
      by intros ? [? _].
Qed.
End export_cells.

Lemma export_falsy_is_empty_witness :
  ∃ table,
    split newline
      (exportToCSV [{[lit "transaction_id" := VString (lit "T1");
                      lit "amount" := VString [];
                      lit "riskScore" := VNumber 0;
                      lit "status" := VString (lit "legitimate")]}])
    = lit "Transaction ID,Amount,Merchant,Location,Timestamp,Card Number,Risk Score,Status"
        :: (join comma <$> table)
    ∧ Forall (λ cells, cells !! 1%nat = Some [] ∧ cells !! 6%nat = Some [])
             table.
Proof.
  destruct (export_falsy_is_empty
              [{[lit "transaction_id" := VString (lit "T1");
                 lit "amount" := VString [];
                 lit "riskScore" := VNumber 0;
                 lit "status" := VString (lit "legitimate")]}])
    as (table & _ & _ & Hrows & Hplain).
  destruct Hplain as [Hsplit _].
  { constructor; [|constructor]. intros title key v Hin Hv.
    repeat (apply elem_of_cons in Hin as [[= -> ->]|Hin];
            [vm_compute in Hv;
             first [discriminate Hv
                   | injection Hv as <-; split; closed_fact]|]).
    by apply elem_of_nil in Hin. }
  exists table. split; [done|].
  apply Forall2_cons_inv_l in Hrows
    as (cells & table' & (_ & Hfalsy & _ & Hzero & _) & Hnil & ->).
  apply Forall2_nil_inv_l in Hnil as ->.
  constructor; [|constructor]. split.
  - apply (Hfalsy 1%nat (lit "Amount") (lit "amount")); [done|].
    right. by exists (VString []).
  - apply Hzero; by vm_compute.
Defined.

(** ** The parser, continued *)

(** The rows [parseCSV] returns: one per data line that is not blank, in
    order; the keys of a row are the header columns other than [__proto__];
    a column holds the field at the position of its last occurrence in the
    header, the empty string when the line is too short; an input that is
    blank or has a header line only yields no row. *)
Lemma parseCSV_rows content :
  ∃ line0 rest,
    split newline (trim content) = line0 :: rest
    ∧ let headers := trim <$> split comma line0 in
      parseCSV content = row_of headers <$> filter (λ l, trim l ≠ []) rest
      ∧ (∀ line, dom (row_of headers line)
                 = list_to_set headers ∖ {[lit "__proto__"]})
      ∧ (∀ line i h,
           headers !! i = Some h → h ≠ lit "__proto__" →
           h ∉ drop (S i) headers →
           row_of headers line !! h
           = Some (or_empty ((trim <$> split comma line) !! i)))
      ∧ (rest = [] → parseCSV content = []).
Proof.
  destruct (parseCSV_spec content) as (line0 & rest & Hsplit & Hrows).
  exists line0, rest. split; [done|]. simpl. split_and!; [done | | |].
  - intros line. unfold row_of. rewrite forEach_header_dom, dom_empty_L.
    set_solver.
  - intros line i h Hi Hh Hlast. unfold row_of.
    by rewrite (forEach_header_lookup _ 0 _ ∅ i h).
  - intros ->. by rewrite Hrows.
Qed.

(** C4, at the input where it fails. The header [__proto__,amount] names
    two columns, yet the row parsed from the line [x,5] has the single key
    [amount]: the assignment [row['__proto__'] = 'x'] reaches the inherited
    setter, which ignores a string, and creates no property. *)
Theorem parseCSV_proto_column :
  let headers := trim <$> split comma (lit "__proto__,amount") in
  headers = [lit "__proto__"; lit "amount"]
  ∧ ∃ row,
      parseCSV (lit "__proto__,amount
x,5") = [row]
      ∧ row !! lit "amount" = Some (lit "5")
      ∧ row !! lit "__proto__" = None
      ∧ dom row ≠ list_to_set headers.
Proof.
  simpl. split; [by vm_compute|].
  exists {[lit "amount" := lit "5"]}. split_and!; by vm_compute.
Qed.

(** ** Loading and summarising the results *)

Section results_page.
Context `{Host}.
Implicit Types (p : page) (results : list (gmap (list N) value)).

(** Nothing stored, an empty string, [null] or an empty array: both
    entries are removed, the page is left for the upload step, no summary
    is rendered. *)
Lemma initResultsPage_no_results p :
  localStorage p !! lit "fraudGuard_results" = None
  ∨ localStorage p !! lit "fraudGuard_results" = Some []
  ∨ (∃ c s, localStorage p !! lit "fraudGuard_results" = Some (c :: s)
            ∧ (JSON_parse (c :: s) = Some JNull
               ∨ JSON_parse (c :: s) = Some (JArray []))) →
  ∃ p', initResultsPage p = Returns p'
        ∧ localStorage p' !! lit "fraudGuard_results" = None
        ∧ localStorage p' !! lit "fraudGuard_timestamp" = None
        ∧ location_href p' = Some (lit "upload.html")
        ∧ summary_cards p' = summary_cards p
        ∧ table p' = table p.
Proof.
  intros Hstored. unfold initResultsPage.
  assert (match localStorage p !! lit "fraudGuard_results" with
          | Some (c :: s) => JSON_parse (c :: s)
          | _ => Some JNull
          end = Some JNull
          ∨ match localStorage p !! lit "fraudGuard_results" with
            | Some (c :: s) => JSON_parse (c :: s)
            | _ => Some JNull
            end = Some (JArray [])) as [-> | ->].
  { destruct Hstored as [-> | [-> | (c & s & -> & [-> | ->])]]; auto. }
  all: simpl; eexists; split; [done|]; simpl; split_and!; try done.
  all: try apply lookup_delete_eq.
  all: rewrite lookup_delete_ne by lit_neq; apply lookup_delete_eq.
Qed.

(** A stored array that is not empty is displayed, the storage kept. *)
Lemma initResultsPage_displays p c s result results :
  localStorage p !! lit "fraudGuard_results" = Some (c :: s) →
  JSON_parse (c :: s) = Some (JArray (result :: results)) →
  ∃ p', initResultsPage p = Returns p'
        ∧ localStorage p' = localStorage p
        ∧ location_href p' = location_href p
        ∧ summary_cards p'
          = Some (displayResults_summary (result :: results))
        ∧ table p' = populateResultsTable (result :: results).
Proof.
  intros Hs Hparse. unfold initResultsPage. rewrite Hs, Hparse. simpl.
  eexists. split; [done|]. by simpl.
Qed.

(** A stored JSON value that is an object without a zero [length], where an
    array is expected, passes the check and makes [displayResults] throw:
    again nothing is cleared and no navigation is requested. *)
Lemma initResultsPage_not_an_array p c s o :
  localStorage p !! lit "fraudGuard_results" = Some (c :: s) →
  JSON_parse (c :: s) = Some (JObject o) →
  o !! lit "length" ≠ Some (VNumber 0) →
  ∃ p', initResultsPage p = Throws (lit "TypeError") p'
        ∧ localStorage p' = localStorage p
        ∧ location_href p' = location_href p
        ∧ summary_cards p' = summary_cards p.
Proof.
  intros Hs Hparse Hlen. unfold initResultsPage. rewrite Hs, Hparse. simpl.
  rewrite bool_decide_eq_false_2 by done. by eexists.
Qed.

(** C8, at the input where it fails. When the stored text is no JSON,
    [JSON.parse] throws and the exception leaves [initResultsPage]: the
    two storage entries stay, no navigation is requested, nothing is
    rendered. *)
Theorem initResultsPage_malformed p c s :
  localStorage p !! lit "fraudGuard_results" = Some (c :: s) →
  JSON_parse (c :: s) = None →
  initResultsPage p = Throws (lit "SyntaxError") p.
Proof.
  intros Hs Hparse. unfold initResultsPage. by rewrite Hs, Hparse.
Qed.

Lemma fraud_rate_nonneg (frauds total : Z) :
  0 ≤ frauds → 0 < total →
  (0 <= fl (inject_Z frauds / inject_Z total) ⊗ 100)%Q.
Proof.
  intros Hf Ht. apply mul_nonneg; [|by vm_compute]. apply fl_nonneg.
  apply Qle_shift_div_l.
  - change 0%Q with (inject_Z 0). rewrite <- Zlt_Qlt. lia.
  - rewrite Qmult_0_l. change 0%Q with (inject_Z 0). rewrite <- Zle_Qle. lia.
Qed.

Lemma tenths_close (rate : Q) :
  (Qabs (inject_Z (Qfloor (rate * 10 + 1 / 2)) / 10 - rate) <= 1 / 20)%Q.
Proof.
  pose proof (Qfloor_le (rate * 10 + 1 / 2)) as Hlo.
  pose proof (Qlt_floor (rate * 10 + 1 / 2)) as Hhi.
  rewrite inject_Z_plus in Hhi.
  set (n := inject_Z (Qfloor (rate * 10 + 1 / 2))) in *.
  change (1 / 2)%Q with (1 # 2)%Q in Hlo, Hhi.
  change (inject_Z 1) with 1%Q in Hhi. clearbody n.
  change (n / 10)%Q with (n * (1 # 10))%Q. change (1 / 20)%Q with (1 # 20)%Q.
  apply Qabs_Qle_condition. split; lra.
Qed.

(** C7, as amended. [displayResults] prints the fraud rate as
    [fraudCount / total * 100] with one digit after the point, the nearest
    tenth; it has no guard of its own and prints [NaN%] for an empty
    Result Set.  That case does not reach it: for an empty stored Result
    Set [initResultsPage] leaves for the upload step and renders no
    summary. *)
Theorem fraudRate_summary results :
  let total := Z.of_nat (length results) in
  let frauds :=
    Z.of_nat (length (List.filter (status_is (lit "fraud")) results)) in
  let rate := (fl (inject_Z frauds / inject_Z total) ⊗ 100)%Q in
  let tenths := Qfloor (rate * 10 + 1 / 2) in
  (results ≠ [] →
     fraudRate (displayResults_summary results)
     = Z_toString (tenths / 10) ++ lit "." ++ [digit (tenths mod 10)]
         ++ lit "%"
     ∧ (0 <= rate)%Q
     ∧ (Qabs (inject_Z tenths / 10 - rate) <= 1 / 20)%Q)
  ∧ (results = [] → fraudRate (displayResults_summary results) = lit "NaN%")
  ∧ (∀ p c s,
       localStorage p !! lit "fraudGuard_results" = Some (c :: s) →
       JSON_parse (c :: s) = Some (JArray []) →
       ∃ p', initResultsPage p = Returns p'
             ∧ location_href p' = Some (lit "upload.html")
             ∧ summary_cards p' = summary_cards p).
Proof.
  intros total frauds rate tenths. split_and!.
  - intros Hne.
    assert (0 < total) as Ht.
    { unfold total. destruct results; [done|]. cbn [length]. lia. }
    assert (0 <= rate)%Q as Hrate by (apply fraud_rate_nonneg; lia).
    split_and!; [|done|apply tenths_close].
    unfold displayResults_summary. cbn [fraudRate].
    fold total frauds. unfold div.
    assert (Qeq_bool (inject_Z total) 0 = false) as ->.
    { apply not_true_iff_false. intros Hz%Qeq_bool_iff.
      change 0%Q with (inject_Z 0) in Hz. apply (proj1 (inject_Z_injective _ _)) in Hz. lia. }
    cbn [times toFixed1]. fold rate.
    assert (Qltb rate 0 = false) as -> by (by apply Qltb_ge).
    assert (Qfloor (Qabs rate * 10 + 1 / 2) = tenths) as ->.
    { unfold tenths. by rewrite (Qabs_pos rate Hrate). }
    simpl. by rewrite <- !(assoc_L (++)).
  - by intros ->.
  - intros p c s Hs Hparse.
    destruct (initResultsPage_no_results p) as (p' & Hp' & _ & _ & ? & ? & _).
    { right; right. exists c, s. auto. }
    by exists p'.
Qed.
End results_page.

(** The summary read literally fails on the empty Result Set: the rate shown
    is [NaN%], not a zero rate. *)
Lemma fraudRate_of_no_results :
  fraudRate (@displayResults_summary sample_host []) = lit "NaN%"
  ∧ fraudRate (@displayResults_summary sample_host []) ≠ lit "0.0%"
  ∧ fraudRate (@displayResults_summary sample_host []) ≠ lit "0%".
Proof. split_and!; by vm_compute. Qed.

Lemma initResultsPage_malformed_witness :
  let p := {| localStorage :=
                {[lit "fraudGuard_results" := lit "{";
                  lit "fraudGuard_timestamp" := lit "2024-01-01T03:00:00.000Z"]};
              location_href := None;
              window_analysisResults := None;
              window_analysisTimestamp := None;
              summary_cards := None;
              table := [] |} in
  @initResultsPage sample_host p = Throws (lit "SyntaxError") p.
Proof.
  intros p.
  apply (@initResultsPage_malformed sample_host p 123%N []); by vm_compute.
Defined.

(** ** Filtering and searching the table *)

Section visibility.
Context `{Host}.
Implicit Types (row : tr) (v : view) (mode term : list N).

Lemma filter_row_spec mode row :
  data_status (filter_row mode row) = data_status row
  ∧ textContent (filter_row mode row) = textContent row
  ∧ (visible (filter_row mode row) = true ↔ status_filter_accepts mode row).
Proof.
  unfold filter_row, status_filter_accepts.
  repeat case_bool_decide; simpl; split_and!; try done;
    (split; [try done; intros _ | try done]); try naive_solver.
Qed.

Lemma search_row_spec term row :
  data_status (search_row (trim (toLowerCase term)) row) = data_status row
  ∧ textContent (search_row (trim (toLowerCase term)) row) = textContent row
  ∧ (visible (search_row (trim (toLowerCase term)) row) = true
     ↔ search_accepts term row).
Proof.
  unfold search_row, search_accepts. cbv zeta.
  destruct (includes _ _) eqn:Hinc.
  - rewrite orb_true_r. split_and!; try done. split; [intros _ | done].
    right. by apply includes_spec.
  - rewrite orb_false_r. case_bool_decide as Hterm; split_and!; try done.
    + split; [by left | done].
    + split; [done|]. intros [?|Hsub]; [done|].
      apply includes_spec in Hsub. congruence.
Qed.

(** Alone, each handler shows exactly the rows its predicate accepts. *)
Lemma filterResults_alone mode v :
  Forall2 (λ row row', visible row' = true ↔ status_filter_accepts mode row)
          (rows v) (rows (filterResults mode v)).
Proof.
  simpl. apply Forall2_fmap_r, Forall_Forall2_diag, Forall_true.
  intros row. apply filter_row_spec.
Qed.

(** C9, as amended. The two handlers do not compose: each one sets the
    visibility of every row from its own predicate and keeps nothing of
    what the other one set.  After the status filter and then the search,
    a row is visible exactly when the trimmed lower-cased search term is
    empty or occurs in the lower-cased text of the row, whatever the
    filter; after the search and then the status filter, exactly when the
    status filter accepts it, whatever the search. *)
Theorem last_handler_decides_visibility mode term v :
  Forall2 (λ row row',
             data_status row' = data_status row
             ∧ textContent row' = textContent row
             ∧ (visible row' = true ↔ search_accepts term row))
          (rows v) (rows (searchTransactions term (filterResults mode v)))
  ∧ Forall2 (λ row row',
               data_status row' = data_status row
               ∧ textContent row' = textContent row
               ∧ (visible row' = true ↔ status_filter_accepts mode row))
            (rows v) (rows (filterResults mode (searchTransactions term v))).
Proof.
  split; simpl; apply Forall2_fmap_r, Forall2_fmap_r, Forall_Forall2_diag,
    Forall_true; intros row; simpl.
  - destruct (search_row_spec term (filter_row mode row)) as (-> & -> & ->).
    destruct (filter_row_spec mode row) as (Hs & Ht & _).
    split_and!; try done. unfold search_accepts. by rewrite Ht.
  - destruct (filter_row_spec mode (search_row (trim (toLowerCase term)) row))
      as (-> & -> & ->).
    destruct (search_row_spec term row) as (Hs & Ht & _).
    split_and!; try done. unfold status_filter_accepts. by rewrite Hs.
Qed.
End visibility.

(** Composition fails on a table with one legitimate row: under the filter
    [fraud] followed by an empty search the row is shown, though the filter
    rejects it. *)
Lemma search_shows_row_the_filter_hid :
  ¬ Forall (λ row',
              visible row' = true
              ↔ status_filter_accepts (lit "fraud") row'
                ∧ @search_accepts sample_host [] row')
      (rows (@searchTransactions sample_host []
               (filterResults (lit "fraud")
                  {| rows := [{| data_status := lit "legitimate";
                                 textContent := lit "TXN0001 Amazon";
                                 display := [] |}];
                     noResults_d_none := true;
                     currentFilter := lit "all" |}))).
Proof.
  intros Hall. apply Forall_cons in Hall as [Hrow _].
  apply proj1 in Hrow. destruct Hrow as [Haccepts _]; [by vm_compute|].
  destruct Haccepts as [Hm | [[_ Hs] | [Hm _]]];
    [by vm_compute in Hm | by vm_compute in Hs | by vm_compute in Hm].
Qed.

(** ** The pipeline on concrete inputs *)

(** The scenario of the specification: amount 6000, location Unknown, hour
    3, jitter fixed to 0. *)
Example scenario_fraud :
  (λ e, (e !! lit "riskScore", e !! lit "status", e !! lit "riskLevel"))
    <$> @performAnalysis sample_host
          (parseCSV (lit "transaction_id,amount,merchant,location,timestamp,card_number
TXN0001,6000,Amazon,Unknown,2024-01-01T03:00:00Z,****1234"))
          (draws [0%Q])
  = [(Some (VNumber 70), Some (VString (lit "fraud")),
      Some (VString (lit "High")))].
Proof. by vm_compute. Qed.

(** A score of 0 is reachable, and is exported as an empty column. *)
Example export_of_score_0 :
  exportToCSV
    (@performAnalysis sample_host
       (parseCSV (lit "transaction_id,amount,merchant,location,timestamp,card_number
TXN0002,50,Target,Boston,2024-01-01T12:00:00Z,****9999"))
       (draws [0%Q]))
  = lit "Transaction ID,Amount,Merchant,Location,Timestamp,Card Number,Risk Score,Status
TXN0002,50,Target,Boston,2024-01-01T12:00:00Z,****9999,,legitimate".
Proof. by vm_compute. Qed.

(** An unparsable amount falls in the tier below 10. *)
Example score_of_garbage :
  @calculateRiskScore sample_host 0
    {[lit "amount" := lit "abc"; lit "timestamp" := lit "never"]} = 15.
Proof. by vm_compute. Qed.

(** The summary of one fraud among three results. *)
Example summary_one_in_three :
  fraudRate
    (@displayResults_summary sample_host
       [{[lit "status" := VString (lit "fraud")]};
        {[lit "status" := VString (lit "warning")]};
        {[lit "status" := VString (lit "legitimate")]}])
  = lit "33.3%".
Proof. by vm_compute. Qed.

(** A column named [status] in the input does not reach the result: the
    computed status replaces it. *)
Example computed_status_wins :
  (λ e, (e !! lit "riskScore", e !! lit "status"))
    <$> @performAnalysis sample_host
          (parseCSV (lit "amount,status
50,fraud"))
          (draws [0%Q])
  = [(Some (VNumber 0), Some (VString (lit "legitimate")))].
Proof. by vm_compute. Qed.


(** * Further properties *)

(** ** The parser: blank lines, outer whitespace, line endings *)

Section parser_lines.
Implicit Types (s l a b : list N) (w c sep : N) (ls : list (list N)).

Lemma trimStart_whitespace a :
  Forall (λ c, is_whitespace c = true) a → trimStart a = [].
Proof. induction 1 as [|c a Hc _ IH]; simpl; [done | by rewrite Hc]. Qed.

Lemma trim_blank_iff l :
  trim l = [] ↔ Forall (λ c, is_whitespace c = true) l.
Proof.
  split.
  - intros Hl. apply Forall_forall. intros c Hc.
    destruct (is_whitespace c) eqn:Hw; [done|].
    by destruct (trim_not_blank c l).
  - intros Hl. unfold trim. by rewrite trimStart_whitespace.
Qed.

Lemma trim_cons_whitespace w l : is_whitespace w = true → trim (w :: l) = trim l.
Proof. intros Hw. unfold trim. simpl. by rewrite Hw. Qed.

Lemma trimEnd_snoc_whitespace w l :
  is_whitespace w = true → trimEnd (l ++ [w]) = trimEnd l.
Proof. intros Hw. unfold trimEnd. rewrite reverse_snoc. simpl. by rewrite Hw. Qed.

Lemma trim_snoc_whitespace w l : is_whitespace w = true → trim (l ++ [w]) = trim l.
Proof.
  intros Hw. destruct (trimStart_spec l) as (a & Hl & Ha).
  pose proof (trimStart_head l) as Hhead.
  destruct (trimStart l) as [|c m] eqn:Hm.
  - rewrite app_nil_r in Hl. subst a.
    transitivity (@nil N); [|symmetry]; apply trim_blank_iff; [|done].
    apply Forall_app. split; [done | by constructor].
  - unfold trim. rewrite Hm. rewrite Hl at 1.
    rewrite <- (assoc_L (++)). simpl.
    rewrite trimStart_app, (trimStart_whitespace a) by done. simpl.
    by rewrite app_comm_cons, trimEnd_snoc_whitespace.
Qed.

Lemma split_cons_other sep c s :
  c ≠ sep →
  ∃ l ls, split sep s = l :: ls ∧ split sep (c :: s) = (c :: l) :: ls.
Proof.
  intros Hc. pose proof (split_nonempty sep s) as Hne. simpl.
  destruct (N.eqb_spec c sep); [done|].
  destruct (split sep s) as [|l ls]; [done|]. by exists l, ls.
Qed.

Lemma split_snoc_sep sep s : split sep (s ++ [sep]) = split sep s ++ [[]].
Proof.
  induction s as [|c s IH]; simpl; [by rewrite N.eqb_refl|].
  destruct (c =? sep)%N; rewrite IH; [done|].
  pose proof (split_nonempty sep s). by destruct (split sep s).
Qed.

Lemma split_snoc_other sep c s :
  c ≠ sep →
  ∃ ls l, split sep s = ls ++ [l] ∧ split sep (s ++ [c]) = ls ++ [l ++ [c]].
Proof.
  intros Hc. induction s as [|a s (ls & l & Hs & Hsc)]; simpl.
  - destruct (N.eqb_spec c sep); [done|]. by exists [], [].
  - rewrite Hs, Hsc. destruct (a =? sep)%N.
    + by exists ([] :: ls), l.
    + destruct ls as [|l' ls]; simpl.
      * by exists [], (a :: l).
      * by exists ((a :: l') :: ls), l.
Qed.

Lemma whitespace_not_comma w : is_whitespace w = true → w ≠ comma.
Proof. by intros Hw ->. Qed.

Lemma fields_cons_whitespace w l :
  is_whitespace w = true → fields (w :: l) = fields l.
Proof.
  intros Hw. unfold fields.
  destruct (split_cons_other comma w l) as (f & fs & -> & ->);
    [by apply whitespace_not_comma|].
  by rewrite !fmap_cons, trim_cons_whitespace.
Qed.

Lemma fields_snoc_whitespace w l :
  is_whitespace w = true → fields (l ++ [w]) = fields l.
Proof.
  intros Hw. unfold fields.
  destruct (split_snoc_other comma w l) as (fs & f & -> & ->);
    [by apply whitespace_not_comma|].
  rewrite !fmap_app. cbn [fmap list_fmap]. by rewrite trim_snoc_whitespace.
Qed.

(** A line is blank exactly when its only field is empty. *)
Lemma blank_iff_fields l : trim l = [] ↔ fields l = [[]].
Proof.
  unfold fields. split.
  - intros Hl. rewrite split_no_sep; [by rewrite fmap_cons, Hl|].
    intros Hc. apply trim_blank_iff in Hl. rewrite Forall_forall in Hl.
    by specialize (Hl _ Hc).
  - intros Hf. pose proof (join_split comma l) as Hj.
    destruct (split comma l) as [|p [|q ps]]; [done| |done].
    simpl in Hj. subst p. by injection Hf.
Qed.

Lemma rows_of_lines_fields ls ls' :
  Forall2 (λ l l', fields l = fields l') ls ls' →
  rows_of_lines ls = rows_of_lines ls'.
Proof.
  assert (∀ headers ks ks',
            Forall2 (λ l l', fields l = fields l') ks ks' →
            row_of headers <$> filter (λ l, trim l ≠ []) ks
            = row_of headers <$> filter (λ l, trim l ≠ []) ks') as Hrows.
  { intros headers ks ks'. induction 1 as [|l l' ks ks' Hl _ IH]; [done|].
    assert (trim l = [] ↔ trim l' = []) as Hblank
      by (by rewrite !blank_iff_fields, Hl).
    destruct (decide (trim l = [])) as [Hb|Hb].
    - rewrite !filter_cons_False by naive_solver. done.
    - rewrite !filter_cons_True by naive_solver. rewrite !fmap_cons, IH.
      f_equal. unfold row_of. fold (fields l) (fields l'). by rewrite Hl. }
  induction 1 as [|l l' ls ls' Hl Hls IH]; simpl; [done|].
  assert (trim l = [] ↔ trim l' = []) as Hblank
    by (by rewrite !blank_iff_fields, Hl).
  repeat case_bool_decide; try naive_solver.
  rewrite Hl. by apply Hrows.
Qed.

Lemma rows_of_lines_snoc_blank ls : rows_of_lines (ls ++ [[]]) = rows_of_lines ls.
Proof.
  induction ls as [|l ls IH]; simpl; [done|].
  case_bool_decide; [done|].
  by rewrite filter_app, (filter_cons_False _ []), app_nil_r by naive_solver.
Qed.

Lemma Forall2_fields_refl ls : Forall2 (λ l l', fields l = fields l') ls ls.
Proof. by apply Forall_Forall2_diag, Forall_true. Qed.

Lemma rows_of_lines_strip_front a s :
  Forall (λ c, is_whitespace c = true) a →
  rows_of_lines (split newline (a ++ s)) = rows_of_lines (split newline s).
Proof.
  induction 1 as [|w a Hw _ IH]; [done|]. rewrite <- IH.
  destruct (decide (w = newline)) as [->|Hnl].
  - change (split newline ((newline :: a) ++ s))
      with ([] :: split newline (a ++ s)).
    cbn [rows_of_lines]. by rewrite bool_decide_eq_true_2.
  - destruct (split_cons_other newline w (a ++ s) Hnl) as (l & ls & Hs & Hws).
    change ((w :: a) ++ s) with (w :: (a ++ s)). rewrite Hws, Hs.
    apply rows_of_lines_fields. constructor; [|apply Forall2_fields_refl].
    by apply fields_cons_whitespace.
Qed.

Lemma rows_of_lines_strip_back s b :
  Forall (λ c, is_whitespace c = true) b →
  rows_of_lines (split newline (s ++ b)) = rows_of_lines (split newline s).
Proof.
  intros Hb. revert s. induction Hb as [|w b Hw _ IH]; intros s.
  - by rewrite app_nil_r.
  - rewrite (cons_middle w s b), (assoc_L (++)), IH.
    destruct (decide (w = newline)) as [->|Hnl].
    + by rewrite split_snoc_sep, rows_of_lines_snoc_blank.
    + destruct (split_snoc_other newline w s Hnl) as (ls & l & -> & ->).
      apply rows_of_lines_fields, Forall2_app; [apply Forall2_fields_refl|].
      constructor; [|constructor]. by apply fields_snoc_whitespace.
Qed.

Lemma parseCSV_trimmed_lines content :
  parseCSV content = rows_of_lines (split newline (trim content)).
Proof.
  unfold parseCSV. pose proof (trimStart_trim content) as Hhead.
  destruct (trim content) as [|c t] eqn:Ht; [done|].
  simpl in Hhead. destruct (is_whitespace c) eqn:Hc.
  { exfalso. pose proof (trimStart_head t) as H. rewrite Hhead in H.
    simpl in H. congruence. }
  assert (c ≠ newline) as Hnl by (by intros ->).
  destruct (split_cons_other newline c t Hnl) as (l & ls & _ & ->).
  simpl. rewrite bool_decide_eq_false_2.
  - by rewrite parseCSV_loop_spec.
  - apply (trim_not_blank c); [apply elem_of_cons; auto | done].
Qed.

Lemma parseCSV_lines content :
  parseCSV content = rows_of_lines (split newline content).
Proof.
  rewrite parseCSV_trimmed_lines.
  destruct (trim_spec content) as (a & b & Hc & Ha & Hb).
  rewrite Hc at 2.
  by rewrite rows_of_lines_strip_front, rows_of_lines_strip_back.
Qed.

(** X1. [parseCSV] reads its input line by line: the first line that is
    not blank is the header, every later line that is not blank gives one
    row; blank lines anywhere and whitespace around the text change
    nothing. *)
Theorem parseCSV_line_by_line content :
  parseCSV content = rows_of_lines (split newline content)
  ∧ ∀ a b,
      Forall (λ c, is_whitespace c = true) a →
      Forall (λ c, is_whitespace c = true) b →
      parseCSV (a ++ content ++ b) = parseCSV content.
Proof.
  split; [apply parseCSV_lines|]. intros a b Ha Hb.
  by rewrite !parseCSV_lines, rows_of_lines_strip_front,
    rows_of_lines_strip_back.
Qed.

Lemma split_crlf s :
  Forall2 (λ l l', l' = l ∨ l' = l ++ [13%N])
          (split newline s) (split newline (crlf s)).
Proof.
  induction s as [|c s IH]; simpl; [repeat constructor; by left|].
  destruct (N.eqb_spec c newline) as [->|Hc].
  - change (13%N :: newline :: crlf s) with ([13%N] ++ newline :: crlf s).
    rewrite split_app_sep by (by intros ?%list_elem_of_singleton).
    constructor; [by right | done].
  - destruct (split_cons_other newline c (crlf s) Hc) as (l' & ls' & Hs' & ->).
    rewrite Hs' in IH.
    destruct (split newline s) as [|l ls]; inversion IH as [|? ? ? ? Hl Hls]; subst.
    constructor; [|done]. destruct Hl as [->| ->]; [by left | by right].
Qed.

(** X2. Windows line endings are tolerated: putting a carriage return
    before every newline of the input does not change the rows parsed. *)
Theorem parseCSV_crlf content : parseCSV (crlf content) = parseCSV content.
Proof.
  rewrite !parseCSV_lines. symmetry.
  apply rows_of_lines_fields. eapply Forall2_impl; [apply split_crlf|].
  intros l l' [->| ->]; [done|]. symmetry.
  by apply fields_snoc_whitespace.
Qed.
End parser_lines.

Section surplus_fields.
Implicit Types (headers values : list (list N)) (line extra : list N).

Lemma split_app_sep_all sep (a b : list N) :
  split sep (a ++ sep :: b) = split sep a ++ split sep b.
Proof.
  induction a as [|c a IH]; simpl; [by rewrite N.eqb_refl|].
  rewrite IH. destruct (c =? sep)%N; [done|].
  pose proof (split_nonempty sep a). by destruct (split sep a).
Qed.

Lemma forEach_header_ext headers (index : nat) values values'
    (row : gmap (list N) (list N)) :
  (∀ i, (i < length headers)%nat →
        values !! (index + i)%nat = values' !! (index + i)%nat) →
  forEach_header headers index values row
  = forEach_header headers index values' row.
Proof.
  revert index row. induction headers as [|h headers IH]; intros index row Hv.
  - done.
  - simpl. pose proof (Hv 0%nat ltac:(simpl; lia)) as H0.
    rewrite Nat.add_0_r in H0. rewrite H0.
    apply IH. intros i Hi. specialize (Hv (S i) ltac:(simpl; lia)).
    by rewrite Nat.add_succ_r in Hv.
Qed.

(** X3. A data line longer than the header loses its surplus: fields after
    the last header column do not reach the row. *)
Theorem row_of_surplus_fields headers line extra :
  (length headers ≤ length (fields line))%nat →
  row_of headers (line ++ comma :: extra) = row_of headers line.
Proof.
  intros Hlen. unfold row_of. fold (fields line).
  rewrite split_app_sep_all, fmap_app. fold (fields line) (fields extra).
  apply forEach_header_ext. intros i Hi. simpl.
  apply lookup_app_l. lia.
Qed.
End surplus_fields.

Lemma row_of_surplus_fields_witness :
  row_of [lit "a"; lit "b"] (lit "1,2" ++ comma :: lit "3,4")
  = row_of [lit "a"; lit "b"] (lit "1,2").
Proof.
  apply (row_of_surplus_fields [lit "a"; lit "b"] (lit "1,2") (lit "3,4")).
  vm_compute. lia.
Defined.

(** ** The fraud indicators *)

Section indicators.
Context `{Host}.
Implicit Types (g : nat → Q) (sel picked available : list (list N)).

Lemma unit_draws_tail g : unit_draws g → unit_draws (g ∘ S).
Proof. intros Hg n. apply (Hg (S n)). Qed.

Lemma draw_index g (len : nat) :
  unit_draws g → (1 ≤ len ≤ 8)%nat →
  0 ≤ Math_floor (g O ⊗ inject_Z (Z.of_nat len)) < Z.of_nat len.
Proof.
  intros Hg Hlen. destruct (Hg O) as [H0 Hk].
  specialize (Hk (Z.of_nat len) ltac:(lia)). unfold Math_floor. split.
  - change 0 with (Qfloor 0). apply Qfloor_resp_le, mul_nonneg; [done|].
    change 0%Q with (inject_Z 0). rewrite <- Zle_Qle. lia.
  - apply Z.lt_nge. intros Hge. rewrite Zle_Qle in Hge.
    pose proof (Qfloor_le (g O ⊗ inject_Z (Z.of_nat len))) as Hfl.
    apply (Qlt_irrefl (inject_Z (Z.of_nat len))).
    eapply Qle_lt_trans; [|exact Hk]. by eapply Qle_trans.
Qed.

Lemma select_indicators_rng count selected available g n :
  (select_indicators count selected available g).2 n = g (count + n)%nat.
Proof.
  revert selected available g. induction count as [|count IH];
    intros selected available g; simpl; [done|].
  by rewrite IH.
Qed.

(** The loop samples without replacement. *)
Lemma select_indicators_spec count sel available g :
  unit_draws g → (count ≤ length available ≤ 8)%nat →
  ∃ picked rest,
    (select_indicators count (Some <$> sel) available g).1
    = Some <$> (sel ++ picked)
    ∧ length picked = count
    ∧ picked ++ rest ≡ₚ available.
Proof.
  revert sel available g. induction count as [|count IH];
    intros sel available g Hg Hlen.
  - exists [], available. by rewrite app_nil_r.
  - cbn [select_indicators].
    destruct (draw_index g (length available) Hg ltac:(lia)) as [Hlo Hhi].
    set (index := Math_floor (g O ⊗ inject_Z (Z.of_nat (length available)))) in *.
    destruct (lookup_lt_is_Some_2 available (Z.to_nat index)) as [x Hx]; [lia|].
    assert (at_index available index = Some x) as ->.
    { unfold at_index. by rewrite (proj2 (Z.ltb_ge _ _) Hlo). }
    assert (splice1 index available = delete (Z.to_nat index) available) as ->.
    { unfold splice1. rewrite (proj2 (Z.ltb_ge _ _) Hlo). f_equal. lia. }
    destruct (IH (sel ++ [x]) (delete (Z.to_nat index) available) (g ∘ S))
      as (picked & rest & Hsel & Hp & Hperm).
    { by apply unit_draws_tail. }
    { rewrite length_delete by eauto. lia. }
    exists (x :: picked), rest. split_and!.
    + rewrite fmap_app in Hsel. cbn [fmap list_fmap] in Hsel.
      rewrite Hsel, <- (assoc_L (++)). done.
    + simpl. by rewrite Hp.
    + simpl. rewrite Hperm. symmetry. by apply delete_Permutation.
Qed.

Lemma indicator_count g :
  unit_draws g → 2 ≤ Math_floor (g O ⊗ 3%Q) + 2 ≤ 4.
Proof.
  intros Hg. pose proof (draw_index g 3 Hg ltac:(lia)) as Hi.
  change (inject_Z (Z.of_nat 3)) with 3%Q in Hi. lia.
Qed.

Lemma generateFraudIndicators_picks g :
  unit_draws g →
  ∃ picked,
    (generateFraudIndicators g).1 = Some <$> picked
    ∧ (2 ≤ length picked ≤ 4)%nat
    ∧ NoDup picked
    ∧ picked ⊆ indicator_catalog.
Proof.
  intros Hg. unfold generateFraudIndicators.
  pose proof (indicator_count g Hg) as Hcount.
  destruct (select_indicators_spec (Z.to_nat (Math_floor (g O ⊗ 3%Q) + 2)) []
              indicator_catalog (g ∘ S)) as (picked & rest & Hsel & Hp & Hperm).
  { by apply unit_draws_tail. }
  { change (length indicator_catalog) with 8%nat. lia. }
  exists picked. split_and!; [done | lia | lia | |].
  - assert (NoDup (picked ++ rest)) as Hnd.
    { rewrite Hperm. closed_fact. }
    by apply NoDup_app in Hnd as [? _].
  - intros x Hx. rewrite <- Hperm. apply elem_of_app. by left.
Qed.
(** X4. With every draw in [[0, 1)], [generateFraudIndicators] returns
    two, three or four indicators, each an entry of the catalog and no two
    the same; no element is [undefined]. *)
Theorem generateFraudIndicators_sample g :
  unit_draws g →
  ∃ picked,
    (generateFraudIndicators g).1 = Some <$> picked
    ∧ (2 ≤ length picked ≤ 4)%nat
    ∧ NoDup picked
    ∧ picked ⊆ indicator_catalog.
Proof. apply generateFraudIndicators_picks. Qed.
End indicators.

Lemma generateFraudIndicators_sample_witness :
  ∃ picked,
    (@generateFraudIndicators sample_host (λ _, 1 # 2)%Q).1 = Some <$> picked
    ∧ (2 ≤ length picked ≤ 4)%nat
    ∧ NoDup picked
    ∧ picked ⊆ indicator_catalog.
Proof.
  apply (@generateFraudIndicators_sample sample_host (λ _, 1 # 2)%Q).
  intros n. split; [by vm_compute|]. intros k Hk.
  unfold mul. simpl. unfold Qlt. simpl. lia.
Defined.

(** ** The pipeline, continued *)

Section pipeline_draws.
Context `{Host}.
Implicit Types (transaction : gmap (list N) (list N)) (g : nat → Q).
Implicit Types (e : gmap (list N) value).

Lemma determineFraudStatus_fraud (s : Z) :
  determineFraudStatus s = lit "fraud" ↔ 70 ≤ s.
Proof.
  unfold determineFraudStatus.
  destruct (Z.leb_spec 70 s); [done|].
  split; [|lia]. destruct (50 <=? s); lit_neq.
Qed.

Lemma determineFraudStatus_cases (s : Z) :
  determineFraudStatus s ∈ [lit "fraud"; lit "warning"; lit "legitimate"].
Proof.
  unfold determineFraudStatus.
  destruct (70 <=? s); [|destruct (50 <=? s)]; set_solver.
Qed.

(** The draws left after a round are a tail of the draws before it. *)
Lemma analyse_rng transaction g :
  ∃ k, ∀ n, (analyse transaction g).2 n = g (k + n)%nat.
Proof.
  unfold analyse. case_bool_decide.
  - destruct (generateFraudIndicators (g ∘ S)) as [inds g'] eqn:Hgen.
    simpl. unfold generateFraudIndicators in Hgen.
    eexists (S (S _)). intros n.
    apply (f_equal snd) in Hgen. simpl in Hgen. subst g'.
    by rewrite select_indicators_rng.
  - by exists 1%nat.
Qed.

Lemma analyse_indicators transaction g :
  (analyse transaction g).1 !! lit "indicators"
  = Some (VArray
            (if bool_decide
                  (determineFraudStatus (calculateRiskScore (g O) transaction)
                   = lit "fraud")
             then (generateFraudIndicators (g ∘ S)).1 else [])).
Proof.
  unfold analyse. case_bool_decide.
  - destruct (generateFraudIndicators (g ∘ S)) as [inds g']. simpl.
    rewrite lookup_insert_ne by lit_neq. apply lookup_insert_eq.
  - simpl. rewrite lookup_insert_ne by lit_neq. apply lookup_insert_eq.
Qed.

Lemma analyse_dom transaction g :
  dom (analyse transaction g).1 = dom transaction ∪ list_to_set computed_keys.
Proof.
  unfold analyse.
  destruct (if bool_decide _ then _ else _) as [inds g']. simpl.
  rewrite !dom_insert_L, dom_fmap_L. unfold computed_keys. set_solver.
Qed.

(** A relation between rows and results that holds in every round, for
    draws that stay within a set, holds along the whole run. *)
Lemma performAnalysis_pointwise (D : Q → Prop)
    (R : gmap (list N) (list N) → gmap (list N) value → Prop) :
  (∀ transaction g, (∀ n, D (g n)) → R transaction (analyse transaction g).1) →
  ∀ transactions g,
    (∀ n, D (g n)) → Forall2 R transactions (performAnalysis transactions g).
Proof.
  intros HR transactions g Hg. unfold performAnalysis.
  assert (∀ analysisResults,
            ∃ results,
              (performAnalysis_loop transactions analysisResults g).1
              = analysisResults ++ results
              ∧ Forall2 R transactions results) as Hloop.
  { revert g Hg. induction transactions as [|t transactions IH];
      intros g Hg analysisResults; simpl.
    - exists []. by rewrite app_nil_r.
    - pose proof (HR t g Hg) as Ht.
      destruct (analyse_rng t g) as [k Hk].
      destruct (analyse t g) as [e g']. simpl in *.
      destruct (IH g' (λ n, eq_ind_r D (Hg _) (Hk n)) (analysisResults ++ [e]))
        as (results & -> & Hres).
      exists (e :: results). split; [by rewrite <- (assoc_L (++))|].
      by constructor. }
  by destruct (Hloop []) as (results & -> & Hres).
Qed.

(** X5. The Result Set has one result per row, in the order of the rows,
    and a result has exactly the columns of its row and the four computed
    properties; every column not named like a computed property keeps its
    value. *)
Theorem performAnalysis_keeps_rows transactions g :
  Forall2 (λ transaction e,
             dom e = dom transaction ∪ list_to_set computed_keys
             ∧ ∀ k, k ∉ computed_keys → e !! k = VString <$> transaction !! k)
          transactions (performAnalysis transactions g).
Proof.
  apply performAnalysis_Forall2. intros t g'. split.
  - apply analyse_dom.
  - by destruct (analyse_lookup t g') as (_ & _ & _ & _ & ?).
Qed.

(** X6. When no draw is negative, every result of a run carries an integer
    [riskScore] from 0 to 100. *)
Theorem performAnalysis_scores transactions g :
  (∀ n, (0 <= g n)%Q) →
  Forall (λ e, ∃ s : Z, e !! lit "riskScore" = Some (VNumber s) ∧ 0 ≤ s ≤ 100)
         (performAnalysis transactions g).
Proof.
  intros Hg. eapply Forall2_Forall_r.
  - apply (performAnalysis_pointwise (λ r, (0 <= r)%Q)
             (λ _ e, ∃ s : Z, e !! lit "riskScore" = Some (VNumber s)
                              ∧ 0 ≤ s ≤ 100)); [|done].
    intros t g' Hg'. destruct (analyse_lookup t g') as (Hs & _).
    eexists. split; [done|]. by apply score_range.
  - apply Forall_true. by intros e t He.
Qed.

Lemma performAnalysis_shape transactions g :
  unit_draws g →
  Forall (λ e,
            ∃ (s : Z) picked,
              e !! lit "riskScore" = Some (VNumber s)
              ∧ e !! lit "status" = Some (VString (determineFraudStatus s))
              ∧ e !! lit "indicators" = Some (VArray (Some <$> picked))
              ∧ NoDup picked
              ∧ picked ⊆ indicator_catalog
              ∧ (70 ≤ s → (2 ≤ length picked ≤ 4)%nat)
              ∧ (s < 70 → picked = []))
         (performAnalysis transactions g).
Proof.
  intros Hg. eapply Forall2_Forall_r.
  - apply (performAnalysis_pointwise
             (λ r, (0 <= r)%Q
                   ∧ ∀ k : Z, 1 ≤ k ≤ 8 → (r ⊗ inject_Z k < inject_Z k)%Q)
             (λ _ e,
                ∃ (s : Z) picked,
                  e !! lit "riskScore" = Some (VNumber s)
                  ∧ e !! lit "status" = Some (VString (determineFraudStatus s))
                  ∧ e !! lit "indicators" = Some (VArray (Some <$> picked))
                  ∧ NoDup picked
                  ∧ picked ⊆ indicator_catalog
                  ∧ (70 ≤ s → (2 ≤ length picked ≤ 4)%nat)
                  ∧ (s < 70 → picked = []))); [|exact Hg].
    intros t g' Hg'.
    destruct (analyse_lookup t g') as (Hs & Hst & _).
    pose proof (analyse_indicators t g') as Hi.
    exists (calculateRiskScore (g' O) t).
    case_bool_decide as Hfraud.
    + apply determineFraudStatus_fraud in Hfraud.
      destruct (generateFraudIndicators_picks (g' ∘ S))
        as (picked & Hp & Hlen & Hnd & Hsub); [by apply unit_draws_tail|].
      exists picked. rewrite Hp in Hi. split_and!; try done. lia.
    + exists []. split_and!; try done.
      * constructor.
      * apply list_subseteq_nil.
      * intros Hge. by apply determineFraudStatus_fraud in Hge.
  - apply Forall_true. by intros e t He.
Qed.

(** X7. With every draw in [[0, 1)], a result carries indicators exactly
    when its score is 70 or more, that is when its status is [fraud]: then
    two to four of them, distinct entries of the catalog; otherwise none. *)
Theorem performAnalysis_indicators transactions g :
  unit_draws g →
  Forall (λ e,
            ∃ (s : Z) picked,
              e !! lit "riskScore" = Some (VNumber s)
              ∧ e !! lit "status" = Some (VString (determineFraudStatus s))
              ∧ e !! lit "indicators" = Some (VArray (Some <$> picked))
              ∧ NoDup picked
              ∧ picked ⊆ indicator_catalog
              ∧ (70 ≤ s → (2 ≤ length picked ≤ 4)%nat)
              ∧ (s < 70 → picked = []))
         (performAnalysis transactions g).
Proof. apply performAnalysis_shape. Qed.
End pipeline_draws.

Lemma performAnalysis_scores_witness :
  Forall (λ e, ∃ s : Z, e !! lit "riskScore" = Some (VNumber s) ∧ 0 ≤ s ≤ 100)
         (@performAnalysis sample_host
            (parseCSV (lit "amount,location
6000,Unknown
12,Boston"))
            (λ _, 1 # 2)%Q).
Proof.
  apply (@performAnalysis_scores sample_host). intros n. by vm_compute.
Defined.

Lemma performAnalysis_indicators_witness :
  Forall (λ e,
            ∃ (s : Z) picked,
              e !! lit "riskScore" = Some (VNumber s)
              ∧ e !! lit "status" = Some (VString (determineFraudStatus s))
              ∧ e !! lit "indicators" = Some (VArray (Some <$> picked))
              ∧ NoDup picked
              ∧ picked ⊆ indicator_catalog
              ∧ (70 ≤ s → (2 ≤ length picked ≤ 4)%nat)
              ∧ (s < 70 → picked = []))
         (@performAnalysis sample_host
            (parseCSV (lit "amount,location
6000,Unknown
12,Boston"))
            (λ _, 1 # 2)%Q).
Proof.
  apply (@performAnalysis_indicators sample_host).
  intros n. split; [by vm_compute|]. intros k Hk.
  unfold mul. simpl. unfold Qlt. simpl. lia.
Defined.

(** ** The progress display *)

Section progress.
Context `{Host}.

Lemma progress_lookup (transactions : list (gmap (list N) (list N))) i u :
  performAnalysis_progress transactions !! i = Some u
  ↔ (i < length transactions)%nat
    ∧ u = progress_update_at i (length transactions).
Proof.
  unfold performAnalysis_progress. rewrite list_lookup_fmap. split.
  - destruct (seq 0 (length transactions) !! i) as [j|] eqn:Hj; [|done].
    apply lookup_seq in Hj as [-> Hi]. simpl. by intros [= <-].
  - intros [Hi ->].
    by rewrite (proj2 (lookup_seq 0 (length transactions) i i)).
Qed.

Lemma percent_monotone (i j n : nat) :
  (i ≤ j)%nat → (0 < n)%nat →
  (fl (inject_Z (Z.of_nat i + 1) / inject_Z (Z.of_nat n)) ⊗ 100
   <= fl (inject_Z (Z.of_nat j + 1) / inject_Z (Z.of_nat n)) ⊗ 100)%Q.
Proof.
  intros Hij Hn. unfold mul. apply fl_monotone.
  apply Qmult_le_compat_r; [|by vm_compute]. apply fl_monotone.
  unfold Qdiv. apply Qmult_le_compat_r.
  - rewrite <- Zle_Qle. lia.
  - apply Qinv_le_0_compat. change 0%Q with (inject_Z 0).
    rewrite <- Zle_Qle. lia.
Qed.

Lemma percent_of_all (n : nat) :
  (0 < n)%nat →
  (fl (inject_Z (Z.of_nat n) / inject_Z (Z.of_nat n)) ⊗ 100 == 100)%Q.
Proof.
  intros Hn. unfold mul.
  assert (fl (inject_Z (Z.of_nat n) / inject_Z (Z.of_nat n)) == 1)%Q as H1.
  { transitivity (fl (inject_Z 1)); [|apply fl_integer; by vm_compute].
    apply fl_proper. apply Qmult_inv_r. change 0%Q with (inject_Z 0).
    rewrite inject_Z_injective. lia. }
  transitivity (fl (inject_Z 100)); [|apply fl_integer; by vm_compute].
  apply fl_proper. by rewrite H1.
Qed.

Lemma stage_of_first (n : nat) :
  Math_floor (fl (inject_Z (Z.of_nat 0) / inject_Z (Z.of_nat n))
              ⊗ inject_Z (Z.of_nat (length stages))) = 0.
Proof.
  unfold Math_floor, mul.
  assert (fl (inject_Z (Z.of_nat 0) / inject_Z (Z.of_nat n)) == 0)%Q as H0.
  { transitivity (fl (inject_Z 0)); [|apply fl_integer; by vm_compute].
    apply fl_proper. unfold Qdiv. apply Qmult_0_l. }
  transitivity (Qfloor 0); [|done]. apply Qfloor_comp.
  transitivity (fl (inject_Z 0)); [|apply fl_integer; by vm_compute].
  apply fl_proper. rewrite H0. apply Qmult_0_l.
Qed.

(** X8. During a run over at least one row the progress display gets one
    update per row; the percentage never decreases, the first update shows
    the first stage label, and the last one shows exactly 100% with all
    rows counted as processed. *)
Theorem progress_reaches_100 (transactions : list (gmap (list N) (list N))) :
  transactions ≠ [] →
  let updates := performAnalysis_progress transactions in
  length updates = length transactions
  ∧ (∀ i j u u',
       (i ≤ j)%nat → updates !! i = Some u → updates !! j = Some u' →
       (progress_percent u <= progress_percent u')%Q)
  ∧ (∃ u, updates !! 0%nat = Some u
          ∧ progressText_textContent u
            = Some (lit "Initializing fraud detection model..."))
  ∧ (∃ u, last updates = Some u
          ∧ (progress_percent u == 100)%Q
          ∧ progressBar_textContent u = lit "100%"
          ∧ processedCount_textContent u
            = Z_toString (Z.of_nat (length transactions))).
Proof.
  intros Hne updates.
  assert (0 < length transactions)%nat as Hn by (destruct transactions; [done | simpl; lia]).
  split_and!.
  - unfold updates, performAnalysis_progress. by rewrite length_fmap, length_seq.
  - intros i j u u' Hij [Hi ->]%progress_lookup [Hj ->]%progress_lookup.
    by apply percent_monotone.
  - exists (progress_update_at 0 (length transactions)). split.
    + by apply progress_lookup.
    + unfold progress_update_at. cbn [progressText_textContent].
      by rewrite stage_of_first.
  - unfold updates, performAnalysis_progress.
    destruct (length transactions) as [|m] eqn:Hm; [lia|].
    rewrite seq_S, fmap_app. cbn [fmap list_fmap]. rewrite last_snoc.
    eexists. split; [done|].
    assert (Z.of_nat (0 + m) + 1 = Z.of_nat (S m)) as Hsucc by lia.
    unfold progress_update_at.
    cbn [progress_percent progressBar_textContent processedCount_textContent].
    rewrite Hsucc.
    pose proof (percent_of_all (S m) ltac:(lia)) as H100.
    split_and!; [done | | done].
    by rewrite (Math_round_proper _ _ H100).
Qed.
End progress.

Lemma progress_reaches_100_witness :
  ∃ u, last (@performAnalysis_progress sample_host
               (parseCSV (lit "amount
1
2
3"))) = Some u
       ∧ progressBar_textContent u = lit "100%".
Proof.
  destruct (@progress_reaches_100 sample_host
              (parseCSV (lit "amount
1
2
3"))) as (_ & _ & _ & u & Hu & _ & Ht & _); [by vm_compute|].
  by exists u.
Defined.

(** ** The upload page *)

Section upload.
Context `{Host}.



Lemma upload_step_ok u ev : upload_ok u → upload_ok (upload_step u ev).
Proof.
  intros [Hbtn Hname]. destruct ev as [[f|]| |g]; simpl.
  - unfold handleFileSelection.
    destruct (endsWith (file_name f) (lit ".csv")) eqn:Hf; simpl.
    + split; simpl; [done|]. by intros ? [= <-].
    + by split.
  - by split.
  - by split.
  - unfold analyzeTransactions. by destruct (uploadedFile u); split.
Qed.

(** X10. On the upload page, whatever the user does, the analyse button is
    enabled exactly when a file is held, the file held has a name ending in
    [.csv], and an analysis that runs is the analysis of that file. *)
Theorem upload_page_invariant (u : upload_page) (events : list upload_event) :
  upload_ok u →
  let u' := foldl upload_step u events in
  upload_ok u'
  ∧ ∀ g results,
      (analyzeTransactions g u').2 = Some results →
      ∃ f, uploadedFile u' = Some f
           ∧ endsWith (file_name f) (lit ".csv") = true
           ∧ results = performAnalysis (parseCSV (file_text f)) g.
Proof.
  intros Hu. simpl.
  assert (upload_ok (foldl upload_step u events)) as Hok.
  { revert u Hu. induction events as [|ev events IH]; intros u Hu; [done|].
    simpl. by apply IH, upload_step_ok. }
  split; [done|]. intros g results. unfold analyzeTransactions.
  destruct (uploadedFile (foldl upload_step u events)) as [f|] eqn:Hf; [|done].
  simpl. intros [= <-]. exists f. split_and!; [done | | done].
  by apply Hok.
Qed.
End upload.


Lemma upload_page_invariant_witness :
  upload_ok
    (foldl (@upload_step sample_host)
       {| uploadedFile := None; csvData := []; fileInfo_d_none := true;
          fileName_textContent := []; fileRows_textContent := [];
          analyzeBtn_disabled := true; alerts := [] |}
       [FileChosen (Some {| file_name := lit "notes.txt";
                            file_text := lit "x" |});
        FileChosen (Some {| file_name := lit "may.csv";
                            file_text := lit "amount
5" |});
        AnalyzeClicked (λ _, 0%Q)]).
Proof.
  apply (@upload_page_invariant sample_host). split; [done|]. by intros f.
Defined.

(** ** From the analysis to the results page *)

Section handoff.
Context `{Host}.

(** X11. When [JSON.parse] gives back the Result Set that
    [JSON.stringify] wrote, the results page opened after [saveResults]
    shows the summary and the table of that Result Set and remembers the
    time of the analysis; for an empty Result Set it removes both entries
    and leaves for the upload step instead. *)
Theorem results_handoff
    (stringify : list (gmap (list N) value) → list N) (now : list N)
    (results : list (gmap (list N) value)) (storage : gmap (list N) (list N)) :
  stringify results ≠ [] →
  JSON_parse (stringify results) = Some (JArray results) →
  ∃ p',
    initResultsPage
      (fresh_results_page (saveResults stringify now results storage))
    = Returns p'
    ∧ (results = [] →
       location_href p' = Some (lit "upload.html")
       ∧ summary_cards p' = None
       ∧ localStorage p' !! lit "fraudGuard_results" = None
       ∧ localStorage p' !! lit "fraudGuard_timestamp" = None)
    ∧ (results ≠ [] →
       location_href p' = None
       ∧ summary_cards p' = Some (displayResults_summary results)
       ∧ table p' = populateResultsTable results
       ∧ window_analysisTimestamp p' = Some now
       ∧ localStorage p' = saveResults stringify now results storage).
Proof.
  intros Hne Hparse.
  assert (localStorage
            (fresh_results_page (saveResults stringify now results storage))
            !! lit "fraudGuard_results" = Some (stringify results)) as Hr.
  { simpl. unfold saveResults.
    rewrite lookup_insert_ne by lit_neq. apply lookup_insert_eq. }
  assert (localStorage
            (fresh_results_page (saveResults stringify now results storage))
            !! lit "fraudGuard_timestamp" = Some now) as Ht.
  { simpl. unfold saveResults. apply lookup_insert_eq. }
  unfold initResultsPage. rewrite Hr, Ht.
  destruct (stringify results) as [|c s] eqn:Hs; [done|].
  rewrite Hparse. destruct results as [|r results]; simpl.
  - eexists. split; [done|]. simpl. split; [|done]. intros _.
    split_and!; try done.
    + rewrite lookup_delete_ne by lit_neq. apply lookup_delete_eq.
    + apply lookup_delete_eq.
  - eexists. split; [done|]. simpl. split; [done|]. by intros _.
Qed.
End handoff.

Lemma results_handoff_witness :
  (∃ p',
     @initResultsPage sample_host_objects
       (fresh_results_page (saveResults (λ _, lit "[{}]")
                              (lit "2024-01-01T03:00:00.000Z") [∅] ∅))
     = Returns p'
     ∧ location_href p' = None
     ∧ summary_cards p'
       = Some (@displayResults_summary sample_host_objects [∅])
     ∧ table p' = @populateResultsTable sample_host_objects [∅]
     ∧ window_analysisTimestamp p' = Some (lit "2024-01-01T03:00:00.000Z"))
  ∧ (∃ p',
       @initResultsPage sample_host
         (fresh_results_page (saveResults (λ _, lit "[]")
                                (lit "2024-01-01T03:00:00.000Z") [] ∅))
       = Returns p'
       ∧ location_href p' = Some (lit "upload.html")).
Proof.
  split.
  - destruct (@results_handoff sample_host_objects (λ _, lit "[{}]")
                (lit "2024-01-01T03:00:00.000Z") [∅] ∅)
      as (p' & Hp & _ & Hshown); [lit_neq | by vm_compute |].
    exists p'. split; [done|].
    destruct Hshown as (? & ? & ? & ? & _); done.
  - destruct (@results_handoff sample_host (λ _, lit "[]")
                (lit "2024-01-01T03:00:00.000Z") [] ∅)
      as (p' & Hp & Hempty & _); [lit_neq | by vm_compute |].
    exists p'. split; [done|]. by apply Hempty.
Defined.

(** ** The results view over a run of the analysis *)

Section results_view.
Context `{Host}.

Lemma performAnalysis_status transactions g :
  Forall (λ e, ∃ s : Z,
            e !! lit "riskScore" = Some (VNumber s)
            ∧ e !! lit "status" = Some (VString (determineFraudStatus s)))
         (performAnalysis transactions g).
Proof.
  eapply Forall2_Forall_r.
  - apply (performAnalysis_Forall2
             (λ _ e, ∃ s : Z,
                e !! lit "riskScore" = Some (VNumber s)
                ∧ e !! lit "status" = Some (VString (determineFraudStatus s)))).
    intros t g'. destruct (analyse_lookup t g') as (Hs & Hst & _). by eexists.
  - apply Forall_true. by intros e t He.
Qed.

Lemma performAnalysis_length transactions g :
  length (performAnalysis transactions g) = length transactions.
Proof.
  symmetry. eapply Forall2_length.
  by apply (performAnalysis_Forall2 (λ _ _, True)).
Qed.

Lemma scores_of (results : list (gmap (list N) value)) :
  Forall (λ e, ∃ s : Z,
            e !! lit "riskScore" = Some (VNumber s)
            ∧ e !! lit "status" = Some (VString (determineFraudStatus s)))
         results →
  ∃ scores : list Z,
    Forall2 (λ e s, e !! lit "riskScore" = Some (VNumber s)
                    ∧ e !! lit "status"
                      = Some (VString (determineFraudStatus s)))
            results scores.
Proof.
  induction 1 as [|e results (s & Hs & Hst) _ (scores & IH)].
  - by exists [].
  - exists (s :: scores). by constructor.
Qed.

Lemma status_is_fraud_score (e : gmap (list N) value) (s : Z) :
  e !! lit "status" = Some (VString (determineFraudStatus s)) →
  status_is (lit "fraud") e = bool_decide (70 ≤ s).
Proof.
  intros Hst. unfold status_is. rewrite Hst. apply bool_decide_ext.
  rewrite <- determineFraudStatus_fraud. split; congruence.
Qed.

Lemma status_is_other_score (e : gmap (list N) value) (s : Z) :
  e !! lit "status" = Some (VString (determineFraudStatus s)) →
  status_is (lit "legitimate") e || status_is (lit "warning") e
  = bool_decide (s < 70).
Proof.
  intros Hst. unfold status_is. rewrite Hst. unfold determineFraudStatus.
  destruct (Z.leb_spec 70 s); [|destruct (Z.leb_spec 50 s)].
  - rewrite (bool_decide_eq_false_2 (s < 70)) by lia. by vm_compute.
  - rewrite (bool_decide_eq_true_2 (s < 70)) by lia. by vm_compute.
  - rewrite (bool_decide_eq_true_2 (s < 70)) by lia. by vm_compute.
Qed.

Lemma counts_by_score (results : list (gmap (list N) value)) (scores : list Z) :
  Forall2 (λ e s, e !! lit "riskScore" = Some (VNumber s)
                  ∧ e !! lit "status" = Some (VString (determineFraudStatus s)))
          results scores →
  length (List.filter (status_is (lit "fraud")) results)
  = length (filter (λ s, 70 ≤ s) scores)
  ∧ length (List.filter (λ r, status_is (lit "legitimate") r
                              || status_is (lit "warning") r) results)
    = length (filter (λ s, s < 70) scores).
Proof.
  induction 1 as [|e s results scores [_ Hst] _ [IHf IHo]]; [done|].
  cbn [List.filter].
  rewrite (status_is_fraud_score e s Hst), (status_is_other_score e s Hst).
  rewrite !filter_cons.
  split; case_bool_decide; case_decide; try lia; simpl; lia.
Qed.

Lemma score_partition (scores : list Z) :
  (length (filter (λ s : Z, (70 ≤ s)%Z) scores)
   + length (filter (λ s : Z, (s < 70)%Z) scores)
   = length scores)%nat.
Proof.
  induction scores as [|s scores IH]; [done|].
  rewrite !filter_cons. repeat case_decide; simpl; lia.
Qed.

(** X12. For the results of a run the summary cards count every row once:
    the fraud card counts the scores of 70 or more, the legitimate card the
    scores below 70 (warnings included), and the two add up to the total,
    which is the number of rows analysed. *)
Theorem summary_counts transactions g :
  let results := performAnalysis transactions g in
  let cards := displayResults_summary results in
  ∃ scores : list Z,
    Forall2 (λ e s, e !! lit "riskScore" = Some (VNumber s)) results scores
    ∧ let frauds := length (filter (λ s, 70 ≤ s) scores) in
      let others := length (filter (λ s, s < 70) scores) in
      totalTransactions cards = Z_toString (Z.of_nat (length transactions))
      ∧ fraudCount cards = Z_toString (Z.of_nat frauds)
      ∧ legitimateCount cards = Z_toString (Z.of_nat others)
      ∧ (frauds + others = length transactions)%nat.
Proof.
  intros results cards.
  destruct (scores_of results (performAnalysis_status transactions g))
    as (scores & Hscores).
  destruct (counts_by_score results scores Hscores) as [Hf Ho].
  pose proof (Forall2_length _ _ _ Hscores) as Hlen.
  pose proof (performAnalysis_length transactions g) as Hn.
  fold results in Hn.
  exists scores. split.
  - eapply Forall2_impl; [exact Hscores|]. by intros e s [? _].
  - cbv zeta. unfold cards, displayResults_summary.
    cbn [totalTransactions fraudCount legitimateCount].
    rewrite Hf, Ho, Hn. split_and!; try done.
    rewrite score_partition. lia.
Qed.

Lemma toFixed1_proper (q q' : Q) :
  (q == q')%Q → toFixed1 (Finite q) = toFixed1 (Finite q').
Proof.
  intros Hq. unfold toFixed1, Qltb.
  assert (Qle_bool 0 q = Qle_bool 0 q') as -> by (by rewrite Hq).
  assert (Qfloor (Qabs q * 10 + 1 / 2) = Qfloor (Qabs q' * 10 + 1 / 2)) as ->;
    [|done].
  apply Qfloor_comp. by rewrite Hq.
Qed.

Lemma rate_le_100 (frauds total : Z) :
  0 ≤ frauds ≤ total → 0 < total →
  (fl (inject_Z frauds / inject_Z total) ⊗ 100 <= 100)%Q.
Proof.
  intros Hf Ht.
  assert (fl (inject_Z frauds / inject_Z total) <= 1)%Q as H1.
  { eapply Qle_trans;
      [|apply Qle_lteq; right; apply (fl_integer 1); by vm_compute].
    apply fl_monotone. apply Qle_shift_div_r.
    - change 0%Q with (inject_Z 0). rewrite <- Zlt_Qlt. lia.
    - rewrite <- inject_Z_mult, <- Zle_Qle. lia. }
  unfold mul.
  eapply Qle_trans;
    [|apply Qle_lteq; right; apply (fl_integer 100); by vm_compute].
  apply fl_monotone. change (inject_Z 100) with (1 * 100)%Q.
  apply Qmult_le_compat_r; [exact H1 | by vm_compute].
Qed.

Lemma rate_of_none (total : Z) :
  (fl (inject_Z 0 / inject_Z total) ⊗ 100 == 0)%Q.
Proof.
  unfold mul.
  assert (fl (inject_Z 0 / inject_Z total) == 0)%Q as H0.
  { transitivity (fl (inject_Z 0)); [|apply fl_integer; by vm_compute].
    apply fl_proper. unfold Qdiv. apply Qmult_0_l. }
  transitivity (fl (inject_Z 0)); [|apply fl_integer; by vm_compute].
  apply fl_proper. rewrite H0. apply Qmult_0_l.
Qed.

Lemma tenths_range (rate : Q) :
  (0 <= rate <= 100)%Q → 0 ≤ Qfloor (rate * 10 + 1 / 2) ≤ 1000.
Proof.
  intros [Hlo Hhi]. change (1 / 2)%Q with (1 # 2)%Q. split.
  - apply (Z.le_trans _ (Qfloor 0)); [by vm_compute|].
    apply Qfloor_resp_le. lra.
  - apply (Z.le_trans _ (Qfloor (2001 # 2))); [|by vm_compute].
    apply Qfloor_resp_le. lra.
Qed.

Lemma fraudRate_text (results : list (gmap (list N) value)) :
  results ≠ [] →
  fraudRate (displayResults_summary results)
  = toFixed1
      (Finite
         (fl (inject_Z (Z.of_nat (length (List.filter
                                            (status_is (lit "fraud")) results)))
              / inject_Z (Z.of_nat (length results))) ⊗ 100)%Q)
      ++ lit "%".
Proof.
  intros Hne. unfold displayResults_summary. cbn [fraudRate]. unfold div.
  assert (Qeq_bool (inject_Z (Z.of_nat (length results))) 0 = false) as ->.
  { apply not_true_iff_false. intros Hz%Qeq_bool_iff.
    change 0%Q with (inject_Z 0) in Hz.
    apply (proj1 (inject_Z_injective _ _)) in Hz.
    destruct results; [done|]. simpl in Hz. lia. }
  done.
Qed.

(** X13. For a Result Set that is not empty the rate on the fraud card is a
    number of tenths from 0.0% to 100.0%: exactly 0.0% when no row is a
    fraud and exactly 100.0% when every row is. *)
Theorem fraudRate_range (results : list (gmap (list N) value)) :
  results ≠ [] →
  let frauds := length (List.filter (status_is (lit "fraud")) results) in
  let shown := fraudRate (displayResults_summary results) in
  (∃ tenths : Z,
     0 ≤ tenths ≤ 1000
     ∧ shown = Z_toString (tenths / 10) ++ lit "." ++ [digit (tenths mod 10)]
                 ++ lit "%")
  ∧ (frauds = 0%nat → shown = lit "0.0%")
  ∧ (frauds = length results → shown = lit "100.0%").
Proof.
  intros Hne frauds shown.
  assert (0 < length results)%nat as Hn by (destruct results; [done|simpl; lia]).
  assert (frauds ≤ length results)%nat as Hf by apply List.filter_length_le.
  unfold shown. rewrite (fraudRate_text results Hne). fold frauds.
  set (rate := (fl (inject_Z (Z.of_nat frauds)
                    / inject_Z (Z.of_nat (length results))) ⊗ 100)%Q).
  assert (0 <= rate)%Q as Hlo by (apply fraud_rate_nonneg; lia).
  assert (rate <= 100)%Q as Hhi by (apply rate_le_100; lia).
  split_and!.
  - exists (Qfloor (rate * 10 + 1 / 2)). split; [by apply tenths_range|].
    cbn [toFixed1]. rewrite (proj2 (Qltb_ge _ _) Hlo), (Qabs_pos rate Hlo).
    simpl. by rewrite <- !(assoc_L (++)).
  - intros H0. rewrite (toFixed1_proper rate 0); [done|].
    unfold rate. rewrite H0. apply rate_of_none.
  - intros Hall. rewrite (toFixed1_proper rate 100); [done|].
    unfold rate. rewrite Hall. by apply percent_of_all.
Qed.

Lemma no_fraud_iff (results : list (gmap (list N) value)) :
  Forall (λ e, ∃ s : Z,
            e !! lit "riskScore" = Some (VNumber s)
            ∧ e !! lit "status" = Some (VString (determineFraudStatus s)))
         results →
  (length (List.filter (status_is (lit "fraud")) results) = 0%nat
   ↔ Forall (λ e, ∃ s : Z, e !! lit "riskScore" = Some (VNumber s) ∧ s < 70)
            results)
  ∧ (length (List.filter (status_is (lit "fraud")) results) ≠ 0%nat
     ↔ Exists (λ e, ∃ s : Z, e !! lit "riskScore" = Some (VNumber s) ∧ 70 ≤ s)
              results).
Proof.
  induction 1 as [|e results (s & Hs & Hst) _ [IHn IHe]].
  - split; [done|]. split; [done|]. by intros ?%Exists_nil.
  - cbn [List.filter]. rewrite (status_is_fraud_score e s Hst).
    rewrite Forall_cons, Exists_cons. case_bool_decide as Hge; simpl.
    + split.
      * split; [done|]. intros [(s' & Hs' & Hlt) _].
        rewrite Hs in Hs'. injection Hs' as <-. lia.
      * split; [|done]. intros _. left. by exists s.
    + rewrite IHe, IHn. split.
      * split; [|by intros [_ ?]]. intros Hall. split; [|done].
        exists s. split; [done|lia].
      * split; [by right|]. intros [(s' & Hs' & Hge')|?]; [|done].
        rewrite Hs in Hs'. injection Hs' as <-. lia.
Qed.

(** X14. For the results of a run the status alert announces fraud exactly
    when some result has a score of 70 or more; otherwise it reports all the
    analysed transactions as legitimate. *)
Theorem status_alert_of_run transactions g :
  let results := performAnalysis transactions g in
  let shown := displayResults_alert results in
  (statusTitle_textContent shown = lit "Fraud Detected"
   ↔ Exists (λ e, ∃ s : Z, e !! lit "riskScore" = Some (VNumber s) ∧ 70 ≤ s)
            results)
  ∧ (statusTitle_textContent shown = lit "No Fraud Detected"
     ↔ Forall (λ e, ∃ s : Z, e !! lit "riskScore" = Some (VNumber s) ∧ s < 70)
              results)
  ∧ (statusTitle_textContent shown = lit "No Fraud Detected" →
     statusAlert_className shown = lit "alert alert-success"
     ∧ statusMessage_textContent shown
       = lit "All " ++ Z_toString (Z.of_nat (length transactions))
           ++ lit " transactions appear to be legitimate. No suspicious activity detected.").
Proof.
  intros results shown.
  destruct (no_fraud_iff results (performAnalysis_status transactions g))
    as [Hnone Hsome].
  pose proof (performAnalysis_length transactions g) as Hn. fold results in Hn.
  unfold shown, displayResults_alert, displayStatusAlert.
  rewrite <- Hnone, <- Hsome, Hn.
  destruct (length (List.filter (status_is (lit "fraud")) results)) as [|k].
  - change (Z.of_nat 0 =? 0) with true.
    cbn [statusTitle_textContent statusAlert_className
         statusMessage_textContent].
    split_and!; [split; [lit_neq | done] | done | done].
  - assert ((Z.of_nat (S k) =? 0) = false) as -> by (apply Z.eqb_neq; lia).
    cbn [statusTitle_textContent statusAlert_className
         statusMessage_textContent].
    split_and!; [done | split; [lit_neq | done] | lit_neq].
Qed.
End results_view.

Lemma fraudRate_range_witness :
  fraudRate (@displayResults_summary sample_host
               [{[lit "status" := VString (lit "fraud")]}])
  = lit "100.0%".
Proof.
  destruct (@fraudRate_range sample_host
              [{[lit "status" := VString (lit "fraud")]}])
    as (_ & _ & Hall); [done|].
  apply Hall. by vm_compute.
Defined.

(** ** The table, its filter and its search *)

Section results_table.
Context `{Host}.

Lemma length_filter_iff {A B} (f : B → bool) (g : A → bool) (h : A → B)
    (P : A → Prop) (l : list A) :
  Forall P l →
  (∀ x, P x → (f (h x) = true ↔ g x = true)) →
  length (List.filter f (h <$> l)) = length (List.filter g l).
Proof.
  intros Hl Hfg. induction Hl as [|x l Hx _ IH]; [done|].
  rewrite fmap_cons. cbn [List.filter]. specialize (Hfg x Hx).
  destruct (f (h x)), (g x); simpl; try (by rewrite IH); exfalso;
    destruct Hfg as [H1 H2];
    first [discriminate (H1 eq_refl) | discriminate (H2 eq_refl)].
Qed.

Lemma length_filter_true {A} (l : list A) :
  length (List.filter (λ _, true) l) = length l.
Proof. induction l as [|x l IH]; [done|]. simpl. by rewrite IH. Qed.

Lemma length_filter_0 {A} (f : A → bool) (l : list A) :
  length (List.filter f l) = 0%nat ↔ Forall (λ x, f x = false) l.
Proof.
  induction l as [|x l IH]; [done|]. cbn [List.filter]. rewrite Forall_cons.
  destruct (f x); simpl.
  - split; [done | by intros [? _]].
  - rewrite IH. split; [done | by intros [_ ?]].
Qed.

Lemma accepts_by_score (e : gmap (list N) value) (s : Z) text shown :
  e !! lit "status" = Some (VString (determineFraudStatus s)) →
  let row := {| data_status := attribute_text (e !! lit "status");
                textContent := text;
                display := shown |} in
  (status_filter_accepts (lit "fraud") row ↔ 70 ≤ s)
  ∧ (status_filter_accepts (lit "legitimate") row ↔ s < 70)
  ∧ status_filter_accepts (lit "all") row.
Proof.
  intros Hst row. unfold status_filter_accepts, row. rewrite Hst.
  cbn [data_status attribute_text toString]. split_and!.
  - rewrite determineFraudStatus_fraud. split.
    + intros [Hm | [[_ ?] | [Hm _]]]; [by vm_compute in Hm | done |
                                        by vm_compute in Hm].
    + intros ?. right. by left.
  - split.
    + intros [Hm | [[Hm _] | [_ Hd]]];
        [by vm_compute in Hm | by vm_compute in Hm |].
      destruct (Z.leb_spec 70 s) as [Hge|]; [|done].
      apply determineFraudStatus_fraud in Hge. rewrite Hge in Hd.
      destruct Hd as [Hd|Hd]; by vm_compute in Hd.
    + intros Hlt. right. right. split; [done|]. unfold determineFraudStatus.
      destruct (Z.leb_spec 70 s); [lia|].
      destruct (50 <=? s); [by right | by left].
  - by left.
Qed.

(** X15. Over the table of a run each filter button shows as many rows as
    the matching summary card counts: [fraud] as many as the fraud card,
    [legitimate] as many as the legitimate card, [all] the total. *)
Theorem filter_shows_card_counts transactions g (banner : bool)
    (mode : jsstring) :
  let results := performAnalysis transactions g in
  let v := {| rows := populateResultsTable results;
              noResults_d_none := banner;
              currentFilter := mode |} in
  let shown filter :=
    Z.of_nat (length (List.filter visible (rows (filterResults filter v)))) in
  let cards := displayResults_summary results in
  fraudCount cards = Z_toString (shown (lit "fraud"))
  ∧ legitimateCount cards = Z_toString (shown (lit "legitimate"))
  ∧ totalTransactions cards = Z_toString (shown (lit "all")).
Proof.
  intros results v shown cards.
  pose proof (performAnalysis_status transactions g) as Hshape.
  fold results in Hshape.
  unfold cards, displayResults_summary, shown, filterResults, v,
    populateResultsTable.
  cbn [rows fraudCount legitimateCount totalTransactions].
  rewrite <- !list_fmap_compose.
  split_and!; do 2 f_equal; symmetry.
  - eapply length_filter_iff; [exact Hshape|].
    intros e (s & _ & Hst). cbn [compose].
    rewrite (status_is_fraud_score e s Hst), bool_decide_eq_true.
    destruct (filter_row_spec (lit "fraud")
                {| data_status := attribute_text (e !! lit "status");
                   textContent := row_textContent e;
                   display := [] |}) as (_ & _ & ->).
    by destruct (accepts_by_score e s (row_textContent e) [] Hst) as (-> & _).
  - eapply length_filter_iff; [exact Hshape|].
    intros e (s & _ & Hst). cbn [compose].
    rewrite (status_is_other_score e s Hst), bool_decide_eq_true.
    destruct (filter_row_spec (lit "legitimate")
                {| data_status := attribute_text (e !! lit "status");
                   textContent := row_textContent e;
                   display := [] |}) as (_ & _ & ->).
    by destruct (accepts_by_score e s (row_textContent e) [] Hst)
      as (_ & -> & _).
  - rewrite <- (length_filter_true results).
    eapply length_filter_iff; [exact Hshape|].
    intros e (s & _ & Hst). cbn [compose].
    destruct (filter_row_spec (lit "all")
                {| data_status := attribute_text (e !! lit "status");
                   textContent := row_textContent e;
                   display := [] |}) as (_ & _ & ->).
    split; [done|]. intros _.
    by destruct (accepts_by_score e s (row_textContent e) [] Hst)
      as (_ & _ & ?).
Qed.

(** X16. After the status filter or the search has run, the
    no-results banner is shown exactly when the handler accepted no row of
    the table, an empty table included. *)
Theorem banner_when_nothing_shown (mode term : jsstring) (v : view) :
  (noResults_d_none (filterResults mode v) = false
   ↔ Forall (λ row, ¬ status_filter_accepts mode row) (rows v))
  ∧ (noResults_d_none (searchTransactions term v) = false
     ↔ Forall (λ row, ¬ search_accepts term row) (rows v)).
Proof.
  split.
  - unfold filterResults. cbn [noResults_d_none].
    rewrite negb_false_iff, Nat.eqb_eq, length_filter_0, Forall_fmap.
    apply Forall_iff. intros row. cbn [compose].
    destruct (filter_row_spec mode row) as (_ & _ & <-).
    by rewrite not_true_iff_false.
  - unfold searchTransactions. cbn [noResults_d_none].
    rewrite negb_false_iff, Nat.eqb_eq, length_filter_0, Forall_fmap.
    apply Forall_iff. intros row. cbn [compose].
    destruct (search_row_spec term row) as (_ & _ & <-).
    by rewrite not_true_iff_false.
Qed.
End results_table.

(** ** Classes, badges and the details of a row *)

Section markup.
Context `{Host} `{Conversions}.

Lemma ge_threshold (s k : Z) :
  ge (Finite (inject_Z s)) (Finite (inject_Z k)) = (k <=? s).
Proof.
  unfold ge, le, lt, Qltb. rewrite negb_involutive.
  unfold Qle_bool, inject_Z. cbn [Qnum Qden]. by rewrite !Z.mul_1_r.
Qed.

Lemma marks_by_score (s : Z) :
  let status := Some (VString (determineFraudStatus s)) in
  let riskScore := to_number (Some (VNumber s)) in
  (70 ≤ s
   ∧ ge riskScore (Finite 70) = true
   ∧ is_string (lit "fraud") status = true)
  ∨ (50 ≤ s < 70
     ∧ ge riskScore (Finite 70) = false
     ∧ ge riskScore (Finite 50) = true
     ∧ is_string (lit "fraud") status = false
     ∧ is_string (lit "warning") status = true)
  ∨ (s < 50
     ∧ ge riskScore (Finite 70) = false
     ∧ ge riskScore (Finite 50) = false
     ∧ is_string (lit "fraud") status = false
     ∧ is_string (lit "warning") status = false).
Proof.
  cbv zeta. cbn [to_number]. unfold determineFraudStatus.
  change (Finite 70) with (Finite (inject_Z 70)).
  change (Finite 50) with (Finite (inject_Z 50)).
  rewrite !ge_threshold.
  destruct (Z.leb_spec 70 s); [|destruct (Z.leb_spec 50 s)].
  - left. split_and!; try done; by vm_compute.
  - right. left. split_and!; try done; try lia; by vm_compute.
  - right. right. split_and!; try done; by vm_compute.
Qed.

(** X17. In the table of a run the colour class of the risk cell, chosen
    from the score, and the badge of the status cell, chosen from the
    status, always agree: high risk with Fraud, medium with Warning, low
    with Legitimate. *)
Theorem row_markup_of_run transactions g :
  Forall (λ e,
            ∃ s : Z,
              e !! lit "riskScore" = Some (VNumber s)
              ∧ let marks := (riskClass (e !! lit "riskScore"),
                              statusClass (e !! lit "status"),
                              badge_text (e !! lit "status")) in
                (70 ≤ s
                 ∧ marks = (lit "risk-high", lit "status-fraud", lit "Fraud"))
                ∨ (50 ≤ s < 70
                   ∧ marks = (lit "risk-medium", lit "status-warning",
                              lit "Warning"))
                ∨ (s < 50
                   ∧ marks = (lit "risk-low", lit "status-legitimate",
                              lit "Legitimate")))
         (performAnalysis transactions g).
Proof.
  eapply Forall_impl; [apply performAnalysis_status|].
  intros e (s & Hs & Hst). exists s. split; [done|].
  cbv zeta. unfold riskClass, statusClass, badge_text. rewrite Hs, Hst.
  destruct (marks_by_score s)
    as [(? & -> & ->) | [(? & -> & -> & -> & ->) | (? & -> & -> & -> & ->)]].
  - by left.
  - right. by left.
  - right. by right.
Qed.

Lemma defined_items (picked : list (list N)) :
  (λ o : option (list N), match o with
                          | Some s => s
                          | None => lit "undefined"
                          end) <$> (Some <$> picked) = picked.
Proof. induction picked as [|p picked IH]; [done|]. simpl. by f_equal. Qed.

(** X18. The details of a row of a run, with every draw in [[0, 1)]: an
    index outside the Result Set opens nothing; inside it, the bar colour,
    the badge and the indicator list agree with the score, and the list
    holds two to four distinct catalog entries for a fraud and the single
    line [No fraud indicators detected] otherwise. *)
Theorem details_of_run transactions g (index : Z) :
  unit_draws g →
  let results := performAnalysis transactions g in
  (index < 0 ∨ Z.of_nat (length transactions) ≤ index →
   viewTransactionDetails index results = NoDetails)
  ∧ (0 ≤ index < Z.of_nat (length transactions) →
     ∃ e m (s : Z),
       results !! Z.to_nat index = Some e
       ∧ e !! lit "riskScore" = Some (VNumber s)
       ∧ viewTransactionDetails index results = Details m
       ∧ modalRiskScore m = Z_toString s ++ lit "%"
       ∧ ((70 ≤ s
           ∧ modalRiskBar_className m = lit "progress-bar bg-danger"
           ∧ modalStatus_className m = lit "badge badge-danger"
           ∧ modalStatus_textContent m = lit "Fraud Detected"
           ∧ (2 ≤ length (modalIndicators m) ≤ 4)%nat
           ∧ NoDup (modalIndicators m)
           ∧ modalIndicators m ⊆ indicator_catalog)
          ∨ (50 ≤ s < 70
             ∧ modalRiskBar_className m = lit "progress-bar bg-warning"
             ∧ modalStatus_className m = lit "badge badge-warning"
             ∧ modalStatus_textContent m = lit "Warning"
             ∧ modalIndicators m = [lit "No fraud indicators detected"])
          ∨ (s < 50
             ∧ modalRiskBar_className m = lit "progress-bar bg-success"
             ∧ modalStatus_className m = lit "badge badge-success"
             ∧ modalStatus_textContent m = lit "Legitimate"
             ∧ modalIndicators m = [lit "No fraud indicators detected"]))).
Proof.
  intros Hg results.
  pose proof (performAnalysis_length transactions g) as Hn. fold results in Hn.
  split.
  - intros Hout. unfold viewTransactionDetails, at_index.
    destruct (Z.ltb_spec index 0); [done|].
    rewrite (proj2 (lookup_ge_None results (Z.to_nat index))); [done|]. lia.
  - intros Hin.
    destruct (lookup_lt_is_Some_2 results (Z.to_nat index)) as [e He]; [lia|].
    pose proof (performAnalysis_shape transactions g Hg) as Hshape.
    fold results in Hshape.
    destruct (proj1 (Forall_lookup _ _) Hshape _ _ He)
      as (s & picked & Hs & Hst & Hi & Hnd & Hsub & Hmany & Hnone).
    unfold viewTransactionDetails, at_index.
    destruct (Z.ltb_spec index 0); [lia|]. rewrite He, Hs, Hst, Hi.
    destruct (marks_by_score s)
      as [(? & -> & ->) | [(? & -> & -> & -> & ->) | (? & -> & -> & -> & ->)]].
    + assert (indicator_items (Some (VArray (Some <$> picked))) = Some picked)
        as ->.
      { destruct picked as [|q picked'];
          [specialize (Hmany ltac:(lia)); simpl in Hmany; lia|].
        rewrite fmap_cons. cbn [indicator_items].
        rewrite <- (fmap_cons Some). by rewrite defined_items. }
      eexists e, _, s. split_and!; [done | done | done | done |].
      left. cbn [modalRiskBar_className modalStatus_className
                 modalStatus_textContent modalIndicators].
      split_and!; try done; by apply Hmany.
    + rewrite (Hnone ltac:(lia)).
      eexists e, _, s. split_and!; [done | done | done | done |].
      right. by left.
    + rewrite (Hnone ltac:(lia)).
      eexists e, _, s. split_and!; [done | done | done | done |].
      right. by right.
Qed.
End markup.

Lemma details_of_run_witness :
  @viewTransactionDetails {| ToNumber := λ _, NaN |} 5
    (@performAnalysis sample_host
       (parseCSV (lit "amount,location
6000,Unknown
12,Boston"))
       (λ _, 1 # 2)%Q)
  = NoDetails.
Proof.
  apply (@details_of_run sample_host {| ToNumber := λ _, NaN |}
           (parseCSV (lit "amount,location
6000,Unknown
12,Boston"))
           (λ _, 1 # 2)%Q 5).
  - intros n. split; [by vm_compute|]. intros k Hk.
    assert (k = 1 ∨ k = 2 ∨ k = 3 ∨ k = 4 ∨ k = 5 ∨ k = 6 ∨ k = 7 ∨ k = 8)
      as Hcases by lia.
    destruct Hcases as [->|[->|[->|[->|[->|[->|[->| ->]]]]]]]; by vm_compute.
  - right. by vm_compute.
Defined.

(** ** Export from a results page *)

Section export_page.
Context `{Host}.

(** X19. On a results page that was loaded and stayed (no exception, no
    navigation), what is held for export is the non-empty array that was
    rendered: the CSV export downloads exactly these results, never the
    alert and never a header alone, and the PDF export prints. *)
Theorem export_after_display (p p' : page) :
  location_href p = None →
  initResultsPage p = Returns p' →
  location_href p' = None →
  ∃ items,
    items ≠ []
    ∧ window_analysisResults p' = Some (JArray items)
    ∧ summary_cards p' = Some (displayResults_summary items)
    ∧ table p' = populateResultsTable items
    ∧ localStorage p' = localStorage p
    ∧ exportResults (lit "csv") (window_analysisResults p')
      = ExportDownload (exportToCSV items)
    ∧ ∃ message,
        exportResults (lit "pdf") (window_analysisResults p')
        = ExportPrint message.
Proof.
  intros Hloc Hinit Hloc'. unfold initResultsPage in Hinit.
  cbv zeta in Hinit.
  assert (∀ q, Returns {| localStorage := localStorage q;
                          location_href := Some (lit "upload.html");
                          window_analysisResults := window_analysisResults p;
                          window_analysisTimestamp := window_analysisTimestamp p;
                          summary_cards := summary_cards p;
                          table := table p |} ≠ Returns p') as Hleft.
  { intros q [= <-]. done. }
  destruct (localStorage p !! lit "fraudGuard_results") as [[|c s]|] eqn:Hs.
  - simpl in Hinit. injection Hinit as <-. done.
  - destruct (JSON_parse (c :: s)) as [r|]; [|done].
    destruct r as [|[]|q|[|? ?]|[|item items]|o]; simpl in Hinit;
      try (by injection Hinit as <-); try done.
    + destruct (Qeq_bool q 0); simpl in Hinit;
        [by injection Hinit as <- | done].
    + injection Hinit as <-. simpl. exists (item :: items).
      split_and!; try done. by eexists.
    + case_bool_decide; simpl in Hinit; [by injection Hinit as <- | done].
  - simpl in Hinit. injection Hinit as <-. done.
Qed.
End export_page.

Lemma export_after_display_witness :
  ∃ items,
    exportResults (lit "csv")
      (Some (JArray [(∅ : gmap (list N) value)]))
    = ExportDownload (exportToCSV items).
Proof.
  destruct (@export_after_display sample_host_objects
              {| localStorage :=
                   {[lit "fraudGuard_results" := lit "[{}]";
                     lit "fraudGuard_timestamp"
                     := lit "2024-01-01T03:00:00.000Z"]};
                 location_href := None;
                 window_analysisResults := None;
                 window_analysisTimestamp := None;
                 summary_cards := None;
                 table := [] |}
              {| localStorage :=
                   {[lit "fraudGuard_results" := lit "[{}]";
                     lit "fraudGuard_timestamp"
                     := lit "2024-01-01T03:00:00.000Z"]};
                 location_href := None;
                 window_analysisResults := Some (JArray [∅]);
                 window_analysisTimestamp
                 := Some (lit "2024-01-01T03:00:00.000Z");
                 summary_cards
                 := Some (@displayResults_summary sample_host_objects [∅]);
                 table := @populateResultsTable sample_host_objects [∅] |})
    as (items & _ & _ & _ & _ & _ & Hcsv & _);
    [done | by vm_compute | done |].
  by exists items.
Defined.

(** ** Dark mode *)

Section dark_mode.

Lemma load_theme_spec (storage : gmap (list N) (list N)) :
  body_dark_mode (load_theme storage)
  = bool_decide (storage !! lit "darkMode" = Some (lit "enabled"))
  ∧ theme_storage (load_theme storage) = storage
  ∧ darkModeToggle (load_theme storage)
    = Some (toggle_icon (body_dark_mode (load_theme storage)),
            lit "Toggle Dark Mode").
Proof.
  unfold load_theme, initDarkMode. cbn [theme_storage].
  by case_bool_decide.
Qed.

Lemma theme_step_spec (t : theme) (ev : theme_event) :
  (body_dark_mode t = true
   ↔ theme_storage t !! lit "darkMode" = Some (lit "enabled")) →
  (∃ title, darkModeToggle t = Some (toggle_icon (body_dark_mode t), title)) →
  let t' := theme_step t ev in
  (body_dark_mode t' = true
   ↔ theme_storage t' !! lit "darkMode" = Some (lit "enabled"))
  ∧ (∃ title,
       darkModeToggle t' = Some (toggle_icon (body_dark_mode t'), title))
  ∧ body_dark_mode t'
    = match ev with
      | ToggleClicked => negb (body_dark_mode t)
      | PageReloaded => body_dark_mode t
      end
  ∧ ∀ k, k ≠ lit "darkMode" → theme_storage t' !! k = theme_storage t !! k.
Proof.
  intros Hmode [title Hbutton]. destruct ev; cbn [theme_step]; cbv zeta.
  - unfold toggleDarkMode. cbn [body_dark_mode theme_storage darkModeToggle].
    rewrite Hbutton. split_and!.
    + rewrite lookup_insert_eq.
      destruct (body_dark_mode t); simpl; split; try done;
        intros [= Heq]; by vm_compute in Heq.
    + by exists (if negb (body_dark_mode t) then lit "Switch to Light Mode"
                 else lit "Switch to Dark Mode").
    + done.
    + intros k Hk. by rewrite lookup_insert_ne.
  - destruct (load_theme_spec (theme_storage t)) as (Hb & Hst & Hbtn).
    rewrite Hst. split_and!.
    + rewrite Hb. apply bool_decide_eq_true.
    + by eexists.
    + rewrite Hb. destruct (body_dark_mode t) eqn:Hbody.
      * apply bool_decide_eq_true_2. by apply Hmode.
      * apply bool_decide_eq_false_2. intros Hen%Hmode. done.
    + done.
Qed.

Lemma theme_steps_spec (events : list theme_event) (t : theme) :
  (body_dark_mode t = true
   ↔ theme_storage t !! lit "darkMode" = Some (lit "enabled")) →
  (∃ title, darkModeToggle t = Some (toggle_icon (body_dark_mode t), title)) →
  let t' := foldl theme_step t events in
  (body_dark_mode t' = true
   ↔ theme_storage t' !! lit "darkMode" = Some (lit "enabled"))
  ∧ (∃ title,
       darkModeToggle t' = Some (toggle_icon (body_dark_mode t'), title))
  ∧ body_dark_mode t' = xorb (body_dark_mode t) (Nat.odd (toggles events))
  ∧ ∀ k, k ≠ lit "darkMode" → theme_storage t' !! k = theme_storage t !! k.
Proof.
  revert t. induction events as [|ev events IH]; intros t Hmode Hbutton.
  - cbv zeta. simpl. split_and!; try done. by rewrite xorb_false_r.
  - destruct (theme_step_spec t ev Hmode Hbutton) as (Hm & Hb & Hbody & Hkeys).
    destruct (IH (theme_step t ev) Hm Hb) as (Hm' & Hb' & Hbody' & Hkeys').
    cbv zeta. cbn [foldl]. split_and!; [done | done | |].
    + rewrite Hbody', Hbody. unfold toggles. destruct ev; cbn [List.filter].
      * change (length (ToggleClicked :: ?l)) with (S (length l)).
        cbn [length]. rewrite Nat.odd_succ, <- Nat.negb_odd.
        by destruct (body_dark_mode t), (Nat.odd _).
      * done.
    + intros k Hk. by rewrite Hkeys', Hkeys.
Qed.

(** X20. Dark mode over any sequence of toggle clicks and page reloads,
    starting from a page load: the page is dark exactly when the stored
    mode is [enabled], the icon of the button matches the mode, the mode is
    the stored one flipped once per click (a reload keeps it), and no other
    storage entry is touched. *)
Theorem dark_mode_persists (storage : gmap (list N) (list N))
    (events : list theme_event) :
  let t := foldl theme_step (load_theme storage) events in
  (body_dark_mode t = true
   ↔ theme_storage t !! lit "darkMode" = Some (lit "enabled"))
  ∧ (∃ title, darkModeToggle t = Some (toggle_icon (body_dark_mode t), title))
  ∧ body_dark_mode t
    = xorb (bool_decide (storage !! lit "darkMode" = Some (lit "enabled")))
           (Nat.odd (toggles events))
  ∧ ∀ k, k ≠ lit "darkMode" → theme_storage t !! k = storage !! k.
Proof.
  destruct (load_theme_spec storage) as (Hb & Hst & Hbtn).
  destruct (theme_steps_spec events (load_theme storage))
    as (Hm & Hbutton & Hbody & Hkeys).
  - rewrite Hb, Hst. apply bool_decide_eq_true.
  - by eexists.
  - cbv zeta. rewrite Hb, Hst in *. done.
Qed.
End dark_mode.

(** ** Sample data *)

Section sample_data.
Context `{Host} `{SampleTexts}.

Lemma text_lines (header : list N) (lines : list (list N)) :
  (newline ∉ header) → trim header ≠ [] →
  trimStart header = header → trimStart (reverse header) = reverse header →
  Forall (λ l, (newline ∉ l) ∧ trim l ≠ []
               ∧ trimStart (reverse l) = reverse l) lines →
  split newline (trim (join newline (header :: lines))) = header :: lines.
Proof.
  intros Hnl Hblank Hstart Hend Hlines.
  assert (header ≠ []) as Hne by (by intros ->).
  assert (trim (join newline (header :: lines)) = join newline (header :: lines))
    as ->.
  { apply trim_fixed.
    - by apply trimStart_join.
    - rewrite reverse_join.
      destruct lines as [|l ls _] using rev_ind; [done|].
      apply Forall_app in Hlines as [_ Hl].
      apply Forall_singleton in Hl as (_ & Hb & Hrev).
      rewrite (fmap_cons reverse), fmap_app. cbn [fmap list_fmap].
      rewrite app_comm_cons, reverse_snoc.
      apply trimStart_join; [|done].
      intros Hr. apply Hb.
      by rewrite <- (reverse_involutive l), Hr. }
  apply split_join; [done|]. constructor; [done|].
  eapply Forall_impl; [done|]. by intros l (? & _).
Qed.

Lemma plain_clean (s : list N) :
  Forall (λ c, c ≠ comma ∧ c ≠ newline ∧ is_whitespace c = false) s → clean s.
Proof.
  intros Hs. split_and!.
  - intros Hc. by destruct (proj1 (Forall_forall _ _) Hs _ Hc) as (? & _).
  - intros Hc. by destruct (proj1 (Forall_forall _ _) Hs _ Hc) as (_ & ? & _).
  - apply trim_no_whitespace. eapply Forall_impl; [done|]. by intros c (_ & _ & ?).
Qed.

Lemma Z_toString_plain (n : Z) :
  Forall (λ c, c ≠ comma ∧ c ≠ newline ∧ is_whitespace c = false)
         (Z_toString n).
Proof.
  eapply Forall_impl; [apply Z_toString_chars|].
  intros c Hc. by apply sign_or_digit_plain.
Qed.

Lemma pick_of_draw (l : list (list N)) (g : nat → Q) (n : nat) :
  unit_draws g → (1 ≤ length l ≤ 8)%nat →
  ∃ x, x ∈ l
       ∧ at_index l (Math_floor (g n ⊗ inject_Z (Z.of_nat (length l))))
         = Some x.
Proof.
  intros Hg Hlen.
  destruct (draw_index (λ k, g (n + k)%nat) (length l)) as [Hlo Hhi];
    [by intros k; apply Hg | done |].
  rewrite Nat.add_0_r in Hlo, Hhi. unfold at_index.
  destruct (Z.ltb_spec (Math_floor (g n ⊗ inject_Z (Z.of_nat (length l)))) 0);
    [lia|].
  destruct (lookup_lt_is_Some_2 l
              (Z.to_nat (Math_floor
                           (g n ⊗ inject_Z (Z.of_nat (length l))))))
    as [x Hx]; [lia|].
  exists x. split; [|done]. by eapply list_elem_of_lookup_2.
Qed.

Lemma sample_line_shape (i : nat) (g : nat → Q) :
  unit_draws g →
  ∃ m l amount timestamp card,
    m ∈ merchants ∧ l ∈ locations ∧ card ≠ []
    ∧ Forall clean
        ([lit "TXN" ++ padStart (Z_toString (Z.of_nat i)) 4 48%N;
          amount; m; l; timestamp] ++ [card])
    ∧ sample_line i g
      = join comma
          ([lit "TXN" ++ padStart (Z_toString (Z.of_nat i)) 4 48%N;
            amount; m; l; timestamp] ++ [card]).
Proof.
  intros Hg.
  destruct (pick_of_draw merchants g 1 Hg) as (m & Hm & Hmi);
    [simpl; lia|].
  destruct (pick_of_draw locations g 2 Hg) as (l & Hl & Hli);
    [simpl; lia|].
  assert (Forall clean merchants) as Hms
    by (unfold clean; closed_fact).
  assert (Forall clean locations) as Hls
    by (unfold clean; closed_fact).
  eexists m, l, _, _, _. split_and!; [done | done | | |].
  3:{ unfold sample_line. cbv zeta. rewrite Hmi, Hli. reflexivity. }
  - done.
  - cbn [app]. repeat apply Forall_cons_2; [| | | | | |constructor].
    + apply plain_clean. apply Forall_app_2; [closed_fact|].
      apply Forall_app_2; [|apply Z_toString_plain].
      apply Forall_replicate. by vm_compute.
    + apply toFixed2_clean.
    + by apply (proj1 (Forall_forall _ _) Hms).
    + by apply (proj1 (Forall_forall _ _) Hls).
    + apply toISOString_clean.
    + apply plain_clean. apply Forall_app_2; [closed_fact|].
      apply Z_toString_plain.
Qed.

Lemma sample_row (i : nat) (g : nat → Q) :
  unit_draws g →
  let line := sample_line i g in
  let row :=
    row_of [lit "transaction_id"; lit "amount"; lit "merchant";
            lit "location"; lit "timestamp"; lit "card_number"] line in
  ((newline ∉ line) ∧ trim line ≠ []
   ∧ trimStart (reverse line) = reverse line)
  ∧ row !! lit "transaction_id"
    = Some (lit "TXN" ++ padStart (Z_toString (Z.of_nat i)) 4 48%N)
  ∧ (∃ m, m ∈ merchants ∧ row !! lit "merchant" = Some m)
  ∧ (∃ l, l ∈ locations ∧ row !! lit "location" = Some l).
Proof.
  intros Hg line row.
  destruct (sample_line_shape i g Hg)
    as (m & l & amount & timestamp & card & Hm & Hl & Hcard & Hclean & Hline).
  destruct (export_line_shape _ card Hclean) as (Hnl & Hb & Hrev & Hfields);
    [done | done |].
  unfold row, row_of, line. rewrite Hline. split; [done|].
  rewrite Hfields. split_and!.
  - by rewrite (forEach_header_lookup _ _ _ _ 0 (lit "transaction_id"));
      [| done | lit_neq | closed_fact].
  - exists m. split; [done|].
    rewrite (forEach_header_lookup _ _ _ _ 2 (lit "merchant"));
      [| done | lit_neq | closed_fact].
    cbn [app lookup list_lookup Nat.add]. by rewrite or_empty_Some.
  - exists l. split; [done|].
    rewrite (forEach_header_lookup _ _ _ _ 3 (lit "location"));
      [| done | lit_neq | closed_fact].
    cbn [app lookup list_lookup Nat.add]. by rewrite or_empty_Some.
Qed.

(** X21. The generated sample data, with every draw in [[0, 1)], passes
    through the application's own parser: twenty rows numbered
    [TXN0001] to [TXN0020], each with a merchant and a location of the
    built-in lists, none in a high-risk location; chosen as the upload it
    is accepted and labelled [20 rows]. *)
Theorem sample_data_parses (g : nat → Q) :
  unit_draws g →
  let rows := parseCSV (generateSampleData g) in
  length rows = 20%nat
  ∧ (∀ i row,
       rows !! i = Some row →
       row !! lit "transaction_id"
       = Some (lit "TXN" ++ padStart (Z_toString (Z.of_nat (S i))) 4 48%N)
       ∧ (∃ m, m ∈ merchants ∧ row !! lit "merchant" = Some m)
       ∧ (∃ l, l ∈ locations ∧ row !! lit "location" = Some l)
       ∧ existsb (location_includes row) highRiskLocations = false)
  ∧ ∀ u,
      let u' := useSampleData g u in
      fileRows_textContent u' = lit "20 rows"
      ∧ analyzeBtn_disabled u' = false
      ∧ ∃ f, uploadedFile u' = Some f ∧ file_text f = generateSampleData g.
Proof.
  intros Hg.
  set (lines := (λ k, sample_line (S k) (λ n, g (7 * k + n)%nat)) <$> seq 0 20).
  assert (∀ k, unit_draws (λ n, g (7 * k + n)%nat)) as Hgk
    by (intros k n; apply Hg).
  assert (Forall (λ l, (newline ∉ l) ∧ trim l ≠ []
                       ∧ trimStart (reverse l) = reverse l) lines) as Hlines.
  { apply Forall_fmap, Forall_true. intros k.
    by destruct (sample_row (S k) _ (Hgk k)) as (? & _). }
  assert (split newline (trim (generateSampleData g))
          = lit "transaction_id,amount,merchant,location,timestamp,card_number"
            :: lines) as Hsplit.
  { apply text_lines; [closed_fact | lit_neq | by vm_compute | by vm_compute |
                       done]. }
  assert (parseCSV (generateSampleData g)
          = row_of [lit "transaction_id"; lit "amount"; lit "merchant";
                    lit "location"; lit "timestamp"; lit "card_number"]
              <$> lines) as Hrows.
  { unfold parseCSV. rewrite Hsplit, parseCSV_loop_spec.
    assert (trim <$> split comma
              (lit "transaction_id,amount,merchant,location,timestamp,card_number")
            = [lit "transaction_id"; lit "amount"; lit "merchant";
               lit "location"; lit "timestamp"; lit "card_number"])
      as -> by (by vm_compute).
    simpl. rewrite filter_all; [done|].
    eapply Forall_impl; [done|]. by intros l (_ & ? & _). }
  cbv zeta. rewrite Hrows. split_and!.
  - unfold lines. by rewrite !length_fmap, length_seq.
  - intros i row Hi. unfold lines in Hi. rewrite !list_lookup_fmap in Hi.
    destruct (seq 0 20 !! i) as [k|] eqn:Hk; [|done].
    apply lookup_seq in Hk as [-> _].
    assert (row = row_of [lit "transaction_id"; lit "amount"; lit "merchant";
                          lit "location"; lit "timestamp"; lit "card_number"]
                    (sample_line (S i) (λ n, g (7 * i + n)%nat))) as ->
      by (by injection Hi).
    destruct (sample_row (S i) _ (Hgk i)) as (_ & Hid & Hm & Hl).
    split_and!; [done | done | done |].
    destruct Hl as (l & Hl & Hrow). apply not_true_iff_false.
    intros (l' & loc & a & b & Hrow' & Hloc & Hin)%location_flag_spec.
    rewrite Hrow in Hrow'. injection Hrow' as <-.
    assert (Forall (λ l, Forall (λ loc, includes l loc = false)
                           highRiskLocations) locations) as Hnone
      by closed_fact.
    pose proof (proj1 (Forall_forall _ _)
                  (proj1 (Forall_forall _ _) Hnone l Hl) loc Hloc) as Hno.
    apply not_true_iff_false in Hno. apply Hno, includes_spec. eauto.
  - intros u. unfold useSampleData, handleFileSelection.
    assert (endsWith (lit "sample_transactions.csv") (lit ".csv") = true)
      as Hname by (by vm_compute).
    cbn [file_name file_text]. rewrite Hname. cbn [negb].
    cbn [fileRows_textContent analyzeBtn_disabled uploadedFile].
    rewrite Hsplit. split_and!; [|done|by eexists].
    cbn [length]. unfold lines. rewrite length_fmap, length_seq.
    by vm_compute.
Qed.
End sample_data.

Lemma sample_data_parses_witness :
  length (parseCSV (@generateSampleData sample_host sample_texts (λ _, 0%Q)))
  = 20%nat.
Proof.
  apply (@sample_data_parses sample_host sample_texts (λ _, 0%Q)).
  intros n. split; [by vm_compute|]. intros k Hk.
  assert (k = 1 ∨ k = 2 ∨ k = 3 ∨ k = 4 ∨ k = 5 ∨ k = 6 ∨ k = 7 ∨ k = 8)
    as Hcases by lia.
  destruct Hcases as [->|[->|[->|[->|[->|[->|[->| ->]]]]]]]; by vm_compute.
Defined.

(** ** The share of the draw in a score *)

Section score_window.
Context `{Host}.

Lemma add_le_compat (x x' y y' : Q) :
  (x <= x')%Q → (y <= y')%Q → (x ⊕ y <= x' ⊕ y')%Q.
Proof. intros Hx Hy. unfold add. by apply fl_monotone, Qplus_le_compat. Qed.

Lemma add_between (lo hi lo' hi' : Z) (x y : Q) :
  Z.abs (lo + lo') ≤ 2 ^ 53 → Z.abs (hi + hi') ≤ 2 ^ 53 →
  (inject_Z lo <= x <= inject_Z hi)%Q →
  (inject_Z lo' <= y <= inject_Z hi')%Q →
  (inject_Z (lo + lo') <= x ⊕ y <= inject_Z (hi + hi'))%Q.
Proof.
  intros Hlo Hhi [Hx Hx'] [Hy Hy']. split.
  - eapply Qle_trans; [|apply (add_le_compat _ _ _ _ Hx Hy)].
    unfold add. rewrite <- inject_Z_plus.
    apply Qle_lteq. right. symmetry. by apply fl_integer.
  - eapply Qle_trans; [apply (add_le_compat _ _ _ _ Hx' Hy')|].
    unfold add. rewrite <- inject_Z_plus.
    apply Qle_lteq. right. by apply fl_integer.
Qed.

Lemma Math_round_monotone (x y : Q) :
  (x <= y)%Q → Math_round x ≤ Math_round y.
Proof.
  intros Hxy. unfold Math_round. apply Qfloor_resp_le.
  apply Qplus_le_compat; [done|apply Qle_refl].
Qed.

Lemma Math_round_integer (n : Z) : Math_round (inject_Z n) = n.
Proof.
  unfold Math_round.
  pose proof (Qfloor_le (inject_Z n + 1 / 2)) as Hle.
  pose proof (Qlt_floor (inject_Z n + 1 / 2)) as Hlt.
  assert (inject_Z (Qfloor (inject_Z n + 1 / 2)) < inject_Z (n + 1))%Q as Hhi.
  { eapply Qle_lt_trans; [exact Hle|]. rewrite inject_Z_plus.
    change (1 / 2)%Q with (1 # 2)%Q. change (inject_Z 1) with 1%Q.
    generalize (inject_Z n). intros q. lra. }
  assert (inject_Z n < inject_Z (Qfloor (inject_Z n + 1 / 2) + 1))%Q as Hlo.
  { eapply Qle_lt_trans; [|exact Hlt].
    change (1 / 2)%Q with (1 # 2)%Q. generalize (inject_Z n). intros q. lra. }
  rewrite <- Zlt_Qlt in Hhi, Hlo. lia.
Qed.

Lemma draw_points (random : Q) :
  (0 <= random <= 1)%Q → (inject_Z 0 <= random ⊗ 40 <= inject_Z 40)%Q.
Proof.
  intros [Hlo Hhi]. split.
  - apply mul_nonneg; [done | by vm_compute].
  - unfold mul. eapply Qle_trans;
      [|apply Qle_lteq; right; apply (fl_integer 40); by vm_compute].
    apply fl_monotone. change (inject_Z 40) with (1 * 40)%Q.
    apply Qmult_le_compat_r; [done | by vm_compute].
Qed.

Lemma score_between (tier : Z) (s1 j : Q) (bl bt : bool) :
  0 ≤ tier ≤ 30 → (s1 == inject_Z tier)%Q →
  (inject_Z 0 <= j <= inject_Z 40)%Q →
  let base := tier + (if bl then 25 else 0) + (if bt then 15 else 0) in
  base
  ≤ Z.min (Math_round (if bt
                       then (if bl then s1 ⊕ j ⊕ 25 else s1 ⊕ j) ⊕ 15
                       else (if bl then s1 ⊕ j ⊕ 25 else s1 ⊕ j))%Q) 100
  ≤ Z.min (base + 40) 100.
Proof.
  intros Htier Hs1 Hj base.
  assert (inject_Z tier <= s1 <= inject_Z tier)%Q as Hs.
  { split; apply Qle_lteq; right; [by symmetry | done]. }
  pose proof (add_between tier tier 0 40 s1 j ltac:(lia) ltac:(lia) Hs Hj)
    as H2.
  assert (∀ x : Q, (inject_Z 25 <= 25 <= inject_Z 25)%Q
                   ∧ (inject_Z 15 <= 15 <= inject_Z 15)%Q) as Hc
    by (intros _; split; split; apply Qle_refl).
  destruct (Hc 0%Q) as [H25 H15].
  assert (inject_Z (tier + 0 + (if bl then 25 else 0))
          <= (if bl then s1 ⊕ j ⊕ 25 else s1 ⊕ j)
          <= inject_Z (tier + 40 + (if bl then 25 else 0)))%Q as H3.
  { destruct bl.
    - apply add_between; [lia | lia | done | done].
    - by rewrite !Z.add_0_r in *. }
  assert (inject_Z base
          <= (if bt then (if bl then s1 ⊕ j ⊕ 25 else s1 ⊕ j) ⊕ 15
              else (if bl then s1 ⊕ j ⊕ 25 else s1 ⊕ j))
          <= inject_Z (base + 40))%Q as [H4 H4'].
  { unfold base. destruct bt.
    - replace (tier + (if bl then 25 else 0) + 15)
        with (tier + 0 + (if bl then 25 else 0) + 15) by lia.
      replace (tier + 0 + (if bl then 25 else 0) + 15 + 40)
        with (tier + 40 + (if bl then 25 else 0) + 15) by lia.
      apply add_between; [destruct bl; lia | destruct bl; lia | done | done].
    - replace (tier + (if bl then 25 else 0) + 0)
        with (tier + 0 + (if bl then 25 else 0)) by lia.
      replace (tier + 0 + (if bl then 25 else 0) + 40)
        with (tier + 40 + (if bl then 25 else 0)) by lia.
      done. }
  apply Math_round_monotone in H4, H4'.
  rewrite Math_round_integer in H4, H4'.
  assert (base ≤ 70) by (unfold base; destruct bl, bt; lia).
  lia.
Qed.

(** X22. With the draw in [[0, 1]], the score lies between the points the
    transaction carries by itself (amount tier, location flag, time flag)
    and 40 more, capped at 100.  So a transaction with all 70 points is
    a fraud whatever the draw, one with fewer than 30 is never a fraud, and
    one with fewer than 10 is always legitimate. *)
Theorem score_window (random : Q) (transaction : gmap (list N) (list N)) :
  (0 <= random <= 1)%Q →
  let s := calculateRiskScore random transaction in
  let base := base_score transaction in
  base ≤ s ≤ Z.min (base + 40) 100
  ∧ (70 ≤ base → determineFraudStatus s = lit "fraud")
  ∧ (base < 30 → determineFraudStatus s ≠ lit "fraud")
  ∧ (base < 10 → determineFraudStatus s = lit "legitimate").
Proof.
  intros Hr s base.
  assert (base ≤ s ≤ Z.min (base + 40) 100) as Hs.
  { unfold s, base, calculateRiskScore, base_score. cbv zeta.
    pose proof (draw_points random Hr) as Hj.
    destruct (gt (amount_of transaction) (Finite 5000));
      [apply (score_between 30); [lia | by apply (add_0_l_integer 30) | done]|].
    destruct (gt (amount_of transaction) (Finite 2000));
      [apply (score_between 20); [lia | by apply (add_0_l_integer 20) | done]|].
    destruct (gt (amount_of transaction) (Finite 1000));
      [apply (score_between 10); [lia | by apply (add_0_l_integer 10) | done]|].
    destruct (lt (amount_of transaction) (Finite 10));
      [apply (score_between 15); [lia | by apply (add_0_l_integer 15) | done]|].
    apply (score_between 0); [lia | reflexivity | done]. }
  split; [done|]. split_and!.
  - intros Hb. apply determineFraudStatus_fraud. lia.
  - intros Hb Hf%determineFraudStatus_fraud. lia.
  - intros Hb. unfold determineFraudStatus.
    destruct (Z.leb_spec 70 s); [lia|]. destruct (Z.leb_spec 50 s); [lia|].
    done.
Qed.

(** X23. A larger draw never gives a smaller score. *)
Theorem score_monotone_in_draw (random random' : Q)
    (transaction : gmap (list N) (list N)) :
  (random <= random')%Q →
  calculateRiskScore random transaction
  ≤ calculateRiskScore random' transaction.
Proof.
  intros Hr. unfold calculateRiskScore. cbv zeta.
  apply Z.min_le_compat_r, Math_round_monotone.
  assert (random ⊗ 40 <= random' ⊗ 40)%Q as Hj.
  { unfold mul. apply fl_monotone.
    apply Qmult_le_compat_r; [done | by vm_compute]. }
  assert (∀ s1, (s1 ⊕ random ⊗ 40 <= s1 ⊕ random' ⊗ 40)%Q) as H2.
  { intros s1. apply add_le_compat; [apply Qle_refl | done]. }
  destruct (existsb (location_includes transaction) highRiskLocations),
    (ge (hour_of transaction) (Finite 1) && le (hour_of transaction) (Finite 5));
    repeat (apply add_le_compat; [|apply Qle_refl]); apply H2.
Qed.
End score_window.

Lemma score_window_witness :
  determineFraudStatus
    (@calculateRiskScore sample_host (1 # 2)
       {[lit "amount" := lit "6000"; lit "location" := lit "Unknown";
         lit "timestamp" := lit "2024-01-01T03:00:00.000Z"]})
  = lit "fraud".
Proof.
  apply (@score_window sample_host (1 # 2)
           {[lit "amount" := lit "6000"; lit "location" := lit "Unknown";
             lit "timestamp" := lit "2024-01-01T03:00:00.000Z"]});
    by vm_compute.
Defined.

Lemma score_monotone_in_draw_witness :
  @calculateRiskScore sample_host (1 # 4) {[lit "amount" := lit "6000"]}
  ≤ @calculateRiskScore sample_host (3 # 4) {[lit "amount" := lit "6000"]}.
Proof.
  apply (@score_monotone_in_draw sample_host (1 # 4) (3 # 4)). by vm_compute.
Defined.
